(** * CROP_GDD_planner: the GDD accumulation engine of [farmer_gdd_app.py]

    A shallow embedding of the block fetch ([get_power_daily_tmax_tmin]),
    the heat-unit function ([daily_gdd]), the accumulation loop
    ([simulate_gdd]) and the target handling of [main], followed by the
    properties of these functions.

    Conventions of the embedding.
    - Temperatures and GDD values are Python floats in the source; here
      they are exact rationals ([Qc], canonical fractions with Leibniz
      equality), so rounding is idealised away.  The special float values
      are taken up in [Fl], which repeats the fetch and the loop over
      floats that may be infinite or NaN; on finite values the two
      engines agree ([fin_simulate_gdd]).
    - A [datetime.date] is its proleptic Gregorian ordinal, a [Z];
      [timedelta(days=n)] is the integer [n].  The 8-digit [%Y%m%d] keys
      of a response order as strings exactly as their dates do, so a
      response dictionary is a [gmap] keyed by the date.
      The bounds of [datetime.date] (years 1 to 9999) are no part of the
      type; [valid_date] states them where a property depends on them.
    - Targets are Python integers, as in the default tuple and in what
      [main] parses; they are compared with the rational total through
      [Qc_of_Z].
    - The remote service and the Streamlit surface are the [world]: the
      service is a function from the number of requests already made and
      the request to a reply, and every [st.*] call appends a message.
    - The [while] loop of [simulate_gdd] takes fuel; the loop is shown to
      end within one iteration per day of the horizon when blocks have at
      least one day. *)

From Stdlib Require Import Ascii QArith Qcanon.
From stdpp Require Import gmap strings list sorting numbers.

Local Open Scope Z_scope.

Abbreviation date := Z.

(** ** Data model *)

(** One row of the DataFrame returned by [get_power_daily_tmax_tmin]. *)
Record observation := Observation {
  obs_date : date;
  obs_tmax : Qc;
  obs_tmin : Qc
}.

(** One row of [history_rows]. *)
Record gdd_record := GddRecord {
  rec_date : date;
  rec_tmax : Qc;
  rec_tmin : Qc;
  GDD_day : Qc;
  GDD_cum : Qc
}.

(** [data["properties"]["parameter"]]: each variable maps a date key to a
    value; a variable may be absent. *)
Record parameter_block := ParameterBlock {
  T2M_MAX : option (gmap Z Qc);
  T2M_MIN : option (gmap Z Qc)
}.

(** The decoded JSON body; [None] when [data["properties"]["parameter"]]
    does not exist. *)
Record response_body := ResponseBody {
  parameter : option parameter_block
}.

(** The [params] of one GET request. *)
Record request := Request {
  req_lat : Qc;
  req_lon : Qc;
  req_start : date;
  req_end : date
}.

(** What [requests.get] yields: a response with a status code and a body,
    or a [RequestException] raised by the transport (timeout, connection
    error). *)
Inductive reply :=
  | Response (status : Z) (body : response_body)
  | NetworkFailure.

(** The exceptions that the modelled code can raise. *)
Inductive exn :=
  | HTTPError (status : Z)
  | RequestException
  | UnboundLocalError
  | KeyError
  | ValueError.

(** The calls made on the Streamlit surface. *)
Inductive ui_msg :=
  | Write_fetching (current_start current_end : date)
  | Warning_server_error (status : Z) (attempt max_retries : nat)
  | Warning_network_error (attempt max_retries : nat)
  | Error_stopped (current_start current_end : date)
  | Info_try_later
  | Error_targets_not_integers
  | Error_enter_place_name
  | Write_geocoding
  | Error_could_not_geocode
  | Success_location
  | Warning_no_data
  | Show_results (stages : list (Z * option (option date)))
                 (history : list gdd_record).

(** The observable environment: how many GET requests were made, which
    ones, which places were sent to the geocoder, and the messages shown. *)
Record world := World {
  calls : nat;
  sent : list request;
  geocoded : list string;
  ui : list ui_msg
}.

Definition world0 : world := World 0 [] [] [].

Global Instance exn_eq_dec : EqDecision exn.
Proof. solve_decision. Defined.

(** ** The effect monad: state passing over [world], with exceptions *)

Definition M (A : Type) : Type := world → (exn + A) * world.

Global Instance M_ret : MRet M := λ A a w, (inr a, w).

Global Instance M_bind : MBind M := λ A B k m w,
  match m w with
  | (inr a, w') => k a w'
  | (inl e, w') => (inl e, w')
  end.

Definition raise {A} (e : exn) : M A := λ w, (inl e, w).

(** Any [st.write], [st.warning], [st.error] or [st.info]. *)
Definition emit (msg : ui_msg) : M unit := λ w,
  (inr (), World (calls w) (sent w) (geocoded w) (ui w ++ [msg])).

(** ** 1. NASA POWER block fetch *)

Section Client.

(** The remote service: the reply to the [n]-th GET request overall. *)
Variable net : nat → request → reply.

(** [requests.get(base_url, params=params, timeout=30)]. *)
Definition requests_get (req : request) : M reply := λ w,
  (inr (net (calls w) req),
   World (S (calls w)) (sent w ++ [req]) (geocoded w) (ui w)).

(** [r.raise_for_status()] raises [HTTPError] for a 4xx or 5xx status. *)
Definition raise_for_status (status : Z) : bool :=
  bool_decide (400 ≤ status < 600).

(** The [for attempt in range(1, max_retries + 1)] loop; [n] counts the
    attempts left.  When the range is exhausted without [break], [data]
    was never assigned and line 69 raises [UnboundLocalError]. *)
Fixpoint retry_loop (n attempt max_retries : nat) (req : request)
  : M response_body :=
  match n with
  | O => raise UnboundLocalError
  | S n' =>
    r ← requests_get req;
    match r with
    | Response status body =>
      if raise_for_status status then
        if bool_decide (500 ≤ status < 600)
           && bool_decide (attempt < max_retries)%nat then
          emit (Warning_server_error status attempt max_retries);;
          retry_loop n' (S attempt) max_retries req
        else raise (HTTPError status)
      else mret body
    | NetworkFailure =>
      if bool_decide (attempt < max_retries)%nat then
        emit (Warning_network_error attempt max_retries);;
        retry_loop n' (S attempt) max_retries req
      else raise RequestException
    end
  end.

(** [sorted(tmax_dict.keys())]. *)
Definition sorted_keys (d : gmap Z Qc) : list Z :=
  merge_sort Z.le (elements (dom d)).

(** The [for d_str in sorted(...)] loop that builds [rows]; a subscript of
    a dictionary with a missing key raises [KeyError]. *)
Fixpoint build_rows (tmax_dict tmin_dict : gmap Z Qc) (keys : list Z)
  : exn + list observation :=
  match keys with
  | [] => inr []
  | d :: keys' =>
    match tmax_dict !! d, tmin_dict !! d with
    | Some tx, Some tn =>
      match build_rows tmax_dict tmin_dict keys' with
      | inr rows => inr (Observation d tx tn :: rows)
      | inl e => inl e
      end
    | _, _ => inl KeyError
    end
  end.

(** Lines 69 to 82: from the decoded body to the DataFrame rows. *)
Definition parse_body (data : response_body) : exn + list observation :=
  match parameter data with
  | None => inl KeyError
  | Some param_data =>
    match T2M_MAX param_data with
    | None => inl KeyError
    | Some tmax_dict =>
      match T2M_MIN param_data with
      | None => inl KeyError
      | Some tmin_dict =>
        build_rows tmax_dict tmin_dict (sorted_keys tmax_dict)
      end
    end
  end.

Definition default_max_retries : nat := 3.

Definition get_power_daily_tmax_tmin (lat lon : Qc) (start_date end_date : date)
    (max_retries : nat) : M (list observation) :=
  data ← retry_loop max_retries 1 max_retries
           (Request lat lon start_date end_date);
  match parse_body data with
  | inr rows => mret rows
  | inl e => raise e
  end.

End Client.

(** ** 2. GDD functions *)

(** Python's two-argument [max(a, b)]: [b] when it is strictly greater
    than [a], otherwise [a]. *)
Definition py_max (a b : Qc) : Qc := if decide (a < b)%Qc then b else a.

Definition daily_gdd (tmax tmin tbase : Qc) : Qc :=
  let tmean := ((tmax + tmin) / Qc_of_Z 2)%Qc in
  py_max (tmean - tbase)%Qc (Qc_of_Z 0).

(** [max(targets)] of a tuple of integers; [None] stands for the
    [ValueError] raised on an empty tuple. *)
Definition max_targets (targets : list Z) : option Z :=
  match targets with
  | [] => None
  | thr :: rest => Some (foldl Z.max thr rest)
  end.

(** [{thr: None for thr in targets}]. *)
Definition init_stage_dates (targets : list Z) : gmap Z (option date) :=
  list_to_map ((λ thr, (thr, None)) <$> targets).

(** The variables of the [while] loop. *)
Record sim_state := SimState {
  cum_gdd : Qc;
  stage_dates : gmap Z (option date);
  history_rows : list gdd_record;
  current_start : date
}.

(** Lines 137 to 139: one pass over [targets] for the day [date_d].
    Every target is a key of [stage_dates] by construction, so the
    subscript never fails; an absent key leaves the dictionary as it is. *)
Definition mark_stage (cum : Qc) (date_d : date)
    (sd : gmap Z (option date)) (thr : Z) : gmap Z (option date) :=
  match sd !! thr with
  | Some None =>
    if decide (Qc_of_Z thr ≤ cum)%Qc then <[thr := Some date_d]> sd else sd
  | _ => sd
  end.

Definition mark_stages (targets : list Z) (cum : Qc) (date_d : date)
    (sd : gmap Z (option date)) : gmap Z (option date) :=
  foldl (mark_stage cum date_d) sd targets.

(** Lines 123 to 139: the body of the inner loop for one row. *)
Definition process_row (tbase : Qc) (targets : list Z) (st : sim_state)
    (row : observation) : sim_state :=
  let date_d := obs_date row in
  let tmax := obs_tmax row in
  let tmin := obs_tmin row in
  let gdd_day := daily_gdd tmax tmin tbase in
  let cum := (cum_gdd st + gdd_day)%Qc in
  SimState cum
    (mark_stages targets cum date_d (stage_dates st))
    (history_rows st ++ [GddRecord date_d tmax tmin gdd_day cum])
    (current_start st).

(** Lines 119 to 139: [for _, row in df_block.iterrows()], left by [break]
    as soon as [cum_gdd >= highest_target]. *)
Fixpoint process_block (tbase : Qc) (targets : list Z) (highest_target : Z)
    (rows : list observation) (st : sim_state) : sim_state :=
  match rows with
  | [] => st
  | row :: rest =>
    if decide (Qc_of_Z highest_target ≤ cum_gdd st)%Qc then st
    else process_block tbase targets highest_target rest
           (process_row tbase targets st row)
  end.

Section Engine.

Variable net : nat → request → reply.

(** The guard of the [while] loop, line 108. *)
Definition loop_guard (highest_target : Z) (end_date_limit : date)
    (st : sim_state) : bool :=
  bool_decide (cum_gdd st < Qc_of_Z highest_target)%Qc
  && bool_decide (current_start st ≤ end_date_limit).

(** How one iteration of the [while] loop ends: it falls through to the
    next test of the guard, or leaves the loop by [break]. *)
Inductive iteration :=
  | Continue (st : sim_state) (w : world)
  | Break (st : sim_state) (w : world).

(** Lines 109 to 141: one iteration.  Whatever the fetch raises is caught
    by [except Exception], which reports and leaves the loop. *)
Definition loop_body (lat lon tbase : Qc) (targets : list Z)
    (highest_target : Z) (end_date_limit : date) (block_days : Z)
    (st : sim_state) (w : world) : iteration :=
  let current_end :=
    Z.min (current_start st + (block_days - 1)) end_date_limit in
  let w1 := snd (emit (Write_fetching (current_start st) current_end) w) in
  match get_power_daily_tmax_tmin net lat lon (current_start st)
          current_end default_max_retries w1 with
  | (inl _, w2) =>
    let w3 := snd (emit (Error_stopped (current_start st) current_end) w2) in
    Break st (snd (emit Info_try_later w3))
  | (inr df_block, w2) =>
    let st' := process_block tbase targets highest_target df_block st in
    Continue
      (SimState (cum_gdd st') (stage_dates st') (history_rows st')
         (current_end + 1))
      w2
  end.

(** Lines 108 to 141.  The loop has no bound of its own in the source, so
    the model takes fuel, one unit per iteration, and answers [None] when
    it runs out. *)
Fixpoint simulate_loop (fuel : nat) (lat lon tbase : Qc) (targets : list Z)
    (highest_target : Z) (end_date_limit : date) (block_days : Z)
    (st : sim_state) (w : world) : option (sim_state * world) :=
  if loop_guard highest_target end_date_limit st then
    match fuel with
    | O => None
    | S fuel' =>
      match loop_body lat lon tbase targets highest_target end_date_limit
              block_days st w with
      | Continue st' w' =>
        simulate_loop fuel' lat lon tbase targets highest_target
          end_date_limit block_days st' w'
      | Break st' w' => Some (st', w')
      end
    end
  else Some (st, w).

(** The value returned by [simulate_gdd]: the history and [stage_dates]. *)
Definition sim_result : Type := list gdd_record * gmap Z (option date).

(** [simulate_gdd]; [start_date] is the date that
    [pd.to_datetime(start_date).date()] yields.  The outer [option] is
    [None] when the fuel does not suffice. *)
Definition simulate_gdd (fuel : nat) (lat lon : Qc) (start_date : date)
    (tbase : Qc) (targets : list Z) (max_days block_days : Z) (w : world)
  : option ((exn + sim_result) * world) :=
  let end_date_limit := start_date + max_days in
  match max_targets targets with
  | None => Some (inl ValueError, w)
  | Some highest_target =>
    match simulate_loop fuel lat lon tbase targets highest_target
            end_date_limit block_days
            (SimState (Qc_of_Z 0) (init_stage_dates targets) [] start_date) w
    with
    | Some (st, w') => Some (inr (history_rows st, stage_dates st), w')
    | None => None
    end
  end.

Definition default_targets : list Z := [100; 300; 500; 1000].
Definition default_max_days : Z := 365 * 3.
Definition default_block_days : Z := 30.

End Engine.

(** ** 3. The Streamlit form: target handling and the run *)

(** The text typed in the form is taken as ASCII.  [str.strip], [str.split]
    and [int] are Python builtins; the definitions below give their
    behaviour on such text. *)
Module Py.

(** [c.isspace()] on ASCII. *)
Definition isspace (c : ascii) : bool :=
  match c with
  | "009" | "010" | "011" | "012" | "013" | " "
  | "028" | "029" | "030" | "031" => true
  | _ => false
  end%char.

Fixpoint lstrip (s : string) : string :=
  match s with
  | String c s' => if isspace c then lstrip s' else s
  | EmptyString => EmptyString
  end.

(** [s.strip()]. *)
Definition strip (s : string) : string :=
  String.rev (lstrip (String.rev (lstrip s))).

Fixpoint split_go (sep : ascii) (cur : string) (s : string) : list string :=
  match s with
  | EmptyString => [String.rev cur]
  | String c s' =>
    if decide (c = sep) then String.rev cur :: split_go sep EmptyString s'
    else split_go sep (String c cur) s'
  end.

(** [s.split(sep)] for a separator of one character. *)
Definition split (sep : ascii) (s : string) : list string :=
  split_go sep EmptyString s.

(** The digits of a decimal literal: single underscores are allowed
    between digits only. *)
Fixpoint digits (s : string) (acc : Z) (after_digit : bool) : option Z :=
  match s with
  | EmptyString => if after_digit then Some acc else None
  | String c s' =>
    match Ascii.is_nat c with
    | Some d => digits s' (10 * acc + Z.of_nat d) true
    | None =>
      if decide (c = "_"%char) then
        if after_digit then digits s' acc false else None
      else None
    end
  end.

(** [int(s)] in base 10; [None] stands for [ValueError]. *)
Definition int (s : string) : option Z :=
  match strip s with
  | String "+" s' => digits s' 0 false
  | String "-" s' => Z.opp <$> digits s' 0 false
  | s' => digits s' 0 false
  end.

End Py.

(** The widgets of the form as [main] reads them. *)
Record form := Form {
  place_name : string;
  start_date_str : date;
  tbase_input : Qc;
  use_manual_coords : bool;
  customize_targets : bool;
  targets_input : string;
  run_button : bool;
  manual_lat : Qc;
  manual_lon : Qc
}.

(** Line 169:
    [tuple(sorted({int(x.strip()) for x in targets_input.split(",") if x.strip()}))];
    [None] when some [int] raises [ValueError]. *)
Definition parse_targets (targets_input : string) : option (list Z) :=
  let pieces :=
    filter (λ x, Py.strip x ≠ EmptyString) (Py.split ","%char targets_input) in
  ints ← mapM (λ x, Py.int (Py.strip x)) pieces;
  Some (merge_sort Z.le (remove_dups ints)).

(** Lines 162 to 174: the targets of the run and the message shown, if
    any. *)
Definition read_targets (f : form) : M (list Z) :=
  if customize_targets f then
    match parse_targets (targets_input f) with
    | Some targets => mret targets
    | None => emit Error_targets_not_integers;; mret default_targets
    end
  else mret default_targets.

Section App.

Variable net : nat → request → reply.

(** [geocode_place]: the coordinates of a place, or [None] when it raises
    (no API key, place not found, transport error). *)
Variable geocoder : string → option (Qc * Qc).

Definition geocode_place (place : string) : M (option (Qc * Qc)) := λ w,
  (inr (geocoder place),
   World (calls w) (sent w) (geocoded w ++ [place]) (ui w)).

(** Lines 177 to 190: [None] when [main] returns before the run. *)
Definition read_location (f : form) : M (option (Qc * Qc)) :=
  if use_manual_coords f then mret (Some (manual_lat f, manual_lon f))
  else if decide (place_name f = EmptyString) then
    emit Error_enter_place_name;; mret None
  else
    emit Write_geocoding;;
    r ← geocode_place (place_name f);
    match r with
    | Some ll => mret (Some ll)
    | None => emit Error_could_not_geocode;; mret None
    end.

(** [main], one pass of the script over the form. *)
Definition main (fuel : nat) (f : form) (w : world)
  : option ((exn + unit) * world) :=
  match read_targets f w with
  | (inl e, w1) => Some (inl e, w1)
  | (inr targets, w1) =>
    if run_button f then
      match read_location f w1 with
      | (inl e, w2) => Some (inl e, w2)
      | (inr None, w2) => Some (inr (), w2)
      | (inr (Some (lat, lon)), w2) =>
        let w3 := snd (emit Success_location w2) in
        match simulate_gdd net fuel lat lon (start_date_str f) (tbase_input f)
                targets default_max_days default_block_days w3 with
        | None => None
        | Some (inl e, w4) => Some (inl e, w4)
        | Some (inr (history_df, stage_dates), w4) =>
          match history_df with
          | [] => Some (emit Warning_no_data w4)
          | _ =>
            Some (emit (Show_results ((λ thr, (thr, stage_dates !! thr)) <$> targets)
                          history_df) w4)
          end
        end
      end
    else Some (inr (), w1)
  end.

End App.

(** ** Notions used to state the properties *)

(** A reply that the retry policy treats as transient: a 5xx status or a
    failure of the transport. *)
Definition transient (r : reply) : bool :=
  match r with
  | Response status _ => bool_decide (500 ≤ status < 600)
  | NetworkFailure => true
  end.

(** The exception that a failing reply raises inside the [try]. *)
Definition reply_error (r : reply) : exn :=
  match r with
  | Response status _ => HTTPError status
  | NetworkFailure => RequestException
  end.

(** The date of the first record, in processing order, whose cumulative
    GDD is at least [thr]. *)
Fixpoint first_crossing (thr : Z) (history : list gdd_record) : option date :=
  match history with
  | [] => None
  | r :: rest =>
    if decide (Qc_of_Z thr ≤ GDD_cum r)%Qc then Some (rec_date r)
    else first_crossing thr rest
  end.

(** The loop variables after [n] iterations that all ended without
    [break]; [None] when the loop ends earlier. *)
Fixpoint run_blocks (net : nat → request → reply) (n : nat)
    (lat lon tbase : Qc) (targets : list Z) (highest_target : Z)
    (end_date_limit : date) (block_days : Z) (st : sim_state) (w : world)
  : option (sim_state * world) :=
  match n with
  | O => Some (st, w)
  | S n' =>
    if loop_guard highest_target end_date_limit st then
      match loop_body net lat lon tbase targets highest_target
              end_date_limit block_days st w with
      | Continue st' w' =>
        run_blocks net n' lat lon tbase targets highest_target
          end_date_limit block_days st' w'
      | Break _ _ => None
      end
    else None
  end.

(** The loop variables on entry to the [while] loop. *)
Definition initial_state (targets : list Z) (start_date : date) : sim_state :=
  SimState (Qc_of_Z 0) (init_stage_dates targets) [] start_date.

(** Every reply stays inside the requested range of dates. *)
Definition within_request (net : nat → request → reply) : Prop :=
  ∀ n req status body param_data tmax_dict d,
    net n req = Response status body →
    parameter body = Some param_data →
    T2M_MAX param_data = Some tmax_dict →
    d ∈ dom tmax_dict →
    req_start req ≤ d ≤ req_end req.

(** An ordinal that [datetime.date] can hold: from [date.min], the first
    day of year 1, to [date.max], the last day of year 9999.  Line 99 adds
    [timedelta(days=max_days)] to the start date and raises
    [OverflowError] when the sum is no such ordinal. *)
Definition valid_date (d : date) : Prop := 1 ≤ d ≤ 3652059.

(** A text of ASCII characters only. *)
Definition ascii_text (s : string) : Prop :=
  Forall (λ c, (N_of_ascii c < 128)%N) (String.list_ascii_of_string s).

(** The world after one more GET request and the messages [msgs]. *)
Definition attempted (req : request) (msgs : list ui_msg) (w : world) : world :=
  World (S (calls w)) (sent w ++ [req]) (geocoded w) (ui w ++ msgs).

(** *** Invariants of the loop variables *)

(** The invariant of [stage_dates]: its keys are the targets, and each
    holds the first crossing of its target in the history so far. *)
Definition stage_ok (targets : list Z) (st : sim_state) : Prop :=
  ∀ thr, stage_dates st !! thr
         = if decide (thr ∈ targets)
           then Some (first_crossing thr (history_rows st)) else None.

(** The invariant of the cumulative total: no record exceeds the running
    total, the totals of the records never decrease, and every record but
    the last is below the highest target. *)
Definition cum_ok (highest_target : Z) (st : sim_state) : Prop :=
  Forall (λ r, GDD_cum r ≤ cum_gdd st)%Qc (history_rows st)
  ∧ StronglySorted Qcle (GDD_cum <$> history_rows st)
  ∧ (∀ h r, history_rows st = h ++ [r] →
       Forall (λ r', GDD_cum r' < Qc_of_Z highest_target)%Qc h).

(** The dates of the history: strictly ascending, and all before the start
    of the next block; when blocks have no days at all nothing is ever
    recorded. *)
Definition dates_ok (block_days : Z) (st : sim_state) : Prop :=
  StronglySorted Z.lt (rec_date <$> history_rows st)
  ∧ (1 ≤ block_days →
     Forall (λ r, rec_date r < current_start st) (history_rows st))
  ∧ (block_days < 1 → history_rows st = []).

(** The form with the box "Customize GDD targets" left unticked. *)
Definition without_custom_targets (f : form) : form :=
  Form (place_name f) (start_date_str f) (tbase_input f) (use_manual_coords f)
    false (targets_input f) (run_button f) (manual_lat f) (manual_lon f).

(** ** Environments used in the examples *)

(** A body with the given days, each a date with its two temperatures. *)
Definition body_of (days : list (date * Z * Z)) : response_body :=
  ResponseBody (Some (ParameterBlock
    (Some (list_to_map ((λ x, (x.1.1, Qc_of_Z x.1.2)) <$> days)))
    (Some (list_to_map ((λ x, (x.1.1, Qc_of_Z x.2)) <$> days))))).

(** A service that answers every request with each day of the range, at
    30 and 20 degrees. *)
Definition net_steady (n : nat) (req : request) : reply :=
  Response 200
    (body_of ((λ d, (d, 30, 20))
                <$> seqZ (req_start req) (req_end req - req_start req + 1))).

(** A service with no data for any day. *)
Definition net_empty (n : nat) (req : request) : reply :=
  Response 200 (body_of []).

(** A service that answers 404 to every request. *)
Definition net_404 (n : nat) (req : request) : reply :=
  Response 404 (ResponseBody None).

(** A service that answers 503 twice and is steady afterwards. *)
Definition net_flaky (n : nat) (req : request) : reply :=
  if bool_decide (n < 2)%nat then Response 503 (ResponseBody None)
  else net_steady n req.

(** A service that cannot be reached. *)
Definition net_down (n : nat) (req : request) : reply := NetworkFailure.

(** A service that is steady for the first request and answers 404 after
    it. *)
Definition net_one_block (n : nat) (req : request) : reply :=
  if bool_decide (n < 1)%nat then net_steady n req else net_404 n req.

(** A body whose second day has a maximum and no minimum. *)
Definition body_ragged : response_body :=
  ResponseBody (Some (ParameterBlock
    (Some {[ 1 := Qc_of_Z 30; 2 := Qc_of_Z 31 ]})
    (Some {[ 1 := Qc_of_Z 20 ]}))).

Definition no_geocoder (place : string) : option (Qc * Qc) := None.

(** A form with manual coordinates, custom targets typed as [abc], and the
    run button pressed. *)
Definition form_abc : form :=
  Form "Chennai, India" 1 (Qc_of_Z 10) true true "abc" true
    (Qc_of_Z 13) (Qc_of_Z 80).

(** ** The geocoding collaborator *)

Module Geocoding.

(** [best["geometry"]]: either coordinate may be absent. *)
Record geometry := Geometry {
  lat : option Qc;
  lng : option Qc
}.

(** One entry of the list that [geocoder.geocode] returns. *)
Record result := Result {
  result_geometry : option geometry;
  formatted : option string
}.

(** How a call of [geocode_place] ends: with the triple it returns, with
    one of the two [ValueError]s it raises itself, with the [KeyError] of
    a missing subscript, or with whatever the OpenCage client raised. *)
Inductive outcome :=
  | Located (lat lon : Qc) (label : string)
  | Key_not_set
  | Place_not_found
  | Missing_field
  | Service_raised.

(** [geocode_place], lines 12 to 27.  [api_key] is what
    [os.environ.get("OPENCAGE_API_KEY")] yields; [service key place] is
    [OpenCageGeocode(key).geocode(place, limit=1, no_annotations=1)], with
    [None] when that call raises. *)
Definition geocode_place (api_key : option string)
    (service : string → string → option (list result))
    (place_name : string) : outcome :=
  match api_key with
  | None => Key_not_set
  | Some key =>
    if decide (key = EmptyString) then Key_not_set
    else
      match service key place_name with
      | None => Service_raised
      | Some [] => Place_not_found
      | Some (best :: _) =>
        match result_geometry best with
        | None => Missing_field
        | Some g =>
          match lat g, lng g with
          | Some la, Some lo =>
            Located la lo (default place_name (formatted best))
          | _, _ => Missing_field
          end
        end
      end
  end.

(** What [main] keeps of a call: the coordinates, or that it raised. *)
Definition as_geocoder (api_key : option string)
    (service : string → string → option (list result))
    (place_name : string) : option (Qc * Qc) :=
  match geocode_place api_key service place_name with
  | Located la lo _ => Some (la, lo)
  | _ => None
  end.

End Geocoding.

(** ** Further notions *)

(** The messages that announce a retry. *)
Definition is_warning (msg : ui_msg) : bool :=
  match msg with
  | Warning_server_error _ _ _ | Warning_network_error _ _ => true
  | _ => false
  end.

(** The total that a history ends with: the total of its last record, and
    the initial [0.0] when it has no record. *)
Definition last_total (history : list gdd_record) : Qc :=
  from_option GDD_cum (Qc_of_Z 0) (list.last history).

(** The observation that a record was made from. *)
Definition observation_of (r : gdd_record) : observation :=
  Observation (rec_date r) (rec_tmax r) (rec_tmin r).

(** The total after a list of observations, from the total [acc]. *)
Definition total_after (tbase acc : Qc) (rows : list observation) : Qc :=
  foldl (λ a row, a + daily_gdd (obs_tmax row) (obs_tmin row) tbase)%Qc
    acc rows.

(** The records that a list of observations gives, from the total [acc]:
    each with its daily value and the total up to it. *)
Fixpoint records_of (tbase acc : Qc) (rows : list observation)
  : list gdd_record :=
  match rows with
  | [] => []
  | row :: rest =>
    let gdd_day := daily_gdd (obs_tmax row) (obs_tmin row) tbase in
    GddRecord (obs_date row) (obs_tmax row) (obs_tmin row) gdd_day
      (acc + gdd_day)%Qc
    :: records_of tbase (acc + gdd_day)%Qc rest
  end.

(** A day of the horizon lies in the range of some request of the list. *)
Definition requested (reqs : list request) (d : date) : Prop :=
  ∃ req, req ∈ reqs ∧ req_start req ≤ d ≤ req_end req.

(** The invariant of the records: they are the records of their own
    observations, from a total of zero, and the running total is the total
    after them. *)
Definition totals_ok (tbase : Qc) (st : sim_state) : Prop :=
  history_rows st
  = records_of tbase (Qc_of_Z 0) (observation_of <$> history_rows st)
  ∧ cum_gdd st
    = total_after tbase (Qc_of_Z 0) (observation_of <$> history_rows st).

(** The number of blocks from [current_start] to the limit. *)
Definition blocks_left (block_days end_date_limit current_start : Z) : Z :=
  if decide (current_start ≤ end_date_limit)
  then (end_date_limit - current_start) `div` block_days + 1
  else 0.

(** Some reply of the service without error status holds, for the date of
    [r], the two temperatures that [r] records. *)
Definition served (net : nat → request → reply) (r : gdd_record) : Prop :=
  ∃ n req status body param_data tmax_dict tmin_dict,
    net n req = Response status body
    ∧ ¬ 400 ≤ status < 600
    ∧ parameter body = Some param_data
    ∧ T2M_MAX param_data = Some tmax_dict
    ∧ T2M_MIN param_data = Some tmin_dict
    ∧ tmax_dict !! rec_date r = Some (rec_tmax r)
    ∧ tmin_dict !! rec_date r = Some (rec_tmin r).

(** A request that was repeated, or one for an earlier range of dates. *)
Definition same_or_earlier (r1 r2 : request) : Prop :=
  r1 = r2 ∨ req_end r1 < req_start r2.

(** What holds of one request of a run. *)
Definition request_ok (lat lon : Qc) (start_date end_date_limit block_days : Z)
    (req : request) : Prop :=
  req_lat req = lat ∧ req_lon req = lon
  ∧ start_date ≤ req_start req ≤ req_end req
  ∧ req_end req ≤ end_date_limit
  ∧ req_end req - req_start req < block_days.

(** The invariant of the requests [new] made so far by a run whose next
    block starts at [current_start]. *)
Definition requests_ok (lat lon : Qc) (start_date end_date_limit block_days : Z)
    (current_start : Z) (new : list request) : Prop :=
  start_date ≤ current_start
  ∧ Forall (request_ok lat lon start_date end_date_limit block_days) new
  ∧ Forall (λ req, req_end req < current_start) new
  ∧ StronglySorted same_or_earlier new
  ∧ (∀ d, start_date ≤ d < current_start → requested new d).

(** The world [w] differs from [w0] by the requests [new] and by messages
    only. *)
Definition world_after (w0 : world) (new : list request) (w : world) : Prop :=
  sent w = sent w0 ++ new
  ∧ calls w = (calls w0 + length new)%nat
  ∧ geocoded w = geocoded w0
  ∧ ∃ msgs, ui w = ui w0 ++ msgs.

(** The invariant of the loop variables and the world of a run that
    started in the world [w0]: the world differs from [w0] by requests that
    are in order. *)
Definition run_ok (lat lon : Qc) (start_date end_date_limit block_days : Z)
    (w0 : world) (st : sim_state) (w : world) : Prop :=
  ∃ new, world_after w0 new w
       ∧ requests_ok lat lon start_date end_date_limit block_days
           (current_start st) new.

(** An OpenCage client that finds one place for every name. *)
Definition service_chennai (key place : string)
  : option (list Geocoding.result) :=
  Some [Geocoding.Result
          (Some (Geocoding.Geometry (Some (Qc_of_Z 13)) (Some (Qc_of_Z 80))))
          None].

(** A form without manual coordinates and with the button pressed. *)
Definition form_place : form :=
  Form "Chennai, India" 1 (Qc_of_Z 10) false false "" true
    (Qc_of_Z 13) (Qc_of_Z 80).

(** ** The engine on floats with their special values

    The definitions above take every temperature for a finite number.  A
    reply can also carry an infinity (a numeral out of range) or a NaN (a
    [null] among numbers in the DataFrame column).  [Fl] repeats the block
    fetch and the accumulation loop over such values, with Python's
    arithmetic and comparisons on them; rounding and overflow of finite
    sums stay out.  The requests, the exceptions, the messages and the
    world are the ones above. *)

Module Fl.

(** A Python float: finite, an infinity, or NaN. *)
Inductive num :=
  | Fin (q : Qc)
  | PInf
  | NInf
  | NaN.

Global Instance num_eq_dec : EqDecision num.
Proof. solve_decision. Defined.

(** [a + b]. *)
Definition add (a b : num) : num :=
  match a, b with
  | NaN, _ | _, NaN => NaN
  | Fin x, Fin y => Fin (x + y)%Qc
  | PInf, NInf | NInf, PInf => NaN
  | PInf, _ | _, PInf => PInf
  | NInf, _ | _, NInf => NInf
  end.

(** [a - b]. *)
Definition sub (a b : num) : num :=
  match a, b with
  | NaN, _ | _, NaN => NaN
  | Fin x, Fin y => Fin (x - y)%Qc
  | PInf, PInf | NInf, NInf => NaN
  | PInf, _ | _, NInf => PInf
  | NInf, _ | _, PInf => NInf
  end.

(** [a / 2.0]. *)
Definition half (a : num) : num :=
  match a with
  | Fin x => Fin (x / Qc_of_Z 2)%Qc
  | other => other
  end.

(** [a < b]; every comparison with NaN is false. *)
Definition ltb (a b : num) : bool :=
  match a, b with
  | NaN, _ | _, NaN => false
  | Fin x, Fin y => bool_decide (x < y)%Qc
  | NInf, NInf | PInf, _ | _, NInf => false
  | NInf, _ | _, PInf => true
  end.

(** [a <= b]. *)
Definition leb (a b : num) : bool :=
  match a, b with
  | NaN, _ | _, NaN => false
  | Fin x, Fin y => bool_decide (x ≤ y)%Qc
  | NInf, _ | _, PInf => true
  | PInf, _ | _, NInf => false
  end.

Definition le (a b : num) : Prop := leb a b = true.

(** A Python integer next to a float in a comparison. *)
Definition of_int (z : Z) : num := Fin (Qc_of_Z z).

(** Python's two-argument [max(a, b)]: [b] when [b > a], otherwise [a]. *)
Definition py_max (a b : num) : num := if ltb a b then b else a.

Definition daily_gdd (tmax tmin tbase : num) : num :=
  let tmean := half (add tmax tmin) in
  py_max (sub tmean tbase) (Fin (Qc_of_Z 0)).

Record observation := Observation {
  obs_date : date;
  obs_tmax : num;
  obs_tmin : num
}.

Record gdd_record := GddRecord {
  rec_date : date;
  rec_tmax : num;
  rec_tmin : num;
  GDD_day : num;
  GDD_cum : num
}.

Record parameter_block := ParameterBlock {
  T2M_MAX : option (gmap Z num);
  T2M_MIN : option (gmap Z num)
}.

Record response_body := ResponseBody {
  parameter : option parameter_block
}.

Inductive reply :=
  | Response (status : Z) (body : response_body)
  | NetworkFailure.

Section Client.

Variable net : nat → request → reply.

Definition requests_get (req : request) : M reply := λ w,
  (inr (net (calls w) req),
   World (S (calls w)) (sent w ++ [req]) (geocoded w) (ui w)).

(** Lines 50 to 67, and the read of [data] at line 69. *)
Fixpoint retry_loop (n attempt max_retries : nat) (req : request)
  : M response_body :=
  match n with
  | O => raise UnboundLocalError
  | S n' =>
    r ← requests_get req;
    match r with
    | Response status body =>
      if raise_for_status status then
        if bool_decide (500 ≤ status < 600)
           && bool_decide (attempt < max_retries)%nat then
          emit (Warning_server_error status attempt max_retries);;
          retry_loop n' (S attempt) max_retries req
        else raise (HTTPError status)
      else mret body
    | NetworkFailure =>
      if bool_decide (attempt < max_retries)%nat then
        emit (Warning_network_error attempt max_retries);;
        retry_loop n' (S attempt) max_retries req
      else raise RequestException
    end
  end.

Definition sorted_keys (d : gmap Z num) : list Z :=
  merge_sort Z.le (elements (dom d)).

Fixpoint build_rows (tmax_dict tmin_dict : gmap Z num) (keys : list Z)
  : exn + list observation :=
  match keys with
  | [] => inr []
  | d :: keys' =>
    match tmax_dict !! d, tmin_dict !! d with
    | Some tx, Some tn =>
      match build_rows tmax_dict tmin_dict keys' with
      | inr rows => inr (Observation d tx tn :: rows)
      | inl e => inl e
      end
    | _, _ => inl KeyError
    end
  end.

Definition parse_body (data : response_body) : exn + list observation :=
  match parameter data with
  | None => inl KeyError
  | Some param_data =>
    match T2M_MAX param_data with
    | None => inl KeyError
    | Some tmax_dict =>
      match T2M_MIN param_data with
      | None => inl KeyError
      | Some tmin_dict =>
        build_rows tmax_dict tmin_dict (sorted_keys tmax_dict)
      end
    end
  end.

Definition get_power_daily_tmax_tmin (lat lon : Qc) (start_date end_date : date)
    (max_retries : nat) : M (list observation) :=
  data ← retry_loop max_retries 1 max_retries
           (Request lat lon start_date end_date);
  match parse_body data with
  | inr rows => mret rows
  | inl e => raise e
  end.

End Client.

Record sim_state := SimState {
  cum_gdd : num;
  stage_dates : gmap Z (option date);
  history_rows : list gdd_record;
  current_start : date
}.

(** Lines 137 to 139, with the test [cum_gdd >= thr]. *)
Definition mark_stage (cum : num) (date_d : date)
    (sd : gmap Z (option date)) (thr : Z) : gmap Z (option date) :=
  match sd !! thr with
  | Some None => if leb (of_int thr) cum then <[thr := Some date_d]> sd else sd
  | _ => sd
  end.

Definition mark_stages (targets : list Z) (cum : num) (date_d : date)
    (sd : gmap Z (option date)) : gmap Z (option date) :=
  foldl (mark_stage cum date_d) sd targets.

Definition process_row (tbase : num) (targets : list Z) (st : sim_state)
    (row : observation) : sim_state :=
  let date_d := obs_date row in
  let tmax := obs_tmax row in
  let tmin := obs_tmin row in
  let gdd_day := daily_gdd tmax tmin tbase in
  let cum := add (cum_gdd st) gdd_day in
  SimState cum
    (mark_stages targets cum date_d (stage_dates st))
    (history_rows st ++ [GddRecord date_d tmax tmin gdd_day cum])
    (current_start st).

(** Lines 119 to 139, with the test [cum_gdd >= highest_target]. *)
Fixpoint process_block (tbase : num) (targets : list Z) (highest_target : Z)
    (rows : list observation) (st : sim_state) : sim_state :=
  match rows with
  | [] => st
  | row :: rest =>
    if leb (of_int highest_target) (cum_gdd st) then st
    else process_block tbase targets highest_target rest
           (process_row tbase targets st row)
  end.

Section Engine.

Variable net : nat → request → reply.

(** Line 108, with the test [cum_gdd < highest_target]. *)
Definition loop_guard (highest_target : Z) (end_date_limit : date)
    (st : sim_state) : bool :=
  ltb (cum_gdd st) (of_int highest_target)
  && bool_decide (current_start st ≤ end_date_limit).

Inductive iteration :=
  | Continue (st : sim_state) (w : world)
  | Break (st : sim_state) (w : world).

Definition loop_body (lat lon : Qc) (tbase : num) (targets : list Z)
    (highest_target : Z) (end_date_limit : date) (block_days : Z)
    (st : sim_state) (w : world) : iteration :=
  let current_end :=
    Z.min (current_start st + (block_days - 1)) end_date_limit in
  let w1 := snd (emit (Write_fetching (current_start st) current_end) w) in
  match get_power_daily_tmax_tmin net lat lon (current_start st)
          current_end default_max_retries w1 with
  | (inl _, w2) =>
    let w3 := snd (emit (Error_stopped (current_start st) current_end) w2) in
    Break st (snd (emit Info_try_later w3))
  | (inr df_block, w2) =>
    let st' := process_block tbase targets highest_target df_block st in
    Continue
      (SimState (cum_gdd st') (stage_dates st') (history_rows st')
         (current_end + 1))
      w2
  end.

Fixpoint simulate_loop (fuel : nat) (lat lon : Qc) (tbase : num)
    (targets : list Z) (highest_target : Z) (end_date_limit : date)
    (block_days : Z) (st : sim_state) (w : world)
  : option (sim_state * world) :=
  if loop_guard highest_target end_date_limit st then
    match fuel with
    | O => None
    | S fuel' =>
      match loop_body lat lon tbase targets highest_target end_date_limit
              block_days st w with
      | Continue st' w' =>
        simulate_loop fuel' lat lon tbase targets highest_target
          end_date_limit block_days st' w'
      | Break st' w' => Some (st', w')
      end
    end
  else Some (st, w).

Definition sim_result : Type := list gdd_record * gmap Z (option date).

Definition simulate_gdd (fuel : nat) (lat lon : Qc) (start_date : date)
    (tbase : num) (targets : list Z) (max_days block_days : Z) (w : world)
  : option ((exn + sim_result) * world) :=
  let end_date_limit := start_date + max_days in
  match max_targets targets with
  | None => Some (inl ValueError, w)
  | Some highest_target =>
    match simulate_loop fuel lat lon tbase targets highest_target
            end_date_limit block_days
            (SimState (Fin (Qc_of_Z 0)) (init_stage_dates targets) []
               start_date) w
    with
    | Some (st, w') => Some (inr (history_rows st, stage_dates st), w')
    | None => None
    end
  end.

End Engine.

(** Every reply stays inside the requested range of dates. *)
Definition within_request (net : nat → request → reply) : Prop :=
  ∀ n req status body param_data tmax_dict d,
    net n req = Response status body →
    parameter body = Some param_data →
    T2M_MAX param_data = Some tmax_dict →
    d ∈ dom tmax_dict →
    req_start req ≤ d ≤ req_end req.

(** Every temperature of every reply is a finite number. *)
Definition finite_service (net : nat → request → reply) : Prop :=
  ∀ n req status body param_data,
    net n req = Response status body →
    parameter body = Some param_data →
    (∀ tmax_dict, T2M_MAX param_data = Some tmax_dict →
       map_Forall (λ _ v, ∃ q, v = Fin q) tmax_dict)
    ∧ (∀ tmin_dict, T2M_MIN param_data = Some tmin_dict →
         map_Forall (λ _ v, ∃ q, v = Fin q) tmin_dict).

End Fl.

(** *** Finite values inside [Fl] *)

Definition fin_observation (row : observation) : Fl.observation :=
  Fl.Observation (obs_date row) (Fl.Fin (obs_tmax row)) (Fl.Fin (obs_tmin row)).

Definition fin_record (r : gdd_record) : Fl.gdd_record :=
  Fl.GddRecord (rec_date r) (Fl.Fin (rec_tmax r)) (Fl.Fin (rec_tmin r))
    (Fl.Fin (GDD_day r)) (Fl.Fin (GDD_cum r)).

Definition fin_block (param_data : parameter_block) : Fl.parameter_block :=
  Fl.ParameterBlock
    ((λ m : gmap Z Qc, Fl.Fin <$> m) <$> T2M_MAX param_data)
    ((λ m : gmap Z Qc, Fl.Fin <$> m) <$> T2M_MIN param_data).

Definition fin_body (body : response_body) : Fl.response_body :=
  Fl.ResponseBody (fin_block <$> parameter body).

Definition fin_reply (r : reply) : Fl.reply :=
  match r with
  | Response status body => Fl.Response status (fin_body body)
  | NetworkFailure => Fl.NetworkFailure
  end.

Definition fin_net (net : nat → request → reply) : nat → request → Fl.reply :=
  λ n req, fin_reply (net n req).

Definition fin_state (st : sim_state) : Fl.sim_state :=
  Fl.SimState (Fl.Fin (cum_gdd st)) (stage_dates st)
    (fin_record <$> history_rows st) (current_start st).

(** The finite part of a float, zero for the others. *)
Definition finite_part (v : Fl.num) : Qc :=
  match v with
  | Fl.Fin q => q
  | _ => Qc_of_Z 0
  end.

Definition finite_block (param_data : Fl.parameter_block) : parameter_block :=
  ParameterBlock
    ((λ m : gmap Z Fl.num, finite_part <$> m) <$> Fl.T2M_MAX param_data)
    ((λ m : gmap Z Fl.num, finite_part <$> m) <$> Fl.T2M_MIN param_data).

Definition finite_reply (r : Fl.reply) : reply :=
  match r with
  | Fl.Response status body =>
    Response status (ResponseBody (finite_block <$> Fl.parameter body))
  | Fl.NetworkFailure => NetworkFailure
  end.

(** A body of three days whose second maximum is NaN. *)
Definition body_nan : Fl.response_body :=
  Fl.ResponseBody (Some (Fl.ParameterBlock
    (Some {[ 739252 := Fl.Fin (Qc_of_Z 30); 739253 := Fl.NaN;
             739254 := Fl.Fin (Qc_of_Z 30) ]})
    (Some {[ 739252 := Fl.Fin (Qc_of_Z 20); 739253 := Fl.Fin (Qc_of_Z 20);
             739254 := Fl.Fin (Qc_of_Z 20) ]}))).

(** A service that gives [body_nan] for a range holding its three days,
    and no data for any other range. *)
Definition net_nan (n : nat) (req : request) : Fl.reply :=
  if bool_decide (req_start req ≤ 739252 ∧ 739254 ≤ req_end req)
  then Fl.Response 200 body_nan
  else Fl.Response 200
         (Fl.ResponseBody (Some (Fl.ParameterBlock (Some ∅) (Some ∅)))).

(** ** The heat-unit function *)

Local Open Scope Qc_scope.

(** C2. [daily_gdd] is the maximum of the mean minus the base and zero: it
    is never negative, it is not below that difference, it equals the
    difference when the difference is non-negative and zero otherwise.  As
    a function of the embedding it is total and has no effect. *)
Theorem daily_gdd_is_clamped_difference (tmax tmin tbase : Qc) :
  let diff := (tmax + tmin) / Qc_of_Z 2 - tbase in
  Qc_of_Z 0 ≤ daily_gdd tmax tmin tbase
  ∧ diff ≤ daily_gdd tmax tmin tbase
  ∧ (daily_gdd tmax tmin tbase = diff ∨ daily_gdd tmax tmin tbase = Qc_of_Z 0)
  ∧ daily_gdd tmax tmin tbase
    = if decide (Qc_of_Z 0 ≤ diff) then diff else Qc_of_Z 0.
Proof.
  intros diff. unfold daily_gdd, py_max. fold diff.
  destruct (decide (diff < Qc_of_Z 0)) as [Hlt|Hge].
  - repeat split.
    + apply Qcle_refl.
    + by apply Qclt_le_weak.
    + by right.
    + rewrite decide_False; [done|]. by apply Qclt_not_le.
  - apply Qcnot_lt_le in Hge. repeat split.
    + done.
    + apply Qcle_refl.
    + by left.
    + by rewrite decide_True.
Qed.

Lemma daily_gdd_nonneg (tmax tmin tbase : Qc) :
  Qc_of_Z 0 ≤ daily_gdd tmax tmin tbase.
Proof.
  unfold daily_gdd, py_max. case_decide as H.
  - apply Qcle_refl.
  - by apply Qcnot_lt_le.
Qed.

Local Close Scope Qc_scope.

(** ** The retry loop of the block fetch *)

Section RetryFacts.

Variable net : nat → request → reply.

Lemma retry_loop_transient n attempt max_retries req w :
  transient (net (calls w) req) = true →
  (attempt < max_retries)%nat →
  ∃ msg, retry_loop net (S n) attempt max_retries req w
         = retry_loop net n (S attempt) max_retries req (attempted req [msg] w).
Proof.
  intros Htr Hlt. cbn [retry_loop]. unfold mbind, M_bind, requests_get.
  destruct (net (calls w) req) as [status body|] eqn:Hr; simpl in Htr.
  - apply bool_decide_eq_true in Htr.
    unfold raise_for_status.
    rewrite (bool_decide_eq_true_2 (400 ≤ status < 600)) by lia.
    rewrite (bool_decide_eq_true_2 (500 ≤ status < 600)) by lia.
    rewrite (bool_decide_eq_true_2 (attempt < max_retries)%nat) by lia.
    by eexists.
  - rewrite (bool_decide_eq_true_2 (attempt < max_retries)%nat) by lia.
    by eexists.
Qed.

Lemma retry_loop_last n attempt max_retries req w :
  transient (net (calls w) req) = true →
  ¬ (attempt < max_retries)%nat →
  retry_loop net (S n) attempt max_retries req w
  = (inl (reply_error (net (calls w) req)), attempted req [] w).
Proof.
  intros Htr Hge. cbn [retry_loop]. unfold mbind, M_bind, requests_get.
  destruct (net (calls w) req) as [status body|] eqn:Hr; simpl in Htr.
  - apply bool_decide_eq_true in Htr.
    unfold raise_for_status.
    rewrite (bool_decide_eq_true_2 (400 ≤ status < 600)) by lia.
    rewrite (bool_decide_eq_false_2 (attempt < max_retries)%nat) by done.
    rewrite andb_false_r. unfold raise, attempted. simpl.
    by rewrite app_nil_r.
  - rewrite (bool_decide_eq_false_2 (attempt < max_retries)%nat) by done.
    unfold raise, attempted. simpl. by rewrite app_nil_r.
Qed.

Lemma retry_loop_success n attempt max_retries req w status body :
  net (calls w) req = Response status body →
  ¬ 400 ≤ status < 600 →
  retry_loop net (S n) attempt max_retries req w
  = (inr body, attempted req [] w).
Proof.
  intros Hr Hok. cbn [retry_loop]. unfold mbind, M_bind, requests_get.
  rewrite Hr. unfold raise_for_status.
  rewrite (bool_decide_eq_false_2 (400 ≤ status < 600)) by done.
  unfold mret, M_ret, attempted. simpl. by rewrite app_nil_r.
Qed.

Lemma retry_loop_client_error n attempt max_retries req w status body :
  net (calls w) req = Response status body →
  400 ≤ status < 500 →
  retry_loop net (S n) attempt max_retries req w
  = (inl (HTTPError status), attempted req [] w).
Proof.
  intros Hr Hok. cbn [retry_loop]. unfold mbind, M_bind, requests_get.
  rewrite Hr. unfold raise_for_status.
  rewrite (bool_decide_eq_true_2 (400 ≤ status < 600)) by lia.
  rewrite (bool_decide_eq_false_2 (500 ≤ status < 600)) by lia.
  unfold raise, attempted. simpl. by rewrite app_nil_r.
Qed.

(** [j] transient replies in a row, with attempts to spare, are all
    retried. *)
Lemma retry_loop_skip j : ∀ n attempt max_retries req w,
  (∀ i, (i < j)%nat → transient (net (calls w + i)%nat req) = true) →
  (attempt + j ≤ max_retries)%nat →
  ∃ w', retry_loop net (j + n) attempt max_retries req w
        = retry_loop net n (attempt + j) max_retries req w'
        ∧ calls w' = (calls w + j)%nat
        ∧ sent w' = sent w ++ replicate j req
        ∧ geocoded w' = geocoded w.
Proof.
  induction j as [|j IH]; intros n attempt max_retries req w Htr Hle.
  - exists w. rewrite !Nat.add_0_r, app_nil_r. done.
  - destruct (retry_loop_transient (j + n) attempt max_retries req w)
      as [msg Hstep].
    { specialize (Htr O). rewrite Nat.add_0_r in Htr. apply Htr. lia. }
    { lia. }
    destruct (IH n (S attempt) max_retries req (attempted req [msg] w))
      as (w' & Hrun & Hcalls & Hsent & Hgeo).
    { intros i Hi. simpl. specialize (Htr (S i)).
      replace (S (calls w + i)) with (calls w + S i)%nat by lia.
      apply Htr. lia. }
    { lia. }
    exists w'. simpl in *. rewrite Hstep, Hrun.
    replace (attempt + S j)%nat with (S (attempt + j)) by lia.
    repeat split; [lia| |done].
    by rewrite Hsent, <-app_assoc.
Qed.

(** A fetch that returns rows got them from some reply of the service
    that carried no error status. *)
Lemma retry_loop_returns n : ∀ attempt max_retries req w body w',
  retry_loop net n attempt max_retries req w = (inr body, w') →
  ∃ i status, net i req = Response status body.
Proof.
  induction n as [|n IH]; intros attempt max_retries req w body w' Hrun.
  - discriminate.
  - cbn [retry_loop] in Hrun. unfold mbind, M_bind, requests_get in Hrun.
    destruct (net (calls w) req) as [status body0|] eqn:Hr.
    + destruct (raise_for_status status).
      * destruct (_ && _); [|discriminate].
        simpl in Hrun. by eapply IH.
      * unfold mret, M_ret in Hrun. simplify_eq. eauto.
    + destruct (bool_decide _); [|discriminate].
      simpl in Hrun. by eapply IH.
Qed.

End RetryFacts.

(** C6. With [N] attempts allowed, let the first [k - 1] replies be
    transient and call the [k]-th reply decisive.  Then exactly [k]
    requests are made, and: a decisive reply without error status makes
    the fetch return what its body parses to; when [k = N] and the
    decisive reply is transient too, the fetch raises the error of that
    last reply; a decisive 4xx reply raises [HTTPError] at once. *)
Theorem fetch_retry_policy (net : nat → request → reply) (lat lon : Qc)
    (start_date end_date : date) (N k : nat) (w : world) :
  let req := Request lat lon start_date end_date in
  let decisive := net (calls w + (k - 1))%nat req in
  let fetch := get_power_daily_tmax_tmin net lat lon start_date end_date N w in
  (1 ≤ k ≤ N)%nat →
  (∀ i, (i < k - 1)%nat → transient (net (calls w + i)%nat req) = true) →
  ∃ w', calls w' = (calls w + k)%nat
      ∧ sent w' = sent w ++ replicate k req
      ∧ (∀ status body, decisive = Response status body →
           ¬ 400 ≤ status < 600 → fetch = (parse_body body, w'))
      ∧ (k = N → transient decisive = true →
           fetch = (inl (reply_error decisive), w'))
      ∧ (∀ status body, decisive = Response status body →
           400 ≤ status < 500 → fetch = (inl (HTTPError status), w')).
Proof.
  intros req decisive fetch Hk Htr.
  destruct (retry_loop_skip net (k - 1) (S (N - k)) 1 N req w Htr)
    as (w1 & Hrun & Hcalls & Hsent & Hgeo); [lia|].
  replace (k - 1 + S (N - k))%nat with N in Hrun by lia.
  replace (1 + (k - 1))%nat with k in Hrun by lia.
  assert (Hdec : decisive = net (calls w1) req).
  { unfold decisive. by rewrite Hcalls. }
  exists (attempted req [] w1). simpl.
  split; [lia|]. split.
  { rewrite Hsent, <-app_assoc. f_equal.
    replace k with (k - 1 + 1)%nat at 2 by lia.
    by rewrite replicate_add. }
  unfold fetch, get_power_daily_tmax_tmin, mbind, M_bind. fold req.
  rewrite Hrun. repeat split.
  - intros status body Hr Hok. rewrite Hdec in Hr.
    rewrite (retry_loop_success net _ _ _ _ _ _ _ Hr Hok).
    by destruct (parse_body body).
  - intros -> Htrd. rewrite Hdec in Htrd.
    rewrite (retry_loop_last net _ _ _ _ _ Htrd) by lia.
    by rewrite Hdec.
  - intros status body Hr Hcl. rewrite Hdec in Hr.
    by rewrite (retry_loop_client_error net _ _ _ _ _ _ _ Hr Hcl).
Qed.

(** The three cases of C6 on concrete services: two 503 replies and then
    data; an unreachable service; a 404 reply. *)
Lemma fetch_retry_policy_witness :
  (∃ w', calls w' = 3%nat
       ∧ get_power_daily_tmax_tmin net_flaky (Qc_of_Z 13) (Qc_of_Z 80) 1 2 3
           world0
         = (inr [Observation 1 (Qc_of_Z 30) (Qc_of_Z 20);
                 Observation 2 (Qc_of_Z 30) (Qc_of_Z 20)], w'))
  ∧ (∃ w', calls w' = 3%nat
         ∧ get_power_daily_tmax_tmin net_down (Qc_of_Z 13) (Qc_of_Z 80) 1 2 3
             world0
           = (inl RequestException, w'))
  ∧ (∃ w', calls w' = 1%nat
         ∧ get_power_daily_tmax_tmin net_404 (Qc_of_Z 13) (Qc_of_Z 80) 1 2 3
             world0
           = (inl (HTTPError 404), w')).
Proof.
  split; [|split].
  - destruct (fetch_retry_policy net_flaky (Qc_of_Z 13) (Qc_of_Z 80) 1 2 3 3
                world0) as (w' & Hcalls & _ & Hok & _ & _).
    + lia.
    + intros i Hi. simpl in *.
      destruct i as [|[|i]]; [reflexivity|reflexivity|lia].
    + exists w'. split; [exact Hcalls|].
      rewrite (Hok 200 (body_of [(1, 30, 20); (2, 30, 20)])).
      * f_equal.
      * reflexivity.
      * lia.
  - destruct (fetch_retry_policy net_down (Qc_of_Z 13) (Qc_of_Z 80) 1 2 3 3
                world0) as (w' & Hcalls & _ & _ & Hall & _).
    + lia.
    + intros i Hi. reflexivity.
    + exists w'. split; [exact Hcalls|]. by apply Hall.
  - destruct (fetch_retry_policy net_404 (Qc_of_Z 13) (Qc_of_Z 80) 1 2 3 1
                world0) as (w' & Hcalls & _ & _ & _ & Hcl).
    + lia.
    + intros i Hi. lia.
    + exists w'. split; [exact Hcalls|].
      apply (Hcl 404 (ResponseBody None)); [reflexivity|lia].
Defined.

(** ** Parsing a response *)

Lemma StronglySorted_le_lt (l : list Z) :
  StronglySorted Z.le l → NoDup l → StronglySorted Z.lt l.
Proof.
  induction 1 as [|x l Hl IH Hx]; intros Hnd; [constructor|].
  apply list.NoDup_cons in Hnd as [Hnotin Hnd].
  constructor; [by apply IH|].
  rewrite list.Forall_forall in Hx |- *. intros y Hy.
  specialize (Hx y Hy). assert (x ≠ y) by (intros ->; contradiction). lia.
Qed.

Lemma elem_of_sorted_keys (m : gmap Z Qc) (d : Z) :
  d ∈ sorted_keys m ↔ d ∈ dom m.
Proof.
  unfold sorted_keys. rewrite merge_sort_Permutation. apply elem_of_elements.
Qed.

Lemma sorted_keys_ascending (m : gmap Z Qc) :
  StronglySorted Z.lt (sorted_keys m).
Proof.
  apply StronglySorted_le_lt.
  - apply StronglySorted_merge_sort; apply _.
  - unfold sorted_keys. rewrite merge_sort_Permutation. apply NoDup_elements.
Qed.

Lemma build_rows_complete (tmax_dict tmin_dict : gmap Z Qc) (keys : list Z) :
  (∀ d, d ∈ keys → d ∈ dom tmax_dict ∧ d ∈ dom tmin_dict) →
  ∃ rows, build_rows tmax_dict tmin_dict keys = inr rows
        ∧ obs_date <$> rows = keys
        ∧ Forall (λ row, tmax_dict !! obs_date row = Some (obs_tmax row)
                         ∧ tmin_dict !! obs_date row = Some (obs_tmin row))
            rows.
Proof.
  induction keys as [|d keys IH]; intros Hin.
  - exists []. by repeat split.
  - destruct IH as (rows & Hrows & Hdates & Hvals).
    { intros d' Hd'. apply Hin. by right. }
    destruct (Hin d) as [Hx Hn]; [by left|].
    apply elem_of_dom in Hx as [tx Hx]. apply elem_of_dom in Hn as [tn Hn].
    exists (Observation d tx tn :: rows). cbn [build_rows].
    rewrite Hx, Hn, Hrows. split; [done|].
    split; [by rewrite fmap_cons, Hdates|]. by constructor.
Qed.

Lemma build_rows_missing (tmax_dict tmin_dict : gmap Z Qc) (keys : list Z) (d : Z) :
  d ∈ keys → d ∉ dom tmin_dict →
  build_rows tmax_dict tmin_dict keys = inl KeyError.
Proof.
  intros Hd Hmiss. apply not_elem_of_dom in Hmiss.
  induction keys as [|d' keys IH]; [by apply elem_of_nil in Hd|].
  simpl. apply elem_of_cons in Hd as [<-|Hd].
  - rewrite Hmiss. by destruct (tmax_dict !! d).
  - rewrite (IH Hd).
    by destruct (tmax_dict !! d'), (tmin_dict !! d').
Qed.

(** C7, as the code has it.  When every date key of [T2M_MAX] is also a key
    of [T2M_MIN], the parse yields exactly one row per date key present
    for both variables, in ascending order of date and with the two values
    of that date, whatever range was requested; when some key of
    [T2M_MAX] is missing from [T2M_MIN] it raises [KeyError]. *)
Theorem parse_body_one_row_per_common_key (tmax_dict tmin_dict : gmap Z Qc) :
  let body :=
    ResponseBody (Some (ParameterBlock (Some tmax_dict) (Some tmin_dict))) in
  (dom tmax_dict ⊆ dom tmin_dict →
   ∃ rows, parse_body body = inr rows
         ∧ StronglySorted Z.lt (obs_date <$> rows)
         ∧ (∀ d, d ∈ obs_date <$> rows ↔ d ∈ dom tmax_dict ∩ dom tmin_dict)
         ∧ Forall (λ row, tmax_dict !! obs_date row = Some (obs_tmax row)
                          ∧ tmin_dict !! obs_date row = Some (obs_tmin row))
             rows)
  ∧ (¬ dom tmax_dict ⊆ dom tmin_dict → parse_body body = inl KeyError).
Proof.
  intros body. unfold parse_body. simpl. split.
  - intros Hsub.
    destruct (build_rows_complete tmax_dict tmin_dict (sorted_keys tmax_dict))
      as (rows & Hrows & Hdates & Hvals).
    { intros d Hd. apply elem_of_sorted_keys in Hd. set_solver. }
    exists rows. rewrite Hdates. repeat split; try done.
    + apply sorted_keys_ascending.
    + rewrite elem_of_sorted_keys. intros Hd.
      apply elem_of_intersection. split; [done|by apply Hsub].
    + rewrite elem_of_sorted_keys. intros Hd.
      by apply elem_of_intersection in Hd as [? _].
  - intros Hnsub.
    assert (∃ d, d ∈ dom tmax_dict ∧ d ∉ dom tmin_dict) as (d & Hd & Hmiss).
    { apply dec_stable. intros Hno. apply Hnsub. intros d Hd.
      apply dec_stable. intros Hmiss. apply Hno. eauto. }
    apply build_rows_missing with d; [|done].
    by apply elem_of_sorted_keys.
Qed.

(** The two halves of the statement on concrete bodies: a sparse but
    matching body, and a body whose second day lacks its minimum. *)
Lemma parse_body_one_row_per_common_key_witness :
  (∃ rows, parse_body (body_of [(3, 30, 20); (1, 28, 18)]) = inr rows
         ∧ obs_date <$> rows = [1; 3])
  ∧ parse_body body_ragged = inl KeyError.
Proof.
  split.
  - destruct (parse_body_one_row_per_common_key
                {[ 3 := Qc_of_Z 30; 1 := Qc_of_Z 28 ]}
                {[ 3 := Qc_of_Z 20; 1 := Qc_of_Z 18 ]})
      as [Hok _].
    destruct Hok as (rows & Hrows & _); [set_solver|].
    exists rows. split; [exact Hrows|].
    vm_compute in Hrows. injection Hrows as <-. reflexivity.
  - apply (parse_body_one_row_per_common_key
             {[ 1 := Qc_of_Z 30; 2 := Qc_of_Z 31 ]} {[ 1 := Qc_of_Z 20 ]}).
    intros Hsub. set_solver.
Defined.

(** C7 as stated fails: in [body_ragged] the date 1 is present for both
    variables, yet no observation is produced and the parse raises. *)
Lemma parse_body_ragged_raises :
  (1 ∈ dom ({[ 1 := Qc_of_Z 30; 2 := Qc_of_Z 31 ]} : gmap Z Qc)
       ∩ dom ({[ 1 := Qc_of_Z 20 ]} : gmap Z Qc))
  ∧ parse_body body_ragged = inl KeyError
  ∧ ¬ ∃ rows, parse_body body_ragged = inr rows.
Proof.
  split; [set_solver|]. split; [reflexivity|].
  intros [rows Hrows]. discriminate Hrows.
Qed.

(** ** Threshold bookkeeping *)

Lemma init_stage_dates_lookup (targets : list Z) (thr : Z) :
  init_stage_dates targets !! thr
  = if decide (thr ∈ targets) then Some None else None.
Proof.
  unfold init_stage_dates. induction targets as [|t targets IH].
  - rewrite fmap_nil, list_to_map_nil, lookup_empty.
    case_decide as Hin; [by apply elem_of_nil in Hin|done].
  - rewrite fmap_cons, list_to_map_cons.
    destruct (decide (t = thr)) as [->|Hne].
    + rewrite lookup_insert_eq. by rewrite decide_True by left.
    + rewrite lookup_insert_ne by done. rewrite IH.
      destruct (decide (thr ∈ targets)) as [Hin|Hnin].
      * by rewrite decide_True by (by right).
      * rewrite decide_False; [done|].
        intros [->|Hin]%elem_of_cons; done.
Qed.

Lemma mark_stage_lookup cum date_d (sd : gmap Z (option date)) (thr thr' : Z) :
  mark_stage cum date_d sd thr !! thr'
  = if decide (thr = thr') then
      match sd !! thr with
      | Some None =>
        if decide (Qc_of_Z thr ≤ cum)%Qc then Some (Some date_d) else Some None
      | other => other
      end
    else sd !! thr'.
Proof.
  unfold mark_stage. destruct (decide (thr = thr')) as [<-|Hne].
  - destruct (sd !! thr) as [[d|]|] eqn:Hsd; try done.
    case_decide; [by rewrite lookup_insert_eq|done].
  - destruct (sd !! thr) as [[d|]|] eqn:Hsd; try done.
    case_decide; [by rewrite lookup_insert_ne|done].
Qed.

(** What one pass over the targets does to one key. *)
Lemma mark_stages_lookup (targets : list Z) cum date_d :
  ∀ (sd : gmap Z (option date)) (thr : Z),
  mark_stages targets cum date_d sd !! thr
  = if decide (thr ∈ targets) then
      match sd !! thr with
      | Some None =>
        if decide (Qc_of_Z thr ≤ cum)%Qc then Some (Some date_d) else Some None
      | other => other
      end
    else sd !! thr.
Proof.
  unfold mark_stages.
  induction targets as [|t targets IH]; intros sd thr.
  - cbn [foldl]. case_decide as Hin; [by apply elem_of_nil in Hin|done].
  - cbn [foldl]. rewrite IH, !mark_stage_lookup.
    destruct (decide (t = thr)) as [->|Hne].
    + rewrite (decide_True (P := thr ∈ thr :: targets)) by left.
      destruct (decide (thr ∈ targets)); [|done].
      destruct (sd !! thr) as [[d|]|]; try done.
      by case_decide.
    + destruct (decide (thr ∈ targets)) as [Hin|Hnin].
      * by rewrite (decide_True (P := thr ∈ t :: targets)) by (by right).
      * rewrite (decide_False (P := thr ∈ t :: targets)); [done|].
        intros [->|Hin]%elem_of_cons; done.
Qed.

Lemma first_crossing_snoc (thr : Z) (history : list gdd_record) (r : gdd_record) :
  first_crossing thr (history ++ [r])
  = match first_crossing thr history with
    | Some d => Some d
    | None =>
      if decide (Qc_of_Z thr ≤ GDD_cum r)%Qc then Some (rec_date r) else None
    end.
Proof.
  induction history as [|r' history IH]; simpl; [done|].
  by destruct (decide (Qc_of_Z thr ≤ GDD_cum r')%Qc).
Qed.

Lemma stage_ok_initial (targets : list Z) (start_date : date) :
  stage_ok targets (initial_state targets start_date).
Proof. intros thr. simpl. apply init_stage_dates_lookup. Qed.

Lemma stage_ok_process_row tbase targets st row :
  stage_ok targets st → stage_ok targets (process_row tbase targets st row).
Proof.
  intros Hok thr. unfold process_row. simpl.
  rewrite mark_stages_lookup, first_crossing_snoc, (Hok thr). simpl.
  destruct (decide (thr ∈ targets)); [|done].
  destruct (first_crossing thr (history_rows st)); [done|].
  by case_decide.
Qed.

Lemma stage_ok_process_block tbase targets highest_target rows : ∀ st,
  stage_ok targets st →
  stage_ok targets (process_block tbase targets highest_target rows st).
Proof.
  induction rows as [|row rows IH]; intros st Hok; simpl; [done|].
  case_decide; [done|]. by apply IH, stage_ok_process_row.
Qed.

(** A date once written is kept by every later row. *)
Lemma process_row_keeps_stage tbase targets st row thr d :
  stage_dates st !! thr = Some (Some d) →
  stage_dates (process_row tbase targets st row) !! thr = Some (Some d).
Proof.
  intros Hset. unfold process_row. simpl.
  rewrite mark_stages_lookup, Hset. by case_decide.
Qed.

Lemma process_block_keeps_stage tbase targets highest_target rows thr d : ∀ st,
  stage_dates st !! thr = Some (Some d) →
  stage_dates (process_block tbase targets highest_target rows st) !! thr
  = Some (Some d).
Proof.
  induction rows as [|row rows IH]; intros st Hset; simpl; [done|].
  case_decide; [done|]. by apply IH, process_row_keeps_stage.
Qed.

(** ** Cumulative GDD along the history *)

Lemma Qc_of_Z_0 : Qc_of_Z 0 = 0%Qc.
Proof. by apply Qc_is_canon. Qed.

Lemma cum_le_add_daily_gdd (cum tmax tmin tbase : Qc) :
  (cum ≤ cum + daily_gdd tmax tmin tbase)%Qc.
Proof.
  pose proof (daily_gdd_nonneg tmax tmin tbase) as Hg.
  rewrite Qc_of_Z_0 in Hg.
  apply (Qcplus_le_mono_l _ _ cum) in Hg. by rewrite Qcplus_0_r in Hg.
Qed.

Lemma cum_ok_initial highest_target targets start_date :
  cum_ok highest_target (initial_state targets start_date).
Proof.
  repeat split; simpl; [constructor|constructor|].
  intros h r Heq. by destruct h.
Qed.

Lemma cum_ok_process_row tbase targets highest_target st row :
  (cum_gdd st < Qc_of_Z highest_target)%Qc →
  cum_ok highest_target st →
  cum_ok highest_target (process_row tbase targets st row).
Proof.
  intros Hlt (Hle & Hsorted & Hbelow). unfold cum_ok, process_row. simpl.
  pose proof (cum_le_add_daily_gdd (cum_gdd st) (obs_tmax row) (obs_tmin row)
                tbase) as Hstep.
  repeat split.
  - apply Forall_app. split.
    + eapply list.Forall_impl; [exact Hle|]. simpl. intros r Hr.
      by eapply Qcle_trans.
    + constructor; [apply Qcle_refl|constructor].
  - rewrite fmap_app. apply StronglySorted_app_2.
    + intros x1 x2 Hx1 Hx2. apply list_elem_of_fmap in Hx1 as (r & -> & Hr).
      apply list_elem_of_singleton in Hx2 as ->.
      rewrite list.Forall_forall in Hle. eapply Qcle_trans; [by apply Hle|done].
    + done.
    + repeat constructor.
  - intros h r Heq. apply app_inj_tail in Heq as [<- _].
    eapply list.Forall_impl; [exact Hle|]. simpl. intros r' Hr'.
    by eapply Qcle_lt_trans.
Qed.

Lemma cum_ok_process_block tbase targets highest_target rows : ∀ st,
  cum_ok highest_target st →
  cum_ok highest_target (process_block tbase targets highest_target rows st).
Proof.
  induction rows as [|row rows IH]; intros st Hok; simpl; [done|].
  case_decide as Hreached; [done|].
  apply IH, cum_ok_process_row; [|done]. by apply Qcnot_le_lt.
Qed.

(** ** Dates along the history *)

Lemma process_block_current_start tbase targets highest_target rows : ∀ st,
  current_start (process_block tbase targets highest_target rows st)
  = current_start st.
Proof.
  induction rows as [|row rows IH]; intros st; simpl; [done|].
  case_decide; [done|]. by rewrite IH.
Qed.

(** A block of strictly ascending dates between [lo] and [hi], appended to
    a history of strictly ascending dates before [lo], gives strictly
    ascending dates up to [hi]. *)
Lemma process_block_dates tbase targets highest_target hi rows : ∀ lo st,
  StronglySorted Z.lt (rec_date <$> history_rows st) →
  Forall (λ r, rec_date r < lo) (history_rows st) →
  StronglySorted Z.lt (obs_date <$> rows) →
  Forall (λ row, lo ≤ obs_date row ≤ hi) rows →
  lo ≤ hi + 1 →
  let st' := process_block tbase targets highest_target rows st in
  StronglySorted Z.lt (rec_date <$> history_rows st')
  ∧ Forall (λ r, rec_date r < hi + 1) (history_rows st').
Proof.
  induction rows as [|row rows IH]; intros lo st Hsorted Hbefore Hrows Hrange Hlo.
  - simpl. split; [done|].
    eapply list.Forall_impl; [exact Hbefore|]. simpl. intros r Hr. lia.
  - cbn [process_block]. case_decide as Hreached.
    { split; [done|]. eapply list.Forall_impl; [exact Hbefore|]. simpl. intros r Hr. lia. }
    rewrite fmap_cons in Hrows. apply StronglySorted_cons in Hrows as [Hhd Hrows].
    apply list.Forall_cons in Hrange as [Hrow Hrange].
    apply (IH (obs_date row + 1)); simpl.
    + rewrite fmap_app. apply StronglySorted_app_2; [|done|repeat constructor].
      intros x1 x2 Hx1 Hx2. apply list_elem_of_fmap in Hx1 as (r & -> & Hr).
      apply list_elem_of_singleton in Hx2 as ->.
      rewrite list.Forall_forall in Hbefore. specialize (Hbefore r Hr).
      simpl. lia.
    + apply Forall_app. split.
      * eapply list.Forall_impl; [exact Hbefore|]. simpl. intros r Hr. lia.
      * constructor; [simpl; lia|constructor].
    + done.
    + apply list.Forall_forall. intros row' Hrow'.
      pose proof (proj1 (list.Forall_forall _ _) Hrange row' Hrow') as Hin.
      pose proof (proj1 (list.Forall_forall _ _) Hhd (obs_date row')
                    (list_elem_of_fmap_2 _ _ _ Hrow')) as Hgt.
      simpl in *. lia.
    + lia.
Qed.

(** ** What a fetch can return *)

Lemma build_rows_dates (tmax_dict tmin_dict : gmap Z Qc) (keys : list Z) :
  ∀ rows, build_rows tmax_dict tmin_dict keys = inr rows →
          obs_date <$> rows = keys.
Proof.
  induction keys as [|d keys IH]; intros rows Hrows; simpl in Hrows.
  - by simplify_eq.
  - destruct (tmax_dict !! d), (tmin_dict !! d); try discriminate.
    destruct (build_rows tmax_dict tmin_dict keys) as [e|rows']; [discriminate|].
    simplify_eq. rewrite fmap_cons. simpl. f_equal. by apply IH.
Qed.

(** Rows come out in strictly ascending order of date, and inside the
    requested range when the service keeps to it. *)
Lemma fetch_rows_ascending net lat lon start_date end_date max_retries w rows w' :
  get_power_daily_tmax_tmin net lat lon start_date end_date max_retries w
  = (inr rows, w') →
  StronglySorted Z.lt (obs_date <$> rows)
  ∧ (within_request net →
     Forall (λ row, start_date ≤ obs_date row ≤ end_date) rows).
Proof.
  unfold get_power_daily_tmax_tmin, mbind, M_bind. intros Hfetch.
  destruct (retry_loop net max_retries 1 max_retries
              (Request lat lon start_date end_date) w)
    as [[e|body] w1] eqn:Hretry; [discriminate|].
  apply retry_loop_returns in Hretry as (i & status & Hreply).
  unfold parse_body in Hfetch.
  destruct (parameter body) as [param_data|] eqn:Hparam; [|discriminate].
  destruct (T2M_MAX param_data) as [tmax_dict|] eqn:Hmax; [|discriminate].
  destruct (T2M_MIN param_data) as [tmin_dict|] eqn:Hmin; [|discriminate].
  destruct (build_rows tmax_dict tmin_dict (sorted_keys tmax_dict))
    as [e|rows0] eqn:Hrows; [discriminate|].
  unfold mret, M_ret in Hfetch. simplify_eq.
  apply build_rows_dates in Hrows. split.
  - rewrite Hrows. apply sorted_keys_ascending.
  - intros Hnet. apply list.Forall_forall. intros row Hrow.
    apply (Hnet i _ status body param_data tmax_dict (obs_date row)
             Hreply Hparam Hmax).
    apply elem_of_sorted_keys. rewrite <-Hrows.
    by apply list_elem_of_fmap_2.
Qed.

(** ** The loop *)

Section LoopFacts.

Variable net : nat → request → reply.
Variables lat lon tbase : Qc.
Variable targets : list Z.
Variable highest_target : Z.
Variable end_date_limit : date.
Variable block_days : Z.

Local Abbreviation body :=
  (loop_body net lat lon tbase targets highest_target end_date_limit block_days).
Local Abbreviation loop fuel :=
  (simulate_loop net fuel lat lon tbase targets highest_target end_date_limit
     block_days).
Local Abbreviation blocks n :=
  (run_blocks net n lat lon tbase targets highest_target end_date_limit
     block_days).
Local Abbreviation guard := (loop_guard highest_target end_date_limit).
Local Abbreviation block_end st :=
  (Z.min (current_start st + (block_days - 1)) end_date_limit).
Local Abbreviation fetch st w :=
  (get_power_daily_tmax_tmin net lat lon (current_start st) (block_end st)
     default_max_retries
     (snd (emit (Write_fetching (current_start st) (block_end st)) w))).

Lemma loop_body_continue st w st' w' :
  body st w = Continue st' w' →
  ∃ rows, fetch st w = (inr rows, w')
        ∧ history_rows st'
          = history_rows (process_block tbase targets highest_target rows st)
        ∧ stage_dates st'
          = stage_dates (process_block tbase targets highest_target rows st)
        ∧ cum_gdd st'
          = cum_gdd (process_block tbase targets highest_target rows st)
        ∧ current_start st' = block_end st + 1.
Proof.
  unfold loop_body. intros Hbody.
  destruct (fetch st w) as [[e|rows] w2]; [discriminate|].
  simplify_eq. by exists rows.
Qed.

Lemma loop_body_break st w st' w' :
  body st w = Break st' w' →
  st' = st
  ∧ ∃ e w2, fetch st w = (inl e, w2)
          ∧ calls w' = calls w2 ∧ sent w' = sent w2
          ∧ ui w' = ui w2 ++ [Error_stopped (current_start st) (block_end st);
                              Info_try_later].
Proof.
  unfold loop_body. intros Hbody.
  destruct (fetch st w) as [[e|rows] w2]; [|discriminate].
  simplify_eq. split; [done|]. exists e, w2. simpl.
  by rewrite <-app_assoc.
Qed.

(** A property of the loop variables that every completed iteration keeps
    holds of the variables on exit. *)
Lemma simulate_loop_invariant (P : sim_state → Prop) :
  (∀ st w st' w', guard st = true → P st → body st w = Continue st' w' → P st') →
  ∀ fuel st w st' w', P st → loop fuel st w = Some (st', w') → P st'.
Proof.
  intros Hstep fuel.
  induction fuel as [|fuel IH]; intros st w st' w' HP Hrun; simpl in Hrun.
  - destruct (guard st); [discriminate|]. by simplify_eq.
  - destruct (guard st) eqn:Hguard; [|by simplify_eq].
    destruct (body st w) as [st1 w1|st1 w1] eqn:Hbody.
    + eapply IH; [|exact Hrun]. by eapply Hstep.
    + apply loop_body_break in Hbody as [-> _]. by simplify_eq.
Qed.

Lemma guard_true st :
  guard st = true →
  (cum_gdd st < Qc_of_Z highest_target)%Qc ∧ current_start st ≤ end_date_limit.
Proof.
  unfold loop_guard. intros [H1 H2]%andb_true_iff.
  by apply bool_decide_eq_true in H1, H2.
Qed.

(** With blocks of at least one day, each iteration moves the start of the
    next block forward, so the days left up to the limit bound the number
    of iterations. *)
Lemma simulate_loop_terminates fuel : ∀ st w,
  1 ≤ block_days →
  (Z.to_nat (end_date_limit - current_start st + 1) ≤ fuel)%nat →
  is_Some (loop fuel st w).
Proof.
  induction fuel as [|fuel IH]; intros st w Hbd Hfuel; simpl.
  - destruct (guard st) eqn:Hguard; [|done].
    apply guard_true in Hguard as [_ Hcs]. lia.
  - destruct (guard st) eqn:Hguard; [|done].
    apply guard_true in Hguard as [_ Hcs].
    destruct (body st w) as [st1 w1|st1 w1] eqn:Hbody; [|done].
    apply loop_body_continue in Hbody as (rows & _ & _ & _ & _ & Hnext).
    apply IH; [done|]. rewrite Hnext. lia.
Qed.

(** Iterations that complete can be peeled off the front of a run. *)
Lemma simulate_loop_run_blocks n : ∀ fuel st w st' w',
  blocks n st w = Some (st', w') →
  loop (n + fuel) st w = loop fuel st' w'.
Proof.
  induction n as [|n IH]; intros fuel st w st' w' Hn; simpl in Hn.
  - by simplify_eq.
  - destruct (guard st) eqn:Hguard; [|discriminate].
    destruct (body st w) as [st1 w1|st1 w1] eqn:Hbody; [|discriminate].
    simpl. rewrite Hguard, Hbody. by apply IH.
Qed.

Lemma dates_ok_step st w st' w' :
  within_request net →
  guard st = true → dates_ok block_days st → body st w = Continue st' w' →
  dates_ok block_days st'.
Proof.
  intros Hnet Hguard (Hsorted & Hbefore & Hnone) Hbody.
  apply guard_true in Hguard as [_ Hcs].
  apply loop_body_continue in Hbody as (rows & Hfetch & Hhist & _ & _ & Hnext).
  apply fetch_rows_ascending in Hfetch as [Hrows Hrange].
  specialize (Hrange Hnet). unfold dates_ok. rewrite Hhist, Hnext.
  destruct (decide (1 ≤ block_days)) as [Hbd|Hbd].
  - destruct (process_block_dates tbase targets highest_target (block_end st)
                rows (current_start st) st) as [Hs Hb]; try done.
    { by apply Hbefore. }
    { lia. }
    repeat split; [done|done|lia].
  - assert (rows = []) as ->.
    { destruct rows as [|row rows]; [done|].
      apply list.Forall_cons in Hrange as [Hrow _]. lia. }
    simpl. repeat split; [done|lia|]. intros _. apply Hnone. lia.
Qed.

End LoopFacts.

(** ** Runs of [simulate_gdd] *)

Lemma max_targets_is_Some (targets : list Z) :
  targets ≠ [] → is_Some (max_targets targets).
Proof. by destruct targets. Qed.

(** Every result of [simulate_gdd] is the state in which its loop ended,
    and the loop started from [initial_state]. *)
Lemma simulate_gdd_returned net fuel lat lon start_date tbase targets
    max_days block_days w history stages w' :
  simulate_gdd net fuel lat lon start_date tbase targets max_days block_days w
  = Some (inr (history, stages), w') →
  ∃ highest_target st,
    max_targets targets = Some highest_target
    ∧ simulate_loop net fuel lat lon tbase targets highest_target
        (start_date + max_days) block_days (initial_state targets start_date) w
      = Some (st, w')
    ∧ history_rows st = history ∧ stage_dates st = stages.
Proof.
  unfold simulate_gdd. intros Hrun.
  destruct (max_targets targets) as [highest_target|]; [|by simplify_eq].
  fold (initial_state targets start_date) in Hrun.
  destruct (simulate_loop _ _ _ _ _ _ _ _ _ _ _) as [[st w1]|] eqn:Hloop;
    [|discriminate].
  simplify_eq. by exists highest_target, st.
Qed.

(** With blocks of at least one day and some target, a run with one unit
    of fuel per day of the horizon returns. *)
Lemma simulate_gdd_returns net fuel lat lon start_date tbase targets
    max_days block_days w :
  1 ≤ block_days → targets ≠ [] → (Z.to_nat (max_days + 1) ≤ fuel)%nat →
  ∃ history stages w',
    simulate_gdd net fuel lat lon start_date tbase targets max_days
      block_days w
    = Some (inr (history, stages), w').
Proof.
  intros Hbd Htargets Hfuel. unfold simulate_gdd.
  destruct (max_targets_is_Some targets Htargets) as [highest_target ->].
  destruct (simulate_loop_terminates net lat lon tbase targets highest_target
              (start_date + max_days) block_days fuel
              (initial_state targets start_date) w Hbd) as [[st w'] Hloop].
  { simpl. by replace (start_date + max_days - start_date + 1)
             with (max_days + 1) by lia. }
  unfold initial_state in Hloop. rewrite Hloop. eauto.
Qed.

(** C10. With an empty tuple of targets, [max(targets)] raises
    [ValueError]: the call ends with that exception and the world is
    untouched, so no request was made. *)
Theorem simulate_gdd_empty_targets_raises (net : nat → request → reply)
    (fuel : nat) (lat lon : Qc) (start_date : date) (tbase : Qc)
    (max_days block_days : Z) (w : world) :
  simulate_gdd net fuel lat lon start_date tbase [] max_days block_days w
  = Some (inl ValueError, w).
Proof. reflexivity. Qed.

(** C8, as the code has it.  When the start date lies strictly after the
    horizon end, that is for a negative horizon, both are dates that
    [datetime.date] can hold, and there is some target, the run returns an
    empty history and every target unset, and leaves the world untouched:
    no fetch, no message. *)
Theorem simulate_gdd_start_after_horizon (net : nat → request → reply)
    (fuel : nat) (lat lon : Qc) (start_date : date) (tbase : Qc)
    (targets : list Z) (max_days block_days : Z) (w : world) :
  valid_date start_date → valid_date (start_date + max_days) →
  start_date + max_days < start_date → targets ≠ [] →
  simulate_gdd net fuel lat lon start_date tbase targets max_days block_days w
  = Some (inr ([], init_stage_dates targets), w)
  ∧ ∀ thr, thr ∈ targets → init_stage_dates targets !! thr = Some None.
Proof.
  intros _ _ Hneg Htargets. split.
  - unfold simulate_gdd.
    destruct (max_targets_is_Some targets Htargets) as [highest_target ->].
    assert (loop_guard highest_target (start_date + max_days)
              (initial_state targets start_date) = false) as Hguard.
    { unfold loop_guard. simpl.
      rewrite (bool_decide_eq_false_2 (start_date ≤ start_date + max_days))
        by lia.
      apply andb_false_r. }
    unfold initial_state in Hguard.
    destruct fuel; simpl; by rewrite Hguard.
  - intros thr Hthr. rewrite init_stage_dates_lookup. by rewrite decide_True.
Qed.

(** A start on 1 January 2025, the ordinal 739252, with a horizon of minus
    one day: nothing is fetched, even without fuel. *)
Lemma simulate_gdd_start_after_horizon_witness :
  simulate_gdd net_steady 0 (Qc_of_Z 13) (Qc_of_Z 80) 739252 (Qc_of_Z 10)
    [100; 300] (-1) 30 world0
  = Some (inr ([], init_stage_dates [100; 300]), world0)
  ∧ init_stage_dates [100; 300] !! 300 = Some None.
Proof.
  destruct (simulate_gdd_start_after_horizon net_steady 0 (Qc_of_Z 13)
              (Qc_of_Z 80) 739252 (Qc_of_Z 10) [100; 300] (-1) 30 world0)
    as [Hrun Hunset]; [unfold valid_date; lia..|done|].
  split; [exact Hrun|]. apply Hunset. set_solver.
Defined.

(** C8 as stated fails when the start date equals the horizon end: with a
    horizon of zero days the guard [current_start <= end_date_limit] holds,
    one block is fetched and its day is recorded. *)
Lemma simulate_gdd_zero_horizon_fetches :
  ∃ history stages w',
    simulate_gdd net_steady 1 (Qc_of_Z 13) (Qc_of_Z 80) 1 (Qc_of_Z 10)
      [100] 0 30 world0
    = Some (inr (history, stages), w')
    ∧ rec_date <$> history = [1]
    ∧ sent w' = [Request (Qc_of_Z 13) (Qc_of_Z 80) 1 1].
Proof.
  eexists _, _, _. split; [vm_compute; reflexivity|].
  split; reflexivity.
Qed.

(** C1. In the result of every run, each target is a key of the stage map
    and holds the date of the first record, in processing order, whose
    cumulative GDD reached it, or nothing when no record did; a date once
    written survives every later row, so a target is written at most
    once.  With blocks of at least one day and some target the run
    returns. *)
Theorem stage_dates_hold_first_crossing (net : nat → request → reply)
    (fuel : nat) (lat lon : Qc) (start_date : date) (tbase : Qc)
    (targets : list Z) (max_days block_days : Z) (w : world) :
  (∀ history stages w',
     simulate_gdd net fuel lat lon start_date tbase targets max_days
       block_days w
     = Some (inr (history, stages), w') →
     ∀ thr, thr ∈ targets →
            stages !! thr = Some (first_crossing thr history))
  ∧ (∀ st row thr d,
       stage_dates st !! thr = Some (Some d) →
       stage_dates (process_row tbase targets st row) !! thr = Some (Some d))
  ∧ (1 ≤ block_days → targets ≠ [] → (Z.to_nat (max_days + 1) ≤ fuel)%nat →
     ∃ history stages w',
       simulate_gdd net fuel lat lon start_date tbase targets max_days
         block_days w
       = Some (inr (history, stages), w')).
Proof.
  split; [|split].
  - intros history stages w' Hrun thr Hthr.
    apply simulate_gdd_returned in Hrun
      as (highest_target & st & _ & Hloop & <- & <-).
    assert (stage_ok targets st) as Hok.
    { eapply (simulate_loop_invariant net lat lon tbase targets highest_target
                (start_date + max_days) block_days (stage_ok targets));
        [|apply stage_ok_initial|exact Hloop].
      intros st0 w0 st1 w1 _ Hok0 Hbody.
      apply loop_body_continue in Hbody as (rows & _ & Hhist & Hstage & _).
      pose proof (stage_ok_process_block tbase targets highest_target rows st0
                    Hok0) as Hok1.
      intros thr'. rewrite Hstage, Hhist. apply Hok1. }
    rewrite (Hok thr). by rewrite decide_True.
  - intros st row thr d. apply process_row_keeps_stage.
  - apply simulate_gdd_returns.
Qed.

(** Ten days at 30 and 20 degrees over a base of 10: the target 100 is
    crossed on day 7 and the target 300 is not reached. *)
Lemma stage_dates_hold_first_crossing_witness :
  ∃ history stages w',
    simulate_gdd net_steady 10 (Qc_of_Z 13) (Qc_of_Z 80) 1 (Qc_of_Z 10)
      [100; 300] 9 30 world0
    = Some (inr (history, stages), w')
    ∧ stages !! 100 = Some (Some 7)
    ∧ stages !! 300 = Some None.
Proof.
  destruct (stage_dates_hold_first_crossing net_steady 10 (Qc_of_Z 13)
              (Qc_of_Z 80) 1 (Qc_of_Z 10) [100; 300] 9 30 world0)
    as (Hfirst & _ & _).
  eexists _, _, _. split; [vm_compute; reflexivity|].
  split.
  - etransitivity; [eapply Hfirst; [vm_compute; reflexivity|by left]|].
    vm_compute. reflexivity.
  - etransitivity; [eapply Hfirst; [vm_compute; reflexivity|by right; left]|].
    vm_compute. reflexivity.
Defined.

Lemma StronglySorted_lt_NoDup (l : list Z) : StronglySorted Z.lt l → NoDup l.
Proof.
  induction 1 as [|x l Hl IH Hx]; [constructor|].
  apply list.NoDup_cons. split; [|done].
  intros Hin. pose proof (proj1 (list.Forall_forall _ _) Hx x Hin). lia.
Qed.

(** On rationals: in the history of every run the cumulative GDD never
    decreases; when the service keeps every reply inside the requested
    range, the dates are strictly ascending and so without duplicates.
    With blocks of at least one day and some target the run returns. *)
Lemma rational_history_ascends (net : nat → request → reply)
    (fuel : nat) (lat lon : Qc) (start_date : date) (tbase : Qc)
    (targets : list Z) (max_days block_days : Z) (w : world) :
  within_request net →
  (∀ history stages w',
     simulate_gdd net fuel lat lon start_date tbase targets max_days
       block_days w
     = Some (inr (history, stages), w') →
     StronglySorted Qcle (GDD_cum <$> history)
     ∧ StronglySorted Z.lt (rec_date <$> history)
     ∧ NoDup (rec_date <$> history))
  ∧ (1 ≤ block_days → targets ≠ [] → (Z.to_nat (max_days + 1) ≤ fuel)%nat →
     ∃ history stages w',
       simulate_gdd net fuel lat lon start_date tbase targets max_days
         block_days w
       = Some (inr (history, stages), w')).
Proof.
  intros Hnet. split; [|apply simulate_gdd_returns].
  intros history stages w' Hrun.
  apply simulate_gdd_returned in Hrun
    as (highest_target & st & _ & Hloop & <- & _).
  assert (cum_ok highest_target st ∧ dates_ok block_days st) as [Hcum Hdates].
  { eapply (simulate_loop_invariant net lat lon tbase targets highest_target
              (start_date + max_days) block_days
              (λ st, cum_ok highest_target st ∧ dates_ok block_days st));
      [| |exact Hloop].
    - intros st0 w0 st1 w1 Hguard [Hcum0 Hdates0] Hbody. split.
      + apply loop_body_continue in Hbody as (rows & _ & Hhist & _ & Hc & _).
        pose proof (cum_ok_process_block tbase targets highest_target rows st0
                      Hcum0) as Hcum1.
        unfold cum_ok. rewrite Hhist, Hc. exact Hcum1.
      + by eapply dates_ok_step.
    - split; [apply cum_ok_initial|].
      unfold dates_ok. simpl. split; [apply SSorted_nil|].
      split; [intros _; apply List.Forall_nil|done]. }
  destruct Hcum as (_ & Hsorted & _). destruct Hdates as (Hdsorted & _).
  repeat split; [done|done|by apply StronglySorted_lt_NoDup].
Qed.

(** The steady service answers with the days of the requested range. *)
Lemma net_steady_within_request : within_request net_steady.
Proof.
  intros n req status body param_data tmax_dict d Hreply Hparam Hmax Hd.
  unfold net_steady, body_of in Hreply. injection Hreply as _ <-.
  simpl in Hparam. injection Hparam as <-.
  simpl in Hmax. injection Hmax as <-.
  rewrite dom_list_to_map_L, elem_of_list_to_set in Hd.
  apply list_elem_of_fmap in Hd as ([d1 q1] & -> & Hd).
  apply list_elem_of_fmap in Hd as ([[d2 x2] n2] & Heq & Hd).
  apply list_elem_of_fmap in Hd as (d3 & Heq3 & Hd).
  apply elem_of_seqZ in Hd. simpl in *. simplify_eq. lia.
Qed.

(** ** Stopping *)

Lemma loop_guard_reached highest_target end_date_limit st :
  (Qc_of_Z highest_target ≤ cum_gdd st)%Qc →
  loop_guard highest_target end_date_limit st = false.
Proof.
  intros Hreached. unfold loop_guard.
  rewrite bool_decide_eq_false_2; [done|]. by apply Qcle_not_lt.
Qed.

Lemma process_block_reached tbase targets highest_target rows st :
  (Qc_of_Z highest_target ≤ cum_gdd st)%Qc →
  process_block tbase targets highest_target rows st = st.
Proof. intros Hreached. destruct rows; simpl; [done|]. by rewrite decide_True. Qed.

(** C4. Let [highest_target] be [max(targets)].  From loop variables whose
    total has reached it, the loop ends at once and leaves the world as it
    is; a block whose first rows reach it is processed as if it ended
    there; in the history of a run every record but the last is below it;
    and when the total has reached it after [n] iterations the run returns
    the history and the world of that moment, so no request follows. *)
Theorem nothing_happens_after_highest_target (net : nat → request → reply)
    (lat lon : Qc) (start_date : date) (tbase : Qc) (targets : list Z)
    (max_days block_days : Z) (highest_target : Z) :
  max_targets targets = Some highest_target →
  (∀ fuel st w,
     (Qc_of_Z highest_target ≤ cum_gdd st)%Qc →
     simulate_loop net fuel lat lon tbase targets highest_target
       (start_date + max_days) block_days st w
     = Some (st, w))
  ∧ (∀ rows1 rows2 st,
       (Qc_of_Z highest_target
        ≤ cum_gdd (process_block tbase targets highest_target rows1 st))%Qc →
       process_block tbase targets highest_target (rows1 ++ rows2) st
       = process_block tbase targets highest_target rows1 st)
  ∧ (∀ fuel w history stages w',
       simulate_gdd net fuel lat lon start_date tbase targets max_days
         block_days w
       = Some (inr (history, stages), w') →
       ∀ h r, history = h ++ [r] →
              Forall (λ r', GDD_cum r' < Qc_of_Z highest_target)%Qc h)
  ∧ (∀ n fuel w st w_n,
       run_blocks net n lat lon tbase targets highest_target
         (start_date + max_days) block_days
         (initial_state targets start_date) w
       = Some (st, w_n) →
       (Qc_of_Z highest_target ≤ cum_gdd st)%Qc →
       simulate_gdd net (n + fuel) lat lon start_date tbase targets max_days
         block_days w
       = Some (inr (history_rows st, stage_dates st), w_n)).
Proof.
  intros Hmax.
  assert (∀ fuel st w,
            (Qc_of_Z highest_target ≤ cum_gdd st)%Qc →
            simulate_loop net fuel lat lon tbase targets highest_target
              (start_date + max_days) block_days st w
            = Some (st, w)) as Hstop.
  { intros fuel st w Hreached.
    destruct fuel; simpl; by rewrite loop_guard_reached. }
  split; [exact Hstop|]. split; [|split].
  - intros rows1. induction rows1 as [|row rows1 IH]; intros rows2 st Hreached.
    + simpl in *. by apply process_block_reached.
    + simpl in *. case_decide; [done|]. by apply IH.
  - intros fuel w history stages w' Hrun.
    apply simulate_gdd_returned in Hrun as (highest & st & Hmax' & Hloop & <- & _).
    rewrite Hmax in Hmax'. injection Hmax' as <-.
    assert (cum_ok highest_target st) as (_ & _ & Hbelow); [|exact Hbelow].
    eapply (simulate_loop_invariant net lat lon tbase targets highest_target
              (start_date + max_days) block_days (cum_ok highest_target));
      [|apply cum_ok_initial|exact Hloop].
    intros st0 w0 st1 w1 _ Hcum0 Hbody.
    apply loop_body_continue in Hbody as (rows & _ & Hhist & _ & Hc & _).
    pose proof (cum_ok_process_block tbase targets highest_target rows st0
                  Hcum0) as Hcum1.
    unfold cum_ok. rewrite Hhist, Hc. exact Hcum1.
  - intros n fuel w st w_n Hblocks Hreached. unfold simulate_gdd.
    rewrite Hmax. fold (initial_state targets start_date).
    rewrite (simulate_loop_run_blocks net lat lon tbase targets highest_target
               (start_date + max_days) block_days n fuel _ _ _ _ Hblocks).
    by rewrite Hstop.
Qed.

(** A steady service in blocks of three days with the single target 100:
    the third block reaches the target on day 7, days 8 and 9 of that block
    are not recorded and no fourth block is requested. *)
Lemma nothing_happens_after_highest_target_witness :
  ∃ history stages w',
    simulate_gdd net_steady 3 (Qc_of_Z 13) (Qc_of_Z 80) 1 (Qc_of_Z 10)
      [100] 9 3 world0
    = Some (inr (history, stages), w')
    ∧ rec_date <$> history = [1; 2; 3; 4; 5; 6; 7]
    ∧ calls w' = 3%nat.
Proof.
  destruct (nothing_happens_after_highest_target net_steady (Qc_of_Z 13)
              (Qc_of_Z 80) 1 (Qc_of_Z 10) [100] 9 3 100 eq_refl)
    as (_ & _ & _ & Hrun).
  eexists _, _, _. split.
  - apply (Hrun 3%nat 0%nat world0); [vm_compute; reflexivity|].
    vm_compute. discriminate.
  - split; vm_compute; reflexivity.
Defined.

(** ** A fetch that fails *)

(** C5, as the code has it.  When, after [n] completed iterations, the
    guard holds and the fetch of the next block fails, the run stops
    there: it returns exactly the history and the stage map built so far,
    makes no request after the failed fetch, and reports the failure by
    the two messages [Error_stopped] and [Info_try_later]; the returned
    pair itself says nothing about the failure. *)
Theorem failed_fetch_returns_progress (net : nat → request → reply)
    (n fuel : nat) (lat lon : Qc) (start_date : date) (tbase : Qc)
    (targets : list Z) (max_days block_days : Z) (w : world)
    (highest_target : Z) (st : sim_state) (w_n : world) (e : exn)
    (w_fail : world) :
  let end_date_limit := start_date + max_days in
  let current_end :=
    Z.min (current_start st + (block_days - 1)) end_date_limit in
  max_targets targets = Some highest_target →
  run_blocks net n lat lon tbase targets highest_target end_date_limit
    block_days (initial_state targets start_date) w
  = Some (st, w_n) →
  loop_guard highest_target end_date_limit st = true →
  get_power_daily_tmax_tmin net lat lon (current_start st) current_end
    default_max_retries
    (snd (emit (Write_fetching (current_start st) current_end) w_n))
  = (inl e, w_fail) →
  ∃ w', simulate_gdd net (n + S fuel) lat lon start_date tbase targets
          max_days block_days w
        = Some (inr (history_rows st, stage_dates st), w')
      ∧ calls w' = calls w_fail
      ∧ sent w' = sent w_fail
      ∧ ui w' = ui w_fail
                ++ [Error_stopped (current_start st) current_end;
                    Info_try_later].
Proof.
  intros end_date_limit current_end Hmax Hblocks Hguard Hfetch.
  unfold simulate_gdd. rewrite Hmax.
  fold (initial_state targets start_date). fold end_date_limit.
  rewrite (simulate_loop_run_blocks net lat lon tbase targets highest_target
             end_date_limit block_days n (S fuel) _ _ _ _ Hblocks).
  cbn [simulate_loop]. rewrite Hguard. unfold loop_body.
  fold current_end. rewrite Hfetch.
  eexists. split; [reflexivity|]. simpl. by rewrite <-app_assoc.
Qed.

(** One block of three days arrives and the next request gets a 404: the
    three records are returned, two requests were made, and the failure is
    reported by the last two messages. *)
Lemma failed_fetch_returns_progress_witness :
  ∃ history stages w',
    simulate_gdd net_one_block 2 (Qc_of_Z 13) (Qc_of_Z 80) 1 (Qc_of_Z 10)
      [100] 9 3 world0
    = Some (inr (history, stages), w')
    ∧ rec_date <$> history = [1; 2; 3]
    ∧ calls w' = 2%nat
    ∧ ui w' = [Write_fetching 1 3; Write_fetching 4 6; Error_stopped 4 6;
               Info_try_later].
Proof.
  edestruct (failed_fetch_returns_progress net_one_block 1 0 (Qc_of_Z 13)
               (Qc_of_Z 80) 1 (Qc_of_Z 10) [100] 9 3 world0 100)
    as (w' & Hrun & Hcalls & Hsent & Hui).
  - reflexivity.
  - vm_compute. reflexivity.
  - vm_compute. reflexivity.
  - vm_compute. reflexivity.
  - eexists _, _, w'. split; [exact Hrun|].
    split; [vm_compute; reflexivity|].
    split; [exact Hcalls|].
    rewrite Hui. reflexivity.
Defined.

(** C5 as stated fails: the value returned by a run whose first fetch got
    a 404 equals the value returned by a run that completed over a horizon
    of empty blocks, so the result holds no failure indicator. *)
Lemma failed_run_returns_like_completed_run :
  ∃ result w_failed w_completed,
    simulate_gdd net_404 5 (Qc_of_Z 13) (Qc_of_Z 80) 1 (Qc_of_Z 10)
      [100] 2 30 world0
    = Some (inr result, w_failed)
    ∧ simulate_gdd net_empty 5 (Qc_of_Z 13) (Qc_of_Z 80) 1 (Qc_of_Z 10)
        [100] 2 30 world0
      = Some (inr result, w_completed)
    ∧ result = ([], init_stage_dates [100])
    ∧ ui w_failed = [Write_fetching 1 3; Error_stopped 1 3; Info_try_later]
    ∧ ui w_completed = [Write_fetching 1 3].
Proof.
  eexists _, _, _. split; [vm_compute; reflexivity|].
  split; [vm_compute; reflexivity|].
  split; [vm_compute; reflexivity|].
  split; reflexivity.
Qed.

(** ** Targets typed in the form *)

Lemma parse_targets_not_integer (targets_input piece : string) :
  piece ∈ Py.split ","%char targets_input →
  Py.strip piece ≠ EmptyString →
  Py.int (Py.strip piece) = None →
  parse_targets targets_input = None.
Proof.
  intros Hpiece Hblank Hint. unfold parse_targets.
  rewrite (mapM_None_2 (λ x, Py.int (Py.strip x))); [done|].
  apply list.Exists_exists. exists piece. split; [|done].
  by apply list_elem_of_filter.
Qed.

(** C9, as the code has it.  When the box for custom targets is ticked,
    the text typed for them is ASCII, and some non-blank piece of it
    between commas is not an integer, [main] shows the message that
    targets must be integers and goes on with the default targets: from
    there on it behaves as it does on the same form with the box
    unticked. *)
Theorem non_integer_targets_fall_back_to_defaults
    (net : nat → request → reply) (geocoder : string → option (Qc * Qc))
    (fuel : nat) (f : form) (w : world) (piece : string) :
  customize_targets f = true →
  ascii_text (targets_input f) →
  piece ∈ Py.split ","%char (targets_input f) →
  Py.strip piece ≠ EmptyString →
  Py.int (Py.strip piece) = None →
  read_targets f w
  = (inr default_targets, snd (emit Error_targets_not_integers w))
  ∧ main net geocoder fuel f w
    = main net geocoder fuel (without_custom_targets f)
        (snd (emit Error_targets_not_integers w)).
Proof.
  intros Hcustom _ Hpiece Hblank Hint.
  pose proof (parse_targets_not_integer _ _ Hpiece Hblank Hint) as Hparse.
  assert (read_targets f w
          = (inr default_targets, snd (emit Error_targets_not_integers w)))
    as Hread.
  { unfold read_targets. by rewrite Hcustom, Hparse. }
  split; [exact Hread|].
  unfold main. rewrite Hread. by destruct f.
Qed.

(** The form with the targets typed as [abc]: the message is shown, and
    the run is the run of the default targets. *)
Lemma non_integer_targets_fall_back_to_defaults_witness :
  read_targets form_abc world0
  = (inr [100; 300; 500; 1000], World 0 [] [] [Error_targets_not_integers])
  ∧ main net_steady no_geocoder 5 form_abc world0
    = main net_steady no_geocoder 5 (without_custom_targets form_abc)
        (World 0 [] [] [Error_targets_not_integers]).
Proof.
  apply (non_integer_targets_fall_back_to_defaults net_steady no_geocoder 5
           form_abc world0 "abc").
  - reflexivity.
  - unfold ascii_text. simpl. by repeat constructor.
  - vm_compute. left.
  - vm_compute. discriminate.
  - vm_compute. reflexivity.
Defined.

(** C9 as stated fails: with the targets typed as [abc] and the button
    pressed, the run starts all the same.  Three requests go out and the
    stages of the default targets are shown. *)
Lemma non_integer_targets_run_starts :
  ∃ w' history,
    main net_steady no_geocoder 5 form_abc world0 = Some (inr (), w')
    ∧ sent w' = [Request (Qc_of_Z 13) (Qc_of_Z 80) 1 30;
                 Request (Qc_of_Z 13) (Qc_of_Z 80) 31 60;
                 Request (Qc_of_Z 13) (Qc_of_Z 80) 61 90]
    ∧ ui w' = [Error_targets_not_integers; Success_location;
               Write_fetching 1 30; Write_fetching 31 60;
               Write_fetching 61 90;
               Show_results
                 [(100, Some (Some 7)); (300, Some (Some 20));
                  (500, Some (Some 34)); (1000, Some (Some 67))]
                 history].
Proof.
  eexists _, _. split; [vm_compute; reflexivity|].
  split; [reflexivity|]. vm_compute. reflexivity.
Qed.

(** ** Worked examples *)

Example daily_gdd_warm_day :
  daily_gdd (Qc_of_Z 30) (Qc_of_Z 20) (Qc_of_Z 10) = Qc_of_Z 15.
Proof. by apply Qc_is_canon. Qed.

Example daily_gdd_cold_day :
  daily_gdd (Qc_of_Z 5) (Qc_of_Z 1) (Qc_of_Z 10) = Qc_of_Z 0.
Proof. by apply Qc_is_canon. Qed.

Example parse_targets_mixed :
  parse_targets "100, 300,500 ,1_000,,+5, -3 ,300"
  = Some [-3; 5; 100; 300; 500; 1000].
Proof. reflexivity. Qed.

Example parse_targets_blank : parse_targets " , " = Some [].
Proof. reflexivity. Qed.

Example parse_targets_stray_underscore : parse_targets "100,1__0" = None.
Proof. reflexivity. Qed.

(** Ten days at 30 and 20 degrees over a base of 10, in one block: the
    total is 105 on day 7 and 150 on day 10. *)
Example ten_warm_days :
  ∃ history stages w',
    simulate_gdd net_steady 10 (Qc_of_Z 13) (Qc_of_Z 80) 1 (Qc_of_Z 10)
      [100; 300] 9 30 world0
    = Some (inr (history, stages), w')
    ∧ (λ r, (rec_date r, this (GDD_cum r))) <$> history
      = (λ d, (d, inject_Z (15 * d))) <$> seqZ 1 10
    ∧ map_to_list stages = [(300, None); (100, Some 7)].
Proof.
  eexists _, _, _. split; [vm_compute; reflexivity|].
  split; vm_compute; reflexivity.
Qed.

(** No data in any block over a horizon of ten days: nothing is recorded,
    no target is set, and the run is not an error. *)
Example empty_blocks :
  ∃ w',
    simulate_gdd net_empty 10 (Qc_of_Z 13) (Qc_of_Z 80) 1 (Qc_of_Z 10)
      [100; 300] 10 30 world0
    = Some (inr ([], init_stage_dates [100; 300]), w')
    ∧ calls w' = 1%nat.
Proof. eexists. split; [vm_compute; reflexivity|reflexivity]. Qed.

(** Custom targets left blank give an empty tuple, and the run then ends
    with the [ValueError] of [max(targets)] before any request. *)
Example blank_targets_raise :
  main net_steady no_geocoder 5
    (Form "Chennai, India" 1 (Qc_of_Z 10) true true "" true
       (Qc_of_Z 13) (Qc_of_Z 80))
    world0
  = Some (inl ValueError, World 0 [] [] [Success_location]).
Proof. reflexivity. Qed.

(** * Further properties *)

(** ** The footprint of a fetch *)

Section FetchFootprint.

Variable net : nat → request → reply.

(** What the retry loop does to the world, whatever the replies are. *)
Lemma retry_loop_footprint n : ∀ attempt max_retries req w res w',
  (n + attempt = S max_retries)%nat →
  retry_loop net n attempt max_retries req w = (res, w') →
  ∃ k msgs,
    (k ≤ n)%nat ∧ (k = 0%nat ↔ n = 0%nat)
    ∧ calls w' = (calls w + k)%nat
    ∧ sent w' = sent w ++ replicate k req
    ∧ geocoded w' = geocoded w
    ∧ ui w' = ui w ++ msgs
    ∧ length msgs = pred k
    ∧ Forall (λ msg, is_warning msg = true) msgs.
Proof.
  induction n as [|n IH]; intros attempt max_retries req w res w' Hn Hrun.
  - cbn in Hrun. unfold raise in Hrun. simplify_eq. exists 0%nat, [].
    simpl. rewrite !app_nil_r. repeat split; try done; lia.
  - assert (∀ res0, (res0, attempted req [] w) = (res, w') →
        ∃ k msgs,
          (k ≤ S n)%nat ∧ (k = 0%nat ↔ S n = 0%nat)
          ∧ calls w' = (calls w + k)%nat
          ∧ sent w' = sent w ++ replicate k req
          ∧ geocoded w' = geocoded w
          ∧ ui w' = ui w ++ msgs
          ∧ length msgs = pred k
          ∧ Forall (λ msg, is_warning msg = true) msgs) as Hone.
    { intros res0 Heq. simplify_eq. exists 1%nat, []. simpl.
      rewrite app_nil_r. repeat split; try done; lia. }
    assert (∀ msg, is_warning msg = true → (attempt < max_retries)%nat →
        retry_loop net n (S attempt) max_retries req (attempted req [msg] w)
        = (res, w') →
        ∃ k msgs,
          (k ≤ S n)%nat ∧ (k = 0%nat ↔ S n = 0%nat)
          ∧ calls w' = (calls w + k)%nat
          ∧ sent w' = sent w ++ replicate k req
          ∧ geocoded w' = geocoded w
          ∧ ui w' = ui w ++ msgs
          ∧ length msgs = pred k
          ∧ Forall (λ msg, is_warning msg = true) msgs) as Hmore.
    { intros msg Hmsg Hlt Hrest.
      apply IH in Hrest as (k & msgs & Hk & Hk0 & Hc & Hs & Hg & Hu & Hl & Hw);
        [|lia].
      assert (k ≠ 0%nat) by (rewrite Hk0; lia).
      exists (S k), (msg :: msgs). simpl in *.
      repeat split; try done; try lia.
      - by rewrite Hs, <-app_assoc.
      - by rewrite Hu, <-app_assoc.
      - by constructor. }
    cbn [retry_loop] in Hrun. unfold mbind, M_bind, requests_get in Hrun.
    fold (attempted req [] w) in Hone.
    destruct (net (calls w) req) as [status body|] eqn:Hr.
    + destruct (raise_for_status status).
      * destruct (bool_decide (500 ≤ status < 600)); simpl in Hrun.
        -- case_bool_decide as Hlt.
           ++ by apply (Hmore (Warning_server_error status attempt max_retries)).
           ++ apply (Hone (inl (HTTPError status))).
              rewrite <-Hrun. unfold raise, attempted. simpl.
              by rewrite app_nil_r.
        -- apply (Hone (inl (HTTPError status))).
           rewrite <-Hrun. unfold raise, attempted. simpl.
           by rewrite app_nil_r.
      * apply (Hone (inr body)).
        rewrite <-Hrun. unfold mret, M_ret, attempted. simpl.
        by rewrite app_nil_r.
    + case_bool_decide as Hlt.
      * by apply (Hmore (Warning_network_error attempt max_retries)).
      * apply (Hone (inl RequestException)).
        rewrite <-Hrun. unfold raise, attempted. simpl.
        by rewrite app_nil_r.
Qed.

(** What the retry loop can raise, and where an [HTTPError] comes from. *)
Lemma retry_loop_raises n : ∀ attempt max_retries req w e w',
  (n + attempt = S max_retries)%nat →
  retry_loop net n attempt max_retries req w = (inl e, w') →
  (e = UnboundLocalError ∧ n = 0%nat)
  ∨ e = RequestException
  ∨ ∃ i status body,
      net i req = Response status body ∧ 400 ≤ status < 600
      ∧ e = HTTPError status.
Proof.
  induction n as [|n IH]; intros attempt max_retries req w e w' Hn Hrun.
  - cbn in Hrun. unfold raise in Hrun. simplify_eq. by left.
  - cbn [retry_loop] in Hrun. unfold mbind, M_bind, requests_get in Hrun.
    assert (∀ w0, retry_loop net n (S attempt) max_retries req w0 = (inl e, w') →
              (attempt < max_retries)%nat →
              (e = UnboundLocalError ∧ S n = 0%nat)
              ∨ e = RequestException
              ∨ ∃ i status body,
                  net i req = Response status body ∧ 400 ≤ status < 600
                  ∧ e = HTTPError status) as Hmore.
    { intros w0 Hrest Hlt.
      apply IH in Hrest as [[_ Hn0]|Hrest]; [lia|by right|lia]. }
    destruct (net (calls w) req) as [status body|] eqn:Hr.
    + unfold raise_for_status in Hrun. case_bool_decide as Hstatus.
      * assert ((inl (HTTPError status) : exn + response_body) = inl e →
                (e = UnboundLocalError ∧ S n = 0%nat)
                ∨ e = RequestException
                ∨ ∃ i status0 body0,
                    net i req = Response status0 body0 ∧ 400 ≤ status0 < 600
                    ∧ e = HTTPError status0) as Hraise.
        { intros Heq. simplify_eq. right. right. eauto 6. }
        destruct (bool_decide (500 ≤ status < 600)); simpl in Hrun.
        -- case_bool_decide as Hlt.
           ++ by eapply Hmore.
           ++ apply Hraise. unfold raise in Hrun. by simplify_eq.
        -- apply Hraise. unfold raise in Hrun. by simplify_eq.
      * unfold mret, M_ret in Hrun. discriminate.
    + case_bool_decide as Hlt.
      * simpl in Hrun. by eapply Hmore.
      * unfold raise in Hrun. simplify_eq. by right; left.
Qed.

(** A body that the retry loop returns came with a status that is no
    error. *)
Lemma retry_loop_returns_ok n : ∀ attempt max_retries req w body w',
  retry_loop net n attempt max_retries req w = (inr body, w') →
  ∃ i status, net i req = Response status body ∧ ¬ 400 ≤ status < 600.
Proof.
  induction n as [|n IH]; intros attempt max_retries req w body w' Hrun.
  - discriminate.
  - cbn [retry_loop] in Hrun. unfold mbind, M_bind, requests_get in Hrun.
    destruct (net (calls w) req) as [status body0|] eqn:Hr.
    + unfold raise_for_status in Hrun. case_bool_decide as Hstatus.
      * destruct (_ && _); [|discriminate].
        simpl in Hrun. by eapply IH.
      * unfold mret, M_ret in Hrun. simplify_eq. eauto.
    + destruct (bool_decide _); [|discriminate].
      simpl in Hrun. by eapply IH.
Qed.

End FetchFootprint.

(** X1. Whatever the service replies, a fetch with [N] attempts allowed
    makes [k] requests with [k ≤ N], none when [N] is zero and at least
    one otherwise; they are all the one request built from its arguments;
    it shows [k - 1] messages, each the warning of a retry, and it leaves
    the list of geocoded places alone. *)
Theorem fetch_footprint (net : nat → request → reply) (lat lon : Qc)
    (start_date end_date : date) (N : nat) (w : world) :
  let w' :=
    snd (get_power_daily_tmax_tmin net lat lon start_date end_date N w) in
  ∃ k msgs,
    (k ≤ N)%nat ∧ (k = 0%nat ↔ N = 0%nat)
    ∧ calls w' = (calls w + k)%nat
    ∧ sent w' = sent w ++ replicate k (Request lat lon start_date end_date)
    ∧ geocoded w' = geocoded w
    ∧ ui w' = ui w ++ msgs
    ∧ length msgs = pred k
    ∧ Forall (λ msg, is_warning msg = true) msgs.
Proof.
  intros w'. subst w'. unfold get_power_daily_tmax_tmin, mbind, M_bind.
  destruct (retry_loop net N 1 N (Request lat lon start_date end_date) w)
    as [res w1] eqn:Hretry.
  apply retry_loop_footprint in Hretry; [|lia].
  destruct res as [e|body]; [exact Hretry|].
  by destruct (parse_body body).
Qed.

(** What stands for an exception of lines 69 to 79 is [KeyError]. *)
Lemma build_rows_raises (tmax_dict tmin_dict : gmap Z Qc) (keys : list Z) e :
  build_rows tmax_dict tmin_dict keys = inl e → e = KeyError.
Proof.
  induction keys as [|d keys IH]; simpl; [discriminate|].
  destruct (tmax_dict !! d), (tmin_dict !! d); try (intros; by simplify_eq).
  destruct (build_rows tmax_dict tmin_dict keys) as [e'|rows]; [|discriminate].
  intros. simplify_eq. by apply IH.
Qed.

Lemma parse_body_raises (body : response_body) e :
  parse_body body = inl e → e = KeyError.
Proof.
  unfold parse_body.
  destruct (parameter body) as [param_data|]; [|by intros; simplify_eq].
  destruct (T2M_MAX param_data) as [tmax_dict|]; [|by intros; simplify_eq].
  destruct (T2M_MIN param_data) as [tmin_dict|]; [|by intros; simplify_eq].
  apply build_rows_raises.
Qed.

(** X2. Where two exceptions of a fetch come from.  An [HTTPError] that a
    fetch raises bears the status of a reply that the service gave to this
    very request, a status from 400 to 599.  [UnboundLocalError] is
    raised only when no attempt is allowed; and with no attempt allowed
    the fetch does raise it, and leaves the world as it is. *)
Theorem fetch_error_origin (net : nat → request → reply) (lat lon : Qc)
    (start_date end_date : date) (N : nat) (w : world) :
  (∀ status w',
     get_power_daily_tmax_tmin net lat lon start_date end_date N w
     = (inl (HTTPError status), w') →
     400 ≤ status < 600
     ∧ ∃ i body,
         net i (Request lat lon start_date end_date) = Response status body)
  ∧ (∀ w',
       get_power_daily_tmax_tmin net lat lon start_date end_date N w
       = (inl UnboundLocalError, w') →
       N = 0%nat)
  ∧ (N = 0%nat →
     get_power_daily_tmax_tmin net lat lon start_date end_date N w
     = (inl UnboundLocalError, w)).
Proof.
  assert (∀ e w',
    get_power_daily_tmax_tmin net lat lon start_date end_date N w
    = (inl e, w') →
    e = KeyError
    ∨ ∃ w1, retry_loop net N 1 N (Request lat lon start_date end_date) w
            = (inl e, w1)) as Hfrom.
  { intros e w'. unfold get_power_daily_tmax_tmin, mbind, M_bind.
    destruct (retry_loop net N 1 N (Request lat lon start_date end_date) w)
      as [[e0|body] w1] eqn:Hretry.
    - intros Heq. simplify_eq. eauto.
    - destruct (parse_body body) as [e1|rows] eqn:Hparse; [|discriminate].
      intros Heq. unfold raise in Heq. simplify_eq.
      left. by eapply parse_body_raises. }
  assert (N + 1 = S N)%nat as HN by lia.
  split; [|split].
  - intros status w' Hrun.
    destruct (Hfrom _ _ Hrun) as [Hkey|[w1 Hretry]]; [discriminate|].
    destruct (retry_loop_raises net N 1 N _ _ _ _ HN Hretry)
      as [[Hno _]|[Hno|(i & status' & body & Hreply & Hstatus & Heq)]];
      [discriminate..|].
    injection Heq as ->. eauto.
  - intros w' Hrun.
    destruct (Hfrom _ _ Hrun) as [Hkey|[w1 Hretry]]; [discriminate|].
    destruct (retry_loop_raises net N 1 N _ _ _ _ HN Hretry)
      as [[_ HN0]|[Hno|(i & status' & body & _ & _ & Hno)]];
      [done|discriminate..].
  - intros ->. reflexivity.
Qed.

(** A 404 is raised as the [HTTPError] of a reply that the service gave;
    without any attempt the fetch raises before it asks. *)
Lemma fetch_error_origin_witness :
  (∃ i body, net_404 i (Request (Qc_of_Z 13) (Qc_of_Z 80) 1 2)
             = Response 404 body)
  ∧ get_power_daily_tmax_tmin net_steady (Qc_of_Z 13) (Qc_of_Z 80) 1 2 0
      world0
    = (inl UnboundLocalError, world0).
Proof.
  destruct (fetch_error_origin net_404 (Qc_of_Z 13) (Qc_of_Z 80) 1 2 3 world0)
    as (Hhttp & _ & _).
  destruct (fetch_error_origin net_steady (Qc_of_Z 13) (Qc_of_Z 80) 1 2 0
              world0) as (_ & _ & Hnone).
  split; [|by apply Hnone].
  edestruct (Hhttp 404) as [_ Hreply]; [vm_compute; reflexivity|].
  exact Hreply.
Defined.

(** ** More on parsing *)

Lemma build_rows_agree (tmax_dict tmin_dict tmin_dict' : gmap Z Qc)
    (keys : list Z) :
  (∀ d, d ∈ keys → tmin_dict !! d = tmin_dict' !! d) →
  build_rows tmax_dict tmin_dict keys = build_rows tmax_dict tmin_dict' keys.
Proof.
  induction keys as [|d keys IH]; intros Hagree; simpl; [done|].
  rewrite (Hagree d) by left. rewrite IH; [done|].
  intros d' Hd'. apply Hagree. by right.
Qed.

Lemma length_sorted_keys (m : gmap Z Qc) : length (sorted_keys m) = size m.
Proof.
  unfold sorted_keys. rewrite merge_sort_Permutation.
  by rewrite <-size_dom.
Qed.

(** X3. What a parse that succeeds tells about the body: it has
    [properties.parameter] with both variables, every date key of
    [T2M_MAX] is a key of [T2M_MIN], and there are as many rows as
    [T2M_MAX] has keys. *)
Theorem parse_body_success_needs (body : response_body)
    (rows : list observation) :
  parse_body body = inr rows →
  ∃ param_data tmax_dict tmin_dict,
    parameter body = Some param_data
    ∧ T2M_MAX param_data = Some tmax_dict
    ∧ T2M_MIN param_data = Some tmin_dict
    ∧ dom tmax_dict ⊆ dom tmin_dict
    ∧ length rows = size tmax_dict.
Proof.
  unfold parse_body. intros Hrows.
  destruct (parameter body) as [param_data|]; [|discriminate].
  destruct (T2M_MAX param_data) as [tmax_dict|] eqn:Hmax; [|discriminate].
  destruct (T2M_MIN param_data) as [tmin_dict|] eqn:Hmin; [|discriminate].
  exists param_data, tmax_dict, tmin_dict. repeat split; try done.
  - intros d Hd. apply dec_stable. intros Hmiss.
    rewrite (build_rows_missing tmax_dict tmin_dict _ d) in Hrows;
      [discriminate| |done].
    by apply elem_of_sorted_keys.
  - apply build_rows_dates in Hrows.
    by rewrite <-length_sorted_keys, <-Hrows, length_fmap.
Qed.

(** A sparse body of two days parses, to two rows; so each of its two
    dates of [T2M_MAX] is a key of [T2M_MIN]. *)
Lemma parse_body_success_needs_witness :
  ∃ rows tmax_dict tmin_dict,
    parse_body (body_of [(3, 30, 20); (1, 28, 18)]) = inr rows
    ∧ T2M_MAX (ParameterBlock (Some tmax_dict) (Some tmin_dict))
      = Some tmax_dict
    ∧ dom tmax_dict ⊆ dom tmin_dict
    ∧ length rows = size tmax_dict
    ∧ length rows = 2%nat.
Proof.
  destruct (parse_body (body_of [(3, 30, 20); (1, 28, 18)])) as [e|rows]
    eqn:Hparse; [vm_compute in Hparse; discriminate|].
  destruct (parse_body_success_needs _ rows Hparse)
    as (param_data & tmax_dict & tmin_dict & Hparam & Hmax & Hmin & Hsub
        & Hlen).
  exists rows, tmax_dict, tmin_dict. repeat split; try done.
  vm_compute in Hparse. by injection Hparse as <-.
Defined.

(** X4. Dates that only [T2M_MIN] has do not matter: two bodies with the
    same [T2M_MAX] whose [T2M_MIN] agree on the dates of [T2M_MAX] parse to
    the same rows, or both raise. *)
Theorem parse_body_ignores_unpaired_minimum
    (tmax_dict tmin_dict tmin_dict' : gmap Z Qc) :
  (∀ d, d ∈ dom tmax_dict → tmin_dict !! d = tmin_dict' !! d) →
  parse_body
    (ResponseBody (Some (ParameterBlock (Some tmax_dict) (Some tmin_dict))))
  = parse_body
      (ResponseBody (Some (ParameterBlock (Some tmax_dict) (Some tmin_dict')))).
Proof.
  intros Hagree. unfold parse_body. simpl. apply build_rows_agree.
  intros d Hd. apply Hagree. by apply elem_of_sorted_keys.
Qed.

(** A minimum for day 5, a day without maximum, changes nothing. *)
Lemma parse_body_ignores_unpaired_minimum_witness :
  parse_body
    (ResponseBody (Some (ParameterBlock
       (Some {[ 1 := Qc_of_Z 30 ]})
       (Some {[ 1 := Qc_of_Z 20; 5 := Qc_of_Z 3 ]}))))
  = inr [Observation 1 (Qc_of_Z 30) (Qc_of_Z 20)].
Proof.
  rewrite <-(parse_body_ignores_unpaired_minimum
               {[ 1 := Qc_of_Z 30 ]} {[ 1 := Qc_of_Z 20 ]}
               {[ 1 := Qc_of_Z 20; 5 := Qc_of_Z 3 ]}).
  - reflexivity.
  - intros d Hd. apply elem_of_dom in Hd.
    destruct (decide (d = 1)) as [->|Hne]; [reflexivity|].
    rewrite lookup_singleton_ne in Hd by done. by destruct Hd.
Defined.

(** ** More on the loop *)

(** What one block adds to the history: the records of the first rows of
    the block, as many as were processed. *)
Lemma process_block_records tbase targets highest_target rows : ∀ st,
  ∃ k, history_rows (process_block tbase targets highest_target rows st)
       = history_rows st ++ records_of tbase (cum_gdd st) (take k rows)
     ∧ cum_gdd (process_block tbase targets highest_target rows st)
       = total_after tbase (cum_gdd st) (take k rows).
Proof.
  induction rows as [|row rows IH]; intros st.
  - exists 0%nat. simpl. by rewrite app_nil_r.
  - cbn [process_block]. case_decide as Hreached.
    + exists 0%nat. simpl. by rewrite app_nil_r.
    + destruct (IH (process_row tbase targets st row)) as (k & Hhist & Hcum).
      exists (S k). rewrite Hhist, Hcum. simpl. by rewrite <-app_assoc.
Qed.

Lemma records_of_snoc tbase rows : ∀ acc row,
  records_of tbase acc (rows ++ [row])
  = records_of tbase acc rows
    ++ records_of tbase (total_after tbase acc rows) [row].
Proof.
  induction rows as [|row' rows IH]; intros acc row; simpl; [done|].
  f_equal. apply IH.
Qed.

Lemma records_of_app tbase rows1 : ∀ acc rows2,
  records_of tbase acc (rows1 ++ rows2)
  = records_of tbase acc rows1
    ++ records_of tbase (total_after tbase acc rows1) rows2.
Proof.
  induction rows1 as [|row rows1 IH]; intros acc rows2; simpl; [done|].
  f_equal. apply IH.
Qed.

Lemma observation_of_records_of tbase rows : ∀ acc,
  observation_of <$> records_of tbase acc rows = rows.
Proof.
  induction rows as [|[d tx tn] rows IH]; intros acc; simpl; [done|].
  unfold observation_of at 1. simpl. f_equal. apply IH.
Qed.

Lemma rec_date_records_of tbase rows : ∀ acc,
  rec_date <$> records_of tbase acc rows = obs_date <$> rows.
Proof.
  induction rows as [|row rows IH]; intros acc; simpl; [done|].
  f_equal. apply IH.
Qed.

Section RunFacts.

Variable net : nat → request → reply.
Variables lat lon tbase : Qc.
Variable targets : list Z.
Variable highest_target : Z.
Variable end_date_limit : date.
Variable block_days : Z.

Local Abbreviation body :=
  (loop_body net lat lon tbase targets highest_target end_date_limit block_days).
Local Abbreviation loop fuel :=
  (simulate_loop net fuel lat lon tbase targets highest_target end_date_limit
     block_days).
Local Abbreviation guard := (loop_guard highest_target end_date_limit).
Local Abbreviation block_end st :=
  (Z.min (current_start st + (block_days - 1)) end_date_limit).
Local Abbreviation block_request st :=
  (Request lat lon (current_start st) (block_end st)).

(** A property of the loop variables and the world that every iteration
    keeps, whether it completes or breaks, holds on exit. *)
Lemma simulate_loop_invariant_world (P : sim_state → world → Prop) :
  (∀ st w st' w', guard st = true → P st w →
     body st w = Continue st' w' → P st' w') →
  (∀ st w w', guard st = true → P st w → body st w = Break st w' → P st w') →
  ∀ fuel st w st' w', P st w → loop fuel st w = Some (st', w') → P st' w'.
Proof.
  intros Hcont Hbreak fuel.
  induction fuel as [|fuel IH]; intros st w st' w' HP Hrun; simpl in Hrun.
  - destruct (guard st); [discriminate|]. by simplify_eq.
  - destruct (guard st) eqn:Hguard; [|by simplify_eq].
    destruct (body st w) as [st1 w1|st1 w1] eqn:Hbody.
    + eapply IH; [|exact Hrun]. by eapply Hcont.
    + pose proof Hbody as Hb. apply loop_body_break in Hb as [-> _].
      simplify_eq. by eapply Hbreak.
Qed.

(** The footprint of one iteration: between one and three requests for
    the block, nothing sent to the geocoder, and messages that start with
    the announcement of the block. *)
Lemma loop_body_footprint st w :
  ∃ k msgs w',
    (body st w = Break st w' ∨ ∃ st', body st w = Continue st' w')
    ∧ (1 ≤ k ≤ 3)%nat
    ∧ calls w' = (calls w + k)%nat
    ∧ sent w' = sent w ++ replicate k (block_request st)
    ∧ geocoded w' = geocoded w
    ∧ ui w' = ui w
              ++ Write_fetching (current_start st) (block_end st) :: msgs.
Proof.
  unfold loop_body.
  pose proof (fetch_footprint net lat lon (current_start st) (block_end st)
                default_max_retries
                (snd (emit (Write_fetching (current_start st) (block_end st)) w)))
    as (k & msgs & Hk & Hk0 & Hc & Hs & Hg & Hu & _).
  assert (k ≠ 0%nat) by (rewrite Hk0; done).
  unfold default_max_retries in *.
  destruct (get_power_daily_tmax_tmin _ _ _ _ _ _ _) as [[e|rows] w2];
    simpl in *.
  - exists k, (msgs ++ [Error_stopped (current_start st) (block_end st);
                        Info_try_later]).
    eexists. split; [by left|]. simpl.
    repeat split; try done; try lia.
    rewrite Hu. by rewrite <-!app_assoc.
  - exists k, msgs. eexists. split; [right; by eexists|].
    repeat split; try done; try lia.
    rewrite Hu. by rewrite <-!app_assoc.
Qed.

End RunFacts.

(** ** Daily values and totals *)

Lemma total_after_app tbase rows1 rows2 acc :
  total_after tbase acc (rows1 ++ rows2)
  = total_after tbase (total_after tbase acc rows1) rows2.
Proof. unfold total_after. apply foldl_app. Qed.

Lemma totals_ok_initial tbase targets start_date :
  totals_ok tbase (initial_state targets start_date).
Proof. by split. Qed.

Lemma totals_ok_process_block tbase targets highest_target rows st :
  totals_ok tbase st →
  totals_ok tbase (process_block tbase targets highest_target rows st).
Proof.
  intros [Hhist Hcum].
  destruct (process_block_records tbase targets highest_target rows st)
    as (k & Hhist' & Hcum').
  unfold totals_ok. rewrite Hhist', Hcum'.
  rewrite fmap_app, observation_of_records_of, records_of_app, total_after_app.
  by rewrite <-Hcum, <-Hhist.
Qed.

(** The running total is the total that the history ends with. *)
Lemma totals_ok_last_total tbase st :
  totals_ok tbase st → cum_gdd st = last_total (history_rows st).
Proof.
  intros [Hhist Hcum]. unfold last_total.
  destruct (list.last (history_rows st)) as [r|] eqn:Hlast; simpl.
  - apply last_Some in Hlast as [h Heq]. symmetry.
    rewrite Hcum, Heq, fmap_app, total_after_app.
    rewrite Heq, fmap_app, records_of_app in Hhist.
    apply app_inj_tail in Hhist as [_ Hr].
    rewrite Hr at 1. reflexivity.
  - apply last_None in Hlast. by rewrite Hcum, Hlast.
Qed.

(** X5. The history of a run is the history that its own temperatures
    give: computing again, record by record and from a total of zero,
    [daily_gdd] of the two temperatures of each record and the running
    total, in the order in which the program adds, gives the very records
    of the history; and the total of the last record is that running total
    after all of them. *)
Theorem history_is_recomputable (net : nat → request → reply)
    (fuel : nat) (lat lon : Qc) (start_date : date) (tbase : Qc)
    (targets : list Z) (max_days block_days : Z) (w : world)
    (history : list gdd_record) (stages : gmap Z (option date)) (w' : world) :
  simulate_gdd net fuel lat lon start_date tbase targets max_days block_days w
  = Some (inr (history, stages), w') →
  history = records_of tbase (Qc_of_Z 0) (observation_of <$> history)
  ∧ (∀ r, list.last history = Some r →
          GDD_cum r
          = total_after tbase (Qc_of_Z 0) (observation_of <$> history)).
Proof.
  intros Hrun.
  apply simulate_gdd_returned in Hrun
    as (highest_target & st & _ & Hloop & <- & _).
  assert (totals_ok tbase st) as Hok.
  { eapply (simulate_loop_invariant net lat lon tbase targets highest_target
              (start_date + max_days) block_days (totals_ok tbase));
      [|apply totals_ok_initial|exact Hloop].
    intros st0 w0 st1 w1 _ Hok Hbody.
    apply loop_body_continue in Hbody as (rows & _ & Hh & _ & Hc & _).
    pose proof (totals_ok_process_block tbase targets highest_target rows st0
                  Hok) as Hok1.
    unfold totals_ok. rewrite Hh, Hc. exact Hok1. }
  split; [apply Hok|].
  intros r Hlast.
  pose proof (totals_ok_last_total tbase st Hok) as Hcum.
  unfold last_total in Hcum. rewrite Hlast in Hcum. simpl in Hcum.
  rewrite <-Hcum. apply Hok.
Qed.

(** Ten warm days, each worth 15: the last record holds the total 150,
    which is what adding up again from its temperatures gives. *)
Lemma history_is_recomputable_witness :
  ∃ history stages w',
    simulate_gdd net_steady 10 (Qc_of_Z 13) (Qc_of_Z 80) 1 (Qc_of_Z 10)
      [100; 300] 9 30 world0
    = Some (inr (history, stages), w')
    ∧ ∃ r, list.last history = Some r
           ∧ GDD_cum r
             = total_after (Qc_of_Z 10) (Qc_of_Z 0) (observation_of <$> history)
           ∧ GDD_cum r = Qc_of_Z 150.
Proof.
  eexists _, _, _. split; [vm_compute; reflexivity|].
  edestruct (history_is_recomputable net_steady 10 (Qc_of_Z 13) (Qc_of_Z 80)
               1 (Qc_of_Z 10) [100; 300] 9 30 world0) as (_ & Hlast);
    [vm_compute; reflexivity|].
  eexists. split; [reflexivity|].
  split; [by apply Hlast|by apply Qc_is_canon].
Defined.

(** ** The requests of a run *)

Lemma StronglySorted_replicate_same (k : nat) (req : request) :
  StronglySorted same_or_earlier (replicate k req).
Proof.
  induction k as [|k IH]; simpl; constructor; [done|].
  apply Forall_replicate. by left.
Qed.

Lemma requests_ok_extend lat lon start_date end_date_limit block_days
    current_start new k :
  1 ≤ block_days → current_start ≤ end_date_limit →
  let current_end := Z.min (current_start + (block_days - 1)) end_date_limit in
  requests_ok lat lon start_date end_date_limit block_days current_start new →
  Forall (request_ok lat lon start_date end_date_limit block_days)
    (new ++ replicate k (Request lat lon current_start current_end))
  ∧ StronglySorted same_or_earlier
      (new ++ replicate k (Request lat lon current_start current_end))
  ∧ ((1 ≤ k)%nat →
     requests_ok lat lon start_date end_date_limit block_days
       (current_end + 1)
       (new ++ replicate k (Request lat lon current_start current_end))).
Proof.
  intros Hbd Hcs current_end (Hstart & Hall & Hbefore & Hsorted & Hcover).
  assert (current_start ≤ current_end ≤ end_date_limit
          ∧ current_end - current_start < block_days) as Hce
    by (unfold current_end; lia).
  assert (Forall (request_ok lat lon start_date end_date_limit block_days)
            (new ++ replicate k (Request lat lon current_start current_end)))
    as Hall'.
  { apply Forall_app. split; [done|]. apply Forall_replicate.
    unfold request_ok. simpl. repeat split; try done; lia. }
  assert (StronglySorted same_or_earlier
            (new ++ replicate k (Request lat lon current_start current_end)))
    as Hsorted'.
  { apply StronglySorted_app_2;
      [|done|apply StronglySorted_replicate_same].
    intros r1 r2 Hr1 Hr2. apply elem_of_replicate in Hr2 as [-> _].
    right. simpl. by apply (proj1 (list.Forall_forall _ _) Hbefore). }
  split; [done|]. split; [done|].
  intros Hk. unfold requests_ok. split; [lia|]. split; [done|].
  split; [|split; [done|]].
  - apply Forall_app. split.
    + eapply list.Forall_impl; [exact Hbefore|]. simpl. intros r Hr. lia.
    + apply Forall_replicate. simpl. lia.
  - intros d Hd. destruct (decide (d < current_start)) as [Hlt|Hge].
    + destruct (Hcover d) as (req & Hreq & Hin); [lia|].
      exists req. split; [|done]. apply elem_of_app. by left.
    + exists (Request lat lon current_start current_end). simpl.
      split; [|lia]. apply elem_of_app. right.
      apply elem_of_replicate. split; [done|lia].
Qed.

Section RequestFacts.

Variable net : nat → request → reply.
Variables lat lon tbase : Qc.
Variable targets : list Z.
Variable highest_target : Z.
Variables start_date end_date_limit : date.
Variable block_days : Z.
Variable w0 : world.

Local Abbreviation body :=
  (loop_body net lat lon tbase targets highest_target end_date_limit block_days).
Local Abbreviation loop fuel :=
  (simulate_loop net fuel lat lon tbase targets highest_target end_date_limit
     block_days).
Local Abbreviation guard := (loop_guard highest_target end_date_limit).

(** How a loop that returns came to its end: by the guard, or by a failed
    fetch in the state it returns. *)
Lemma simulate_loop_exit (P : sim_state → world → Prop) :
  (∀ st w st' w', guard st = true → P st w →
     body st w = Continue st' w' → P st' w') →
  ∀ fuel st w st' w', P st w → loop fuel st w = Some (st', w') →
  (guard st' = false ∧ P st' w')
  ∨ (guard st' = true ∧ ∃ w1, P st' w1 ∧ body st' w1 = Break st' w').
Proof.
  intros Hcont fuel.
  induction fuel as [|fuel IH]; intros st w st' w' HP Hrun; simpl in Hrun.
  - destruct (guard st) eqn:Hguard; [discriminate|]. simplify_eq. by left.
  - destruct (guard st) eqn:Hguard; [|simplify_eq; by left].
    destruct (body st w) as [st1 w1|st1 w1] eqn:Hbody.
    + eapply IH; [|exact Hrun]. by eapply Hcont.
    + pose proof Hbody as Hb. apply loop_body_break in Hb as [-> _].
      simplify_eq. right. split; [done|]. by exists w.
Qed.

Local Abbreviation run_ok :=
  (run_ok lat lon start_date end_date_limit block_days w0).

Lemma world_after_body st w w' new k msgs :
  world_after w0 new w →
  calls w' = (calls w + k)%nat →
  sent w' = sent w ++ replicate k (Request lat lon (current_start st)
              (Z.min (current_start st + (block_days - 1)) end_date_limit)) →
  geocoded w' = geocoded w →
  ui w' = ui w ++ msgs →
  world_after w0
    (new ++ replicate k (Request lat lon (current_start st)
              (Z.min (current_start st + (block_days - 1)) end_date_limit)))
    w'.
Proof.
  intros (Hs & Hc & Hg & msgs0 & Hu) Hc' Hs' Hg' Hu'. unfold world_after.
  rewrite Hs', Hs, Hc', Hc, Hg', Hg, Hu', Hu, length_app, length_replicate.
  rewrite <-!app_assoc. repeat split; try done; [lia|]. by eexists.
Qed.

Lemma run_ok_continue st w st' w' :
  1 ≤ block_days →
  guard st = true → run_ok st w → body st w = Continue st' w' → run_ok st' w'.
Proof.
  intros Hbd Hguard (new & Hworld & Hreqs) Hbody.
  apply guard_true in Hguard as [_ Hcs].
  destruct (loop_body_footprint net lat lon tbase targets highest_target
              end_date_limit block_days st w)
    as (k & msgs & w2 & Hcase & Hk & Hc & Hs & Hg & Hu).
  destruct Hcase as [Hbreak|[st2 Hcont]]; [congruence|].
  rewrite Hbody in Hcont. injection Hcont as <- <-.
  apply loop_body_continue in Hbody as (_ & _ & _ & _ & _ & Hnext).
  destruct (requests_ok_extend lat lon start_date end_date_limit block_days
              (current_start st) new k Hbd Hcs Hreqs) as (_ & _ & Hext).
  eexists. split; [by eapply world_after_body|].
  rewrite Hnext. apply Hext. lia.
Qed.

End RequestFacts.

Lemma run_ok_initial lat lon start_date end_date_limit block_days targets w :
  run_ok lat lon start_date end_date_limit block_days w
    (initial_state targets start_date) w.
Proof.
  exists []. split.
  - unfold world_after. rewrite !app_nil_r, Nat.add_0_r.
    repeat split; try done. exists []. by rewrite app_nil_r.
  - unfold requests_ok. simpl. repeat split; try done; try constructor.
    intros d Hd. lia.
Qed.

(** The requests of a whole run, whatever way it ends. *)
Lemma simulate_gdd_requests net fuel lat lon start_date tbase targets
    max_days block_days w res w' :
  1 ≤ block_days →
  simulate_gdd net fuel lat lon start_date tbase targets max_days block_days w
  = Some (res, w') →
  ∃ new, world_after w new w'
       ∧ Forall (request_ok lat lon start_date (start_date + max_days)
                   block_days) new
       ∧ StronglySorted same_or_earlier new.
Proof.
  intros Hbd. unfold simulate_gdd.
  destruct (max_targets targets) as [highest_target|].
  - fold (initial_state targets start_date).
    destruct (simulate_loop _ _ _ _ _ _ _ _ _ _ _) as [[st w1]|] eqn:Hloop;
      [|discriminate].
    intros Heq. simplify_eq.
    apply (simulate_loop_exit net lat lon tbase targets highest_target
             (start_date + max_days) block_days
             (run_ok lat lon start_date (start_date + max_days) block_days w))
      in Hloop as [[_ Hok]|(Hguard & w1 & Hok & Hbody)].
    + destruct Hok as (new & Hworld & _ & Hall & _ & Hsorted & _).
      by exists new.
    + destruct Hok as (new & Hworld & Hreqs).
      apply guard_true in Hguard as [_ Hcs].
      destruct (loop_body_footprint net lat lon tbase targets highest_target
                  (start_date + max_days) block_days st w1)
        as (k & msgs & w2 & Hcase & Hk & Hc & Hs & Hg & Hu).
      destruct Hcase as [Hbreak|[st2 Hcont]]; [|congruence].
      rewrite Hbody in Hbreak. injection Hbreak as <-.
      destruct (requests_ok_extend lat lon start_date (start_date + max_days)
                  block_days (current_start st) new k Hbd Hcs Hreqs)
        as (Hall & Hsorted & _).
      eexists. split; [by eapply world_after_body|done].
    + intros st0 w0 st1 w2. by apply run_ok_continue.
    + apply run_ok_initial.
  - intros Heq. simplify_eq. exists [].
    split; [|split; constructor].
    unfold world_after. rewrite !app_nil_r, Nat.add_0_r.
    repeat split; try done. exists []. by rewrite app_nil_r.
Qed.

(** X6. With blocks of at least one day, every request of a run carries
    the coordinates of the run, asks for a range of at least one and at
    most [block_days] days that lies between the start date and the
    horizon end, and the run counts one call per request and sends nothing
    to the geocoder. *)
Theorem run_requests_stay_in_horizon (net : nat → request → reply)
    (fuel : nat) (lat lon : Qc) (start_date : date) (tbase : Qc)
    (targets : list Z) (max_days block_days : Z) (w : world)
    (res : exn + sim_result) (w' : world) :
  1 ≤ block_days →
  simulate_gdd net fuel lat lon start_date tbase targets max_days block_days w
  = Some (res, w') →
  ∃ new,
    sent w' = sent w ++ new
    ∧ calls w' = (calls w + length new)%nat
    ∧ geocoded w' = geocoded w
    ∧ Forall (λ req,
        req_lat req = lat ∧ req_lon req = lon
        ∧ start_date ≤ req_start req ≤ req_end req
        ∧ req_end req ≤ start_date + max_days
        ∧ req_end req - req_start req < block_days) new.
Proof.
  intros Hbd Hrun.
  destruct (simulate_gdd_requests _ _ _ _ _ _ _ _ _ _ _ _ Hbd Hrun)
    as (new & (Hs & Hc & Hg & _) & Hall & _).
  by exists new.
Qed.

(** A service that fails twice: the first block is asked for three times,
    then two more blocks follow, all inside days 1 to 10. *)
Lemma run_requests_stay_in_horizon_witness :
  ∃ res w',
    simulate_gdd net_flaky 3 (Qc_of_Z 13) (Qc_of_Z 80) 1 (Qc_of_Z 10)
      [100] 9 3 world0
    = Some (res, w')
    ∧ calls w' = 5%nat
    ∧ Forall (λ req, 1 ≤ req_start req ≤ req_end req ∧ req_end req ≤ 10)
        (sent w').
Proof.
  eexists _, _. split; [vm_compute; reflexivity|].
  split; [reflexivity|].
  edestruct (run_requests_stay_in_horizon net_flaky 3 (Qc_of_Z 13)
               (Qc_of_Z 80) 1 (Qc_of_Z 10) [100] 9 3 world0)
    as (new & Hsent & _ & _ & Hall); [lia|vm_compute; reflexivity|].
  rewrite Hsent. simpl.
  eapply list.Forall_impl; [exact Hall|].
  intros req (_ & _ & Hstart & Hend & _). lia.
Defined.

Lemma StronglySorted_lookup_lt {A} (R : relation A) (l : list A) :
  StronglySorted R l →
  ∀ i j x y, (i < j)%nat → l !! i = Some x → l !! j = Some y → R x y.
Proof.
  induction 1 as [|a l Hl IH Ha]; intros i j x y Hij Hi Hj; [done|].
  destruct j as [|j]; [lia|]. simpl in Hj.
  destruct i as [|i]; simpl in Hi.
  - simplify_eq. apply (proj1 (list.Forall_forall _ _) Ha).
    by eapply list_elem_of_lookup_2.
  - apply (IH i j); [lia|done|done].
Qed.

(** X7. With blocks of at least one day, of two requests of a run the
    later one either repeats the earlier one, as a retry does, or asks for
    dates that all lie after the dates of the earlier one: no day is asked
    for in two different blocks. *)
Theorem run_requests_never_overlap (net : nat → request → reply)
    (fuel : nat) (lat lon : Qc) (start_date : date) (tbase : Qc)
    (targets : list Z) (max_days block_days : Z) (w : world)
    (res : exn + sim_result) (w' : world) :
  1 ≤ block_days →
  simulate_gdd net fuel lat lon start_date tbase targets max_days block_days w
  = Some (res, w') →
  ∃ new,
    sent w' = sent w ++ new
    ∧ ∀ i j r1 r2, (i < j)%nat → new !! i = Some r1 → new !! j = Some r2 →
                   r1 = r2 ∨ req_end r1 < req_start r2.
Proof.
  intros Hbd Hrun.
  destruct (simulate_gdd_requests _ _ _ _ _ _ _ _ _ _ _ _ Hbd Hrun)
    as (new & (Hs & _) & _ & Hsorted).
  exists new. split; [done|].
  intros i j r1 r2 Hij Hi Hj.
  by apply (StronglySorted_lookup_lt _ _ Hsorted i j).
Qed.

(** In the same run the first request, for days 1 to 3, and the fourth, for
    days 4 to 6, do not share a day. *)
Lemma run_requests_never_overlap_witness :
  ∃ res w' r1 r2,
    simulate_gdd net_flaky 3 (Qc_of_Z 13) (Qc_of_Z 80) 1 (Qc_of_Z 10)
      [100] 9 3 world0
    = Some (res, w')
    ∧ sent w' !! 0%nat = Some r1 ∧ sent w' !! 3%nat = Some r2
    ∧ (r1 = r2 ∨ req_end r1 < req_start r2).
Proof.
  eexists _, _, _, _. split; [vm_compute; reflexivity|].
  split; [reflexivity|]. split; [reflexivity|].
  edestruct (run_requests_never_overlap net_flaky 3 (Qc_of_Z 13)
               (Qc_of_Z 80) 1 (Qc_of_Z 10) [100] 9 3 world0)
    as (new & Hsent & Hpairs); [lia|vm_compute; reflexivity|].
  simpl in Hsent. apply (Hpairs 0%nat 3%nat); [lia|..];
    by rewrite <-Hsent.
Defined.

(** ** How many requests a run makes *)

Lemma blocks_left_nonneg block_days end_date_limit current_start :
  1 ≤ block_days → 0 ≤ blocks_left block_days end_date_limit current_start.
Proof.
  intros Hbd. unfold blocks_left. case_decide; [|lia].
  pose proof (Z.div_pos (end_date_limit - current_start) block_days). lia.
Qed.

Lemma blocks_left_next block_days end_date_limit current_start :
  1 ≤ block_days → current_start ≤ end_date_limit →
  blocks_left block_days end_date_limit
    (Z.min (current_start + (block_days - 1)) end_date_limit + 1)
  = blocks_left block_days end_date_limit current_start - 1.
Proof.
  intros Hbd Hcs. unfold blocks_left.
  rewrite (decide_True (P := current_start ≤ end_date_limit)) by done.
  case_decide as Hnext.
  - replace (Z.min (current_start + (block_days - 1)) end_date_limit)
      with (current_start + (block_days - 1)) in * by lia.
    replace (end_date_limit - (current_start + (block_days - 1) + 1))
      with (end_date_limit - current_start + (-1) * block_days) by lia.
    rewrite Z.div_add by lia. lia.
  - assert (end_date_limit - current_start < block_days) by lia.
    rewrite Z.div_small by lia. lia.
Qed.

Lemma simulate_loop_calls net lat lon tbase targets highest_target
    end_date_limit block_days fuel : ∀ st w st' w',
  1 ≤ block_days →
  simulate_loop net fuel lat lon tbase targets highest_target end_date_limit
    block_days st w
  = Some (st', w') →
  Z.of_nat (calls w')
  ≤ Z.of_nat (calls w)
    + 3 * blocks_left block_days end_date_limit (current_start st).
Proof.
  induction fuel as [|fuel IH]; intros st w st' w' Hbd Hrun; simpl in Hrun.
  - destruct (loop_guard _ _ _); [discriminate|]. simplify_eq.
    pose proof (blocks_left_nonneg block_days end_date_limit
                  (current_start st') Hbd). lia.
  - destruct (loop_guard _ _ _) eqn:Hguard.
    + apply guard_true in Hguard as [_ Hcs].
      pose proof (blocks_left_next _ _ _ Hbd Hcs) as Hnext.
      pose proof (blocks_left_nonneg block_days end_date_limit
                    (Z.min (current_start st + (block_days - 1)) end_date_limit
                     + 1) Hbd) as Hpos.
      destruct (loop_body_footprint net lat lon tbase targets highest_target
                  end_date_limit block_days st w)
        as (k & msgs & w2 & Hcase & Hk & Hc & _).
      destruct (loop_body _ _ _ _ _ _ _ _ _ _) as [st1 w1|st1 w1] eqn:Hbody.
      * destruct Hcase as [?|[st2 Hcont]]; [discriminate|].
        injection Hcont as <- <-.
        apply IH in Hrun; [|done].
        apply loop_body_continue in Hbody as (_ & _ & _ & _ & _ & Hcs').
        rewrite Hcs' in Hrun. lia.
      * destruct Hcase as [Hbreak|[st2 ?]]; [|discriminate].
        injection Hbreak as <- <-. simplify_eq. lia.
    + simplify_eq.
      pose proof (blocks_left_nonneg block_days end_date_limit
                    (current_start st') Hbd). lia.
Qed.

Lemma simulate_gdd_calls net fuel lat lon start_date tbase targets max_days
    block_days w res w' :
  1 ≤ block_days →
  simulate_gdd net fuel lat lon start_date tbase targets max_days block_days w
  = Some (res, w') →
  Z.of_nat (calls w') - Z.of_nat (calls w)
  ≤ 3 * Z.max 0 (max_days `div` block_days + 1).
Proof.
  intros Hbd. unfold simulate_gdd.
  destruct (max_targets targets) as [highest_target|].
  - destruct (simulate_loop _ _ _ _ _ _ _ _ _ _ _) as [[st w1]|] eqn:Hloop;
      [|discriminate].
    intros Heq. simplify_eq.
    apply simulate_loop_calls in Hloop; [|done]. simpl in Hloop.
    unfold blocks_left in Hloop. case_decide as Hhorizon.
    + replace (start_date + max_days - start_date) with max_days in Hloop
        by lia. lia.
    + lia.
  - intros Heq. simplify_eq. lia.
Qed.

(** X8. With blocks of at least one day, a run makes at most three
    requests for each block of the horizon, and the horizon of
    [max_days + 1] days has [max_days / block_days + 1] blocks; a negative
    horizon has none. *)
Theorem run_request_budget (net : nat → request → reply)
    (fuel : nat) (lat lon : Qc) (start_date : date) (tbase : Qc)
    (targets : list Z) (max_days block_days : Z) (w : world)
    (res : exn + sim_result) (w' : world) :
  1 ≤ block_days →
  simulate_gdd net fuel lat lon start_date tbase targets max_days block_days w
  = Some (res, w') →
  Z.of_nat (calls w') - Z.of_nat (calls w)
  ≤ 3 * Z.max 0 (max_days `div` block_days + 1).
Proof. apply simulate_gdd_calls. Qed.

(** An unreachable service over the default horizon: three requests, well
    below the bound of 111. *)
Lemma run_request_budget_witness :
  ∃ res w',
    simulate_gdd net_down 40 (Qc_of_Z 13) (Qc_of_Z 80) 1 (Qc_of_Z 10)
      default_targets default_max_days default_block_days world0
    = Some (res, w')
    ∧ calls w' = 3%nat
    ∧ Z.of_nat (calls w') - 0 ≤ 111.
Proof.
  destruct (simulate_gdd net_down 40 (Qc_of_Z 13) (Qc_of_Z 80) 1 (Qc_of_Z 10)
              default_targets default_max_days default_block_days world0)
    as [[res w']|] eqn:Hrun; [|vm_compute in Hrun; discriminate].
  exists res, w'. split; [reflexivity|].
  pose proof (run_request_budget net_down 40 (Qc_of_Z 13) (Qc_of_Z 80) 1
                (Qc_of_Z 10) default_targets default_max_days
                default_block_days world0 res w') as Hbudget.
  vm_compute in Hrun. injection Hrun as <- <-.
  split; [reflexivity|]. apply Hbudget; [unfold default_block_days; lia|].
  vm_compute. reflexivity.
Defined.

(** ** Why a run ends *)

Lemma totals_ok_continue net lat lon tbase targets highest_target
    end_date_limit block_days st w st' w' :
  totals_ok tbase st →
  loop_body net lat lon tbase targets highest_target end_date_limit
    block_days st w
  = Continue st' w' →
  totals_ok tbase st'.
Proof.
  intros Hok Hbody.
  apply loop_body_continue in Hbody as (rows & _ & Hh & _ & Hc & _).
  pose proof (totals_ok_process_block tbase targets highest_target rows st Hok)
    as Hok1.
  unfold totals_ok. rewrite Hh, Hc. exact Hok1.
Qed.

(** X9. With blocks of at least one day, a run that returns a result ended
    for one of three reasons: the test [cum_gdd < highest_target] of the
    loop is false of the total that the history ends with; or a fetch
    failed, and then the last two messages are [Error_stopped] and
    [Info_try_later]; or every day from the start date to the horizon end
    lies in the range of some request of the run. *)
Theorem run_ends_for_a_reason (net : nat → request → reply)
    (fuel : nat) (lat lon : Qc) (start_date : date) (tbase : Qc)
    (targets : list Z) (max_days block_days : Z) (w : world)
    (highest_target : Z) (history : list gdd_record)
    (stages : gmap Z (option date)) (w' : world) :
  1 ≤ block_days →
  max_targets targets = Some highest_target →
  simulate_gdd net fuel lat lon start_date tbase targets max_days block_days w
  = Some (inr (history, stages), w') →
  ¬ (last_total history < Qc_of_Z highest_target)%Qc
  ∨ (∃ msgs cs ce, ui w' = msgs ++ [Error_stopped cs ce; Info_try_later])
  ∨ (∃ new, sent w' = sent w ++ new
          ∧ ∀ d, start_date ≤ d ≤ start_date + max_days → requested new d).
Proof.
  intros Hbd Hmax Hrun.
  apply simulate_gdd_returned in Hrun as (highest & st & Hmax' & Hloop & <- & _).
  rewrite Hmax in Hmax'. injection Hmax' as <-.
  apply (simulate_loop_exit net lat lon tbase targets highest_target
           (start_date + max_days) block_days
           (λ st w1, totals_ok tbase st
                     ∧ run_ok lat lon start_date (start_date + max_days)
                         block_days w st w1))
    in Hloop as [[Hguard [Htotals Hok]]|(Hguard & w1 & _ & Hbody)].
  - unfold loop_guard in Hguard. apply andb_false_iff in Hguard as [Hcum|Hcs].
    + left. apply bool_decide_eq_false in Hcum.
      by rewrite <-(totals_ok_last_total tbase st).
    + right. right. apply bool_decide_eq_false in Hcs.
      destruct Hok as (new & (Hsent & _) & _ & _ & _ & _ & Hcover).
      exists new. split; [done|]. intros d Hd. apply Hcover. lia.
  - right. left.
    apply loop_body_break in Hbody as (_ & e & w2 & _ & _ & _ & Hui).
    eauto.
  - intros st0 w0 st1 w2 Hguard [Htotals Hok] Hbody. split.
    + by eapply totals_ok_continue.
    + by eapply run_ok_continue.
  - split; [apply totals_ok_initial|apply run_ok_initial].
Qed.

(** A service without data over a horizon of three days: the run ends
    because day 2, like every day of the horizon, was asked for. *)
Lemma run_ends_for_a_reason_witness :
  ∃ history stages w',
    simulate_gdd net_empty 5 (Qc_of_Z 13) (Qc_of_Z 80) 1 (Qc_of_Z 10)
      [100] 2 30 world0
    = Some (inr (history, stages), w')
    ∧ requested (sent w') 2.
Proof.
  eexists _, _, _. split; [vm_compute; reflexivity|].
  edestruct (run_ends_for_a_reason net_empty 5 (Qc_of_Z 13) (Qc_of_Z 80) 1
               (Qc_of_Z 10) [100] 2 30 world0 100)
    as [Hreached|[Hfailed|Hcovered]];
    [lia|reflexivity|vm_compute; reflexivity|..].
  - exfalso. apply Hreached. reflexivity.
  - exfalso. destruct Hfailed as (msgs & cs & ce & Hui).
    apply (f_equal list.last) in Hui.
    change (msgs ++ [Error_stopped cs ce; Info_try_later])
      with (msgs ++ [Error_stopped cs ce] ++ [Info_try_later]) in Hui.
    rewrite app_assoc, last_snoc in Hui. discriminate Hui.
  - destruct Hcovered as (new & Hsent & Hcover).
    simpl in Hsent. rewrite Hsent. apply Hcover. lia.
Defined.

(** ** Where the records come from *)

Lemma build_rows_values (tmax_dict tmin_dict : gmap Z Qc) (keys : list Z) :
  ∀ rows, build_rows tmax_dict tmin_dict keys = inr rows →
  Forall (λ row, tmax_dict !! obs_date row = Some (obs_tmax row)
                 ∧ tmin_dict !! obs_date row = Some (obs_tmin row)) rows.
Proof.
  induction keys as [|d keys IH]; intros rows Hrows; simpl in Hrows.
  - simplify_eq. constructor.
  - destruct (tmax_dict !! d) eqn:Hx, (tmin_dict !! d) eqn:Hn;
      try discriminate.
    destruct (build_rows tmax_dict tmin_dict keys) as [e|rows'];
      [discriminate|].
    simplify_eq. constructor; [done|]. by apply IH.
Qed.

Lemma records_of_observation tbase rows acc r :
  r ∈ records_of tbase acc rows → observation_of r ∈ rows.
Proof.
  intros Hr. rewrite <-(observation_of_records_of tbase rows acc).
  by apply list_elem_of_fmap_2.
Qed.

(** Each row of a fetch is a day of some reply without error status. *)
Lemma fetch_rows_served net lat lon start_date end_date max_retries w rows w' :
  get_power_daily_tmax_tmin net lat lon start_date end_date max_retries w
  = (inr rows, w') →
  Forall (λ row, ∀ r, observation_of r = row → served net r) rows.
Proof.
  unfold get_power_daily_tmax_tmin, mbind, M_bind. intros Hfetch.
  destruct (retry_loop net max_retries 1 max_retries
              (Request lat lon start_date end_date) w)
    as [[e|body] w1] eqn:Hretry; [discriminate|].
  apply retry_loop_returns_ok in Hretry as (i & status & Hreply & Hstatus).
  unfold parse_body in Hfetch.
  destruct (parameter body) as [param_data|] eqn:Hparam; [|discriminate].
  destruct (T2M_MAX param_data) as [tmax_dict|] eqn:Hmax; [|discriminate].
  destruct (T2M_MIN param_data) as [tmin_dict|] eqn:Hmin; [|discriminate].
  destruct (build_rows tmax_dict tmin_dict (sorted_keys tmax_dict))
    as [e|rows0] eqn:Hrows; [discriminate|].
  unfold mret, M_ret in Hfetch. simplify_eq.
  apply build_rows_values in Hrows.
  eapply list.Forall_impl; [exact Hrows|]. simpl.
  intros row [Hx Hn] r <-. unfold served.
  exists i, (Request lat lon start_date end_date), status, body, param_data,
    tmax_dict, tmin_dict.
  by repeat split.
Qed.

(** X10. Every record of a run holds, for its date, the two temperatures
    that some reply of the service without error status gave for that
    date: the run adds no day and alters no temperature. *)
Theorem records_come_from_replies (net : nat → request → reply)
    (fuel : nat) (lat lon : Qc) (start_date : date) (tbase : Qc)
    (targets : list Z) (max_days block_days : Z) (w : world)
    (history : list gdd_record) (stages : gmap Z (option date)) (w' : world) :
  simulate_gdd net fuel lat lon start_date tbase targets max_days block_days w
  = Some (inr (history, stages), w') →
  Forall (served net) history.
Proof.
  intros Hrun.
  apply simulate_gdd_returned in Hrun
    as (highest_target & st & _ & Hloop & <- & _).
  refine (simulate_loop_invariant net lat lon tbase targets highest_target
            (start_date + max_days) block_days
            (λ st, Forall (served net) (history_rows st))
            _ fuel (initial_state targets start_date) w st w' _ Hloop);
    [|constructor].
  intros st0 w0 st1 w1 _ Hok Hbody.
  apply loop_body_continue in Hbody as (rows & Hfetch & Hh & _).
  apply fetch_rows_served in Hfetch.
  destruct (process_block_records tbase targets highest_target rows st0)
    as (k & Hhist & _).
  rewrite Hh, Hhist. apply Forall_app. split; [done|].
  apply list.Forall_forall. intros r Hr.
  apply records_of_observation in Hr.
  apply (proj1 (list.Forall_forall _ _) Hfetch (observation_of r));
    [|done].
  by eapply subseteq_take.
Qed.

(** The first record of the ten warm days is the day that the steady
    service gives for date 1. *)
Lemma records_come_from_replies_witness :
  ∃ history stages w',
    simulate_gdd net_steady 10 (Qc_of_Z 13) (Qc_of_Z 80) 1 (Qc_of_Z 10)
      [100; 300] 9 30 world0
    = Some (inr (history, stages), w')
    ∧ ∃ r, history !! 0%nat = Some r ∧ served net_steady r.
Proof.
  eexists _, _, _. split; [vm_compute; reflexivity|].
  eexists. split; [reflexivity|].
  eapply (proj1 (list.Forall_forall _ _)
            (records_come_from_replies net_steady 10 (Qc_of_Z 13) (Qc_of_Z 80)
               1 (Qc_of_Z 10) [100; 300] 9 30 world0 _ _ _ _)).
  apply list_elem_of_here.
  Unshelve. all: try (vm_compute; reflexivity).
Defined.

(** X11. When the service keeps every reply inside the requested range,
    no record of a run is dated before the start date or after the horizon
    end. *)
Theorem records_stay_in_horizon (net : nat → request → reply)
    (fuel : nat) (lat lon : Qc) (start_date : date) (tbase : Qc)
    (targets : list Z) (max_days block_days : Z) (w : world)
    (history : list gdd_record) (stages : gmap Z (option date)) (w' : world) :
  within_request net →
  simulate_gdd net fuel lat lon start_date tbase targets max_days block_days w
  = Some (inr (history, stages), w') →
  Forall (λ r, start_date ≤ rec_date r ≤ start_date + max_days) history.
Proof.
  intros Hnet Hrun.
  apply simulate_gdd_returned in Hrun
    as (highest_target & st & _ & Hloop & <- & _).
  assert (Forall (λ r, start_date ≤ rec_date r ≤ start_date + max_days)
            (history_rows st)
          ∧ (1 ≤ block_days → start_date ≤ current_start st)) as [Hin _];
    [|exact Hin].
  refine (simulate_loop_invariant net lat lon tbase targets highest_target
            (start_date + max_days) block_days
            (λ st, Forall (λ r, start_date ≤ rec_date r ≤ start_date + max_days)
                     (history_rows st)
                   ∧ (1 ≤ block_days → start_date ≤ current_start st))
            _ fuel (initial_state targets start_date) w st w' _ Hloop);
    [|split; [constructor|simpl; lia]].
  intros st0 w0 st1 w1 Hguard [Hin Hcs] Hbody.
  apply guard_true in Hguard as [_ Hlimit].
  apply loop_body_continue in Hbody as (rows & Hfetch & Hh & _ & _ & Hnext).
  apply fetch_rows_ascending in Hfetch as [_ Hrange]. specialize (Hrange Hnet).
  destruct (process_block_records tbase targets highest_target rows st0)
    as (k & Hhist & _).
  split; [|intros Hbd; specialize (Hcs Hbd); lia].
  rewrite Hh, Hhist. apply Forall_app. split; [done|].
  apply list.Forall_forall. intros r Hr.
  apply records_of_observation in Hr.
  apply (subseteq_take k rows) in Hr.
  pose proof (proj1 (list.Forall_forall _ _) Hrange _ Hr) as Hd.
  simpl in Hd. destruct (decide (1 ≤ block_days)) as [Hbd|Hbd]; [|lia].
  specialize (Hcs Hbd). lia.
Qed.

(** The ten warm days all lie between day 1 and day 10. *)
Lemma records_stay_in_horizon_witness :
  ∃ history stages w',
    simulate_gdd net_steady 10 (Qc_of_Z 13) (Qc_of_Z 80) 1 (Qc_of_Z 10)
      [100; 300] 9 3 world0
    = Some (inr (history, stages), w')
    ∧ Forall (λ r, 1 ≤ rec_date r ≤ 10) history.
Proof.
  eexists _, _, _. split; [vm_compute; reflexivity|].
  eapply (records_stay_in_horizon net_steady 10 (Qc_of_Z 13) (Qc_of_Z 80) 1
            (Qc_of_Z 10) [100; 300] 9 3 world0);
    [apply net_steady_within_request|].
  vm_compute. reflexivity.
Defined.

(** ** More on the stage map *)

(** The stage map and the totals of a result satisfy their invariants. *)
Lemma simulate_gdd_result_ok net fuel lat lon start_date tbase targets
    max_days block_days w history stages w' :
  simulate_gdd net fuel lat lon start_date tbase targets max_days block_days w
  = Some (inr (history, stages), w') →
  (∀ thr, stages !! thr
          = if decide (thr ∈ targets)
            then Some (first_crossing thr history) else None)
  ∧ StronglySorted Qcle (GDD_cum <$> history).
Proof.
  intros Hrun.
  apply simulate_gdd_returned in Hrun
    as (highest_target & st & _ & Hloop & <- & <-).
  assert (stage_ok targets st ∧ cum_ok highest_target st)
    as [Hstage (_ & Hsorted & _)]; [|by split].
  refine (simulate_loop_invariant net lat lon tbase targets highest_target
            (start_date + max_days) block_days
            (λ st, stage_ok targets st ∧ cum_ok highest_target st)
            _ fuel (initial_state targets start_date) w st w' _ Hloop).
  - intros st0 w0 st1 w1 Hguard [Hstage Hcum] Hbody.
    apply loop_body_continue in Hbody as (rows & _ & Hh & Hs & Hc & _).
    split.
    + pose proof (stage_ok_process_block tbase targets highest_target rows st0
                    Hstage) as Hok1.
      intros thr. rewrite Hs, Hh. apply Hok1.
    + pose proof (cum_ok_process_block tbase targets highest_target rows st0
                    Hcum) as Hok1.
      unfold cum_ok. rewrite Hh, Hc. exact Hok1.
  - split; [apply stage_ok_initial|apply cum_ok_initial].
Qed.

(** X12. The keys of the stage map of a result are exactly the targets:
    no target is dropped and no other key appears, so a lookup of a target
    never misses. *)
Theorem stage_map_keys_are_targets (net : nat → request → reply)
    (fuel : nat) (lat lon : Qc) (start_date : date) (tbase : Qc)
    (targets : list Z) (max_days block_days : Z) (w : world)
    (history : list gdd_record) (stages : gmap Z (option date)) (w' : world) :
  simulate_gdd net fuel lat lon start_date tbase targets max_days block_days w
  = Some (inr (history, stages), w') →
  dom stages = list_to_set targets.
Proof.
  intros Hrun. apply simulate_gdd_result_ok in Hrun as [Hstage _].
  apply set_eq. intros thr.
  rewrite elem_of_dom, elem_of_list_to_set, (Hstage thr).
  case_decide; split; try done.
Qed.

(** Targets given out of order and twice: the keys are the two targets. *)
Lemma stage_map_keys_are_targets_witness :
  ∃ history stages w',
    simulate_gdd net_steady 10 (Qc_of_Z 13) (Qc_of_Z 80) 1 (Qc_of_Z 10)
      [300; 100; 300] 9 30 world0
    = Some (inr (history, stages), w')
    ∧ dom stages = {[ 100; 300 ]}.
Proof.
  eexists _, _, _. split; [vm_compute; reflexivity|].
  erewrite (stage_map_keys_are_targets net_steady 10 (Qc_of_Z 13) (Qc_of_Z 80)
              1 (Qc_of_Z 10) [300; 100; 300] 9 30 world0);
    [|vm_compute; reflexivity].
  set_solver.
Defined.

Lemma first_crossing_Some (thr : Z) (history : list gdd_record) :
  is_Some (first_crossing thr history)
  ↔ ∃ r, r ∈ history ∧ (Qc_of_Z thr ≤ GDD_cum r)%Qc.
Proof.
  induction history as [|r history IH]; simpl.
  - split; [by intros [? ?]|]. intros (r & Hr & _). by apply elem_of_nil in Hr.
  - case_decide as Hle.
    + split; [|by eexists]. intros _. exists r. split; [by left|done].
    + rewrite IH. split.
      * intros (r' & Hr' & Hle'). exists r'. split; [by right|done].
      * intros (r' & [->|Hr']%elem_of_cons & Hle'); [done|]. eauto.
Qed.

Lemma sorted_totals_last (history : list gdd_record) (r r' : gdd_record) :
  StronglySorted Qcle (GDD_cum <$> history) →
  list.last history = Some r → r' ∈ history → (GDD_cum r' ≤ GDD_cum r)%Qc.
Proof.
  intros Hsorted [h ->]%last_Some Hr'.
  apply elem_of_app in Hr' as [Hr'|Hr'].
  - rewrite fmap_app in Hsorted.
    apply (StronglySorted_app_1_elem_of _ _ _ _ _ Hsorted).
    + by apply list_elem_of_fmap_2.
    + simpl. by left.
  - apply list_elem_of_singleton in Hr' as ->. apply Qcle_refl.
Qed.

(** On rationals: in the result of a run a target has a date exactly when
    the total of the last record has reached it. *)
Lemma rational_target_is_set_iff_reached (net : nat → request → reply)
    (fuel : nat) (lat lon : Qc) (start_date : date) (tbase : Qc)
    (targets : list Z) (max_days block_days : Z) (w : world)
    (history : list gdd_record) (stages : gmap Z (option date)) (w' : world)
    (thr : Z) :
  simulate_gdd net fuel lat lon start_date tbase targets max_days block_days w
  = Some (inr (history, stages), w') →
  thr ∈ targets →
  (∃ d, stages !! thr = Some (Some d))
  ↔ (∃ r, list.last history = Some r ∧ (Qc_of_Z thr ≤ GDD_cum r)%Qc).
Proof.
  intros Hrun Hthr. apply simulate_gdd_result_ok in Hrun as [Hstage Hsorted].
  rewrite (Hstage thr), decide_True by done. split.
  - intros [d Hd].
    assert (is_Some (first_crossing thr history)) as Hsome
      by (exists d; congruence).
    apply first_crossing_Some in Hsome as (r' & Hr' & Hle).
    destruct (list.last history) as [r|] eqn:Hlast.
    + exists r. split; [done|]. eapply Qcle_trans; [exact Hle|].
      by eapply sorted_totals_last.
    + apply last_None in Hlast. subst. by apply elem_of_nil in Hr'.
  - intros (r & Hlast & Hle).
    assert (is_Some (first_crossing thr history)) as [d Hd].
    { apply first_crossing_Some. exists r. split; [|done].
      by apply last_Some_elem_of. }
    exists d. by rewrite Hd.
Qed.

Lemma Qc_of_Z_le (a b : Z) : a ≤ b → (Qc_of_Z a ≤ Qc_of_Z b)%Qc.
Proof.
  intros Hab. unfold Qcle, Qc_of_Z. cbn [this]. by rewrite <-Zle_Qle.
Qed.

Lemma first_crossing_elem (thr : Z) (history : list gdd_record) (d : date) :
  first_crossing thr history = Some d → d ∈ rec_date <$> history.
Proof.
  induction history as [|r history IH]; simpl; [done|].
  case_decide.
  - intros [= <-]. by left.
  - intros Hd. right. by apply IH.
Qed.

(** A lower target is crossed at a record that is not later than the
    record at which a higher one is crossed. *)
Lemma first_crossing_mono (thr1 thr2 : Z) (history : list gdd_record) (d2 : date) :
  thr1 ≤ thr2 →
  first_crossing thr2 history = Some d2 →
  ∃ d1, first_crossing thr1 history = Some d1
      ∧ (StronglySorted Z.lt (rec_date <$> history) → d1 ≤ d2).
Proof.
  intros Hthr. apply Qc_of_Z_le in Hthr.
  induction history as [|r history IH]; simpl; [done|].
  destruct (decide (Qc_of_Z thr2 ≤ GDD_cum r)%Qc) as [H2|H2].
  - intros [= <-]. rewrite decide_True by (by eapply Qcle_trans).
    exists (rec_date r). split; [done|]. intros _. lia.
  - intros Hd2. destruct (decide (Qc_of_Z thr1 ≤ GDD_cum r)%Qc) as [H1|H1].
    + exists (rec_date r). split; [done|].
      intros [Hhd _]%StronglySorted_cons.
      apply first_crossing_elem in Hd2.
      pose proof (proj1 (list.Forall_forall _ _) Hhd d2 Hd2). lia.
    + destruct (IH Hd2) as (d1 & Hd1 & Hle). exists d1. split; [done|].
      intros [_ Htl]%StronglySorted_cons. by apply Hle.
Qed.

(** X14. In the result of a run, when a target has a date then every
    lower target has a date too; and when the service keeps every reply
    inside the requested range, the date of the lower target is not later
    than the date of the higher one. *)
Theorem stage_dates_follow_targets (net : nat → request → reply)
    (fuel : nat) (lat lon : Qc) (start_date : date) (tbase : Qc)
    (targets : list Z) (max_days block_days : Z) (w : world)
    (history : list gdd_record) (stages : gmap Z (option date)) (w' : world)
    (thr1 thr2 : Z) (d2 : date) :
  simulate_gdd net fuel lat lon start_date tbase targets max_days block_days w
  = Some (inr (history, stages), w') →
  thr1 ∈ targets → thr1 ≤ thr2 →
  stages !! thr2 = Some (Some d2) →
  ∃ d1, stages !! thr1 = Some (Some d1) ∧ (within_request net → d1 ≤ d2).
Proof.
  intros Hrun Hthr1 Hle Hd2.
  pose proof (simulate_gdd_result_ok _ _ _ _ _ _ _ _ _ _ _ _ _ Hrun)
    as [Hstage _].
  rewrite (Hstage thr2) in Hd2. case_decide; [|discriminate].
  injection Hd2 as Hd2.
  destruct (first_crossing_mono thr1 thr2 history d2 Hle Hd2)
    as (d1 & Hd1 & Hdates).
  exists d1. rewrite (Hstage thr1), decide_True, Hd1 by done.
  split; [done|]. intros Hnet. apply Hdates.
  apply simulate_gdd_returned in Hrun
    as (highest_target & st & _ & Hloop & <- & _).
  assert (dates_ok block_days st) as [Hsorted _]; [|exact Hsorted].
  refine (simulate_loop_invariant net lat lon tbase targets highest_target
            (start_date + max_days) block_days (dates_ok block_days)
            _ fuel (initial_state targets start_date) w st w' _ Hloop).
  - intros st0 w0 st1 w1 Hguard Hok Hbody. by eapply dates_ok_step.
  - unfold dates_ok. simpl. split; [apply SSorted_nil|].
    split; [intros _; apply List.Forall_nil|done].
Qed.

(** The default targets under a steady service: 300 is crossed on day 20,
    and 100, crossed on day 7, comes before it. *)
Lemma stage_dates_follow_targets_witness :
  ∃ history stages w' d1,
    simulate_gdd net_steady 5 (Qc_of_Z 13) (Qc_of_Z 80) 1 (Qc_of_Z 10)
      default_targets default_max_days default_block_days world0
    = Some (inr (history, stages), w')
    ∧ stages !! 300 = Some (Some 20)
    ∧ stages !! 100 = Some (Some d1) ∧ d1 ≤ 20.
Proof.
  destruct (simulate_gdd net_steady 5 (Qc_of_Z 13) (Qc_of_Z 80) 1 (Qc_of_Z 10)
              default_targets default_max_days default_block_days world0)
    as [[[e|[history stages]] w']|] eqn:Hrun;
    [vm_compute in Hrun; discriminate| |vm_compute in Hrun; discriminate].
  pose proof (stage_dates_follow_targets net_steady 5 (Qc_of_Z 13)
                (Qc_of_Z 80) 1 (Qc_of_Z 10) default_targets default_max_days
                default_block_days world0 history stages w' 100 300 20 Hrun)
    as Hfollow.
  vm_compute in Hrun. injection Hrun as <- <- <-.
  destruct Hfollow as (d1 & Hd1 & Hle);
    [by left|lia|vm_compute; reflexivity|].
  eexists _, _, _, d1. split; [reflexivity|].
  split; [vm_compute; reflexivity|].
  split; [exact Hd1|]. apply Hle, net_steady_within_request.
Defined.

(** ** The form *)

Lemma Forall2_elem_of_r {A B} (R : A → B → Prop) (l : list A) (k : list B) y :
  Forall2 R l k → y ∈ k → ∃ x, x ∈ l ∧ R x y.
Proof.
  induction 1 as [|x y' l k Hxy Hlk IH]; intros Hy.
  - by apply elem_of_nil in Hy.
  - apply elem_of_cons in Hy as [->|Hy].
    + exists x. split; [by left|done].
    + destruct (IH Hy) as (x' & Hx' & HR). exists x'. split; [by right|done].
Qed.

Lemma Forall2_elem_of_l {A B} (R : A → B → Prop) (l : list A) (k : list B) x :
  Forall2 R l k → x ∈ l → ∃ y, y ∈ k ∧ R x y.
Proof.
  induction 1 as [|x' y l k Hxy Hlk IH]; intros Hx.
  - by apply elem_of_nil in Hx.
  - apply elem_of_cons in Hx as [->|Hx].
    + exists y. split; [by left|done].
    + destruct (IH Hx) as (y' & Hy' & HR). exists y'. split; [by right|done].
Qed.

(** X15. The targets that line 169 makes of the typed text are strictly
    ascending, hence without duplicates, and they are exactly the integers
    of the non-blank pieces between the commas, in whatever order and how
    often they were typed. *)
Theorem parse_targets_sorted_set (targets_input : string) (targets : list Z) :
  parse_targets targets_input = Some targets →
  StronglySorted Z.lt targets
  ∧ ∀ z, z ∈ targets
         ↔ ∃ piece, piece ∈ Py.split ","%char targets_input
                  ∧ Py.strip piece ≠ EmptyString
                  ∧ Py.int (Py.strip piece) = Some z.
Proof.
  unfold parse_targets. intros Hparse.
  destruct (mapM _ _) as [ints|] eqn:Hints; [|discriminate].
  simpl in Hparse. injection Hparse as <-.
  apply mapM_Some_1 in Hints. split.
  - apply StronglySorted_le_lt.
    + apply StronglySorted_merge_sort; apply _.
    + rewrite merge_sort_Permutation. apply NoDup_remove_dups.
  - intros z. rewrite merge_sort_Permutation, elem_of_remove_dups. split.
    + intros Hz.
      destruct (Forall2_elem_of_r _ _ _ _ Hints Hz) as (piece & Hpiece & Hint).
      apply list_elem_of_filter in Hpiece as [Hblank Hpiece]. eauto.
    + intros (piece & Hpiece & Hblank & Hint).
      destruct (Forall2_elem_of_l _ _ _ piece Hints) as (z' & Hz' & Hint').
      { by apply list_elem_of_filter. }
      simpl in Hint'. congruence.
Qed.

(** Typed out of order, with a blank piece and a repetition. *)
Lemma parse_targets_sorted_set_witness :
  parse_targets "500, 100,,300 ,100" = Some [100; 300; 500]
  ∧ StronglySorted Z.lt [100; 300; 500].
Proof.
  split; [reflexivity|].
  apply (parse_targets_sorted_set "500, 100,,300 ,100" [100; 300; 500]).
  reflexivity.
Defined.

(** Reading the targets changes nothing of the world but the messages, and
    never raises. *)
Lemma read_targets_footprint (f : form) (w : world) :
  ∃ targets msgs,
    read_targets f w
    = (inr targets, World (calls w) (sent w) (geocoded w) (ui w ++ msgs)).
Proof.
  unfold read_targets.
  destruct (customize_targets f);
    [destruct (parse_targets (targets_input f)) as [targets|]|].
  - exists targets, []. rewrite app_nil_r. by destruct w.
  - by exists default_targets, [Error_targets_not_integers].
  - exists default_targets, []. rewrite app_nil_r. by destruct w.
Qed.

Lemma main_no_location net geocoder fuel f w :
  run_button f = false
  ∨ (use_manual_coords f = false
     ∧ (place_name f = EmptyString ∨ geocoder (place_name f) = None)) →
  ∃ w', main net geocoder fuel f w = Some (inr (), w')
      ∧ sent w' = sent w ∧ calls w' = calls w.
Proof.
  intros Hcase. unfold main.
  destruct (read_targets_footprint f w) as (targets & msgs & ->).
  destruct (run_button f); [|by eexists].
  destruct Hcase as [?|[Hmanual Hplace]]; [discriminate|].
  unfold read_location. rewrite Hmanual.
  case_decide as Hname.
  - by eexists.
  - destruct Hplace as [?|Hnone]; [done|].
    unfold mbind, M_bind, geocode_place. simpl. rewrite Hnone. by eexists.
Qed.

(** X16. [main] asks NASA POWER for nothing unless the button is pressed
    and a location is at hand: with the button not pressed, or without
    manual coordinates when the place name is empty or the geocoder finds
    nothing, it returns normally and no request was made. *)
Theorem main_without_location_sends_nothing
    (net : nat → request → reply) (geocoder : string → option (Qc * Qc))
    (fuel : nat) (f : form) (w : world) :
  run_button f = false
  ∨ (use_manual_coords f = false
     ∧ (place_name f = EmptyString ∨ geocoder (place_name f) = None)) →
  ∃ w', main net geocoder fuel f w = Some (inr (), w')
      ∧ sent w' = sent w ∧ calls w' = calls w.
Proof. apply main_no_location. Qed.

(** Without manual coordinates and with no geocoder at hand, pressing the
    button sends nothing. *)
Lemma main_without_location_sends_nothing_witness :
  ∃ w', main net_steady no_geocoder 5 form_place world0 = Some (inr (), w')
      ∧ sent w' = [] ∧ calls w' = 0%nat.
Proof.
  apply (main_without_location_sends_nothing net_steady no_geocoder 5
           form_place world0).
  right. split; [reflexivity|]. by right.
Defined.

Lemma filter_none {A} (P : A → Prop) `{∀ x, Decision (P x)} (l : list A) :
  (∀ x, x ∈ l → ¬ P x) → filter P l = [].
Proof.
  induction l as [|x l IH]; intros Hnone; [done|].
  rewrite filter_cons_False by (apply Hnone; by left).
  apply IH. intros y Hy. apply Hnone. by right.
Qed.

(** X17. When the box for custom targets is ticked and every piece of the
    text between commas is blank, as for an empty text, the tuple of
    targets is empty: with the button pressed and a location at hand,
    [main] ends with the [ValueError] of [max(targets)] and no request was
    made. *)
Theorem main_blank_targets_raise
    (net : nat → request → reply) (geocoder : string → option (Qc * Qc))
    (fuel : nat) (f : form) (w : world) :
  customize_targets f = true →
  (∀ piece, piece ∈ Py.split ","%char (targets_input f) →
            Py.strip piece = EmptyString) →
  run_button f = true →
  use_manual_coords f = true
  ∨ (place_name f ≠ EmptyString ∧ is_Some (geocoder (place_name f))) →
  ∃ w', main net geocoder fuel f w = Some (inl ValueError, w')
      ∧ sent w' = sent w ∧ calls w' = calls w.
Proof.
  intros Hcustom Hblank Hbutton Hlocation.
  assert (parse_targets (targets_input f) = Some []) as Hparse.
  { unfold parse_targets. rewrite filter_none; [done|].
    intros piece Hpiece Hne. by apply Hne, Hblank. }
  unfold main, read_targets. rewrite Hcustom, Hparse, Hbutton. simpl.
  unfold read_location.
  destruct Hlocation as [Hmanual|[Hname [[la lo] Hgeo]]].
  - rewrite Hmanual. simpl. by eexists.
  - destruct (use_manual_coords f); [simpl; by eexists|].
    rewrite decide_False by done.
    unfold mbind, M_bind, geocode_place. simpl. rewrite Hgeo. simpl.
    by eexists.
Qed.

(** The custom targets left as two blanks around a comma. *)
Lemma main_blank_targets_raise_witness :
  ∃ w',
    main net_steady no_geocoder 5
      (Form "Chennai, India" 1 (Qc_of_Z 10) true true " , " true
         (Qc_of_Z 13) (Qc_of_Z 80))
      world0
    = Some (inl ValueError, w')
    ∧ sent w' = [] ∧ calls w' = 0%nat.
Proof.
  apply (main_blank_targets_raise net_steady no_geocoder 5
           (Form "Chennai, India" 1 (Qc_of_Z 10) true true " , " true
              (Qc_of_Z 13) (Qc_of_Z 80))
           world0).
  - reflexivity.
  - intros piece Hpiece. vm_compute in Hpiece.
    apply elem_of_cons in Hpiece as [->|Hpiece]; [reflexivity|].
    apply list_elem_of_singleton in Hpiece as ->. reflexivity.
  - reflexivity.
  - by left.
Defined.

(** The end of [main] after a location was found: the run, then one
    message.  [Hg] and [Hc] say what the world before the run holds. *)
Ltac finish_run :=
  let Hrun := fresh "Hrun" in
  let Hcalls := fresh "Hcalls" in
  let Hg4 := fresh "Hg4" in
  let Heq := fresh "Heq" in
  destruct (simulate_gdd _ _ _ _ _ _ _ _ _ _) as [[? ?]|] eqn:Hrun;
    [|discriminate];
  pose proof Hrun as Hcalls;
  (apply simulate_gdd_calls in Hcalls; [|unfold default_block_days; lia]);
  (apply simulate_gdd_requests in Hrun as (? & (_ & _ & Hg4 & _) & _);
     [|unfold default_block_days; lia]);
  cbn [calls geocoded] in Hg4, Hcalls;
  repeat case_match; intros Heq; unfold emit in Heq; simplify_eq;
  cbn [calls geocoded]; rewrite Hg4;
  (split; [by rewrite ?app_nil_r|lia]).

(** What [main] does to the world, whatever way it ends. *)
Lemma main_footprint net geocoder fuel f w res w' :
  main net geocoder fuel f w = Some (res, w') →
  geocoded w'
  = geocoded w
    ++ (if run_button f && negb (use_manual_coords f)
           && bool_decide (place_name f ≠ EmptyString)
        then [place_name f] else [])
  ∧ Z.of_nat (calls w') - Z.of_nat (calls w)
    ≤ 3 * Z.max 0 (default_max_days `div` default_block_days + 1).
Proof.
  assert (0 ≤ 3 * Z.max 0 (default_max_days `div` default_block_days + 1))
    as Hpos by lia.
  unfold main.
  destruct (read_targets_footprint f w) as (targets & msgs & ->).
  destruct (run_button f); cbn [andb];
    [|intros; simplify_eq; cbn [calls geocoded]; rewrite app_nil_r;
      split; [done|lia]].
  unfold read_location. destruct (use_manual_coords f); cbn [negb andb].
  - unfold mret, M_ret. cbv beta iota. unfold emit at 1. cbn [snd].
    finish_run.
  - case_decide as Hname.
    + unfold mbind, M_bind, emit, mret, M_ret. cbv beta iota.
      intros Heq. simplify_eq. cbn [calls geocoded].
      rewrite bool_decide_eq_false_2 by (intros Hne; by apply Hne).
      rewrite app_nil_r. split; [done|lia].
    + rewrite bool_decide_eq_true_2 by done.
      unfold mbind, M_bind, geocode_place, emit at 1. cbv beta iota.
      cbn [calls sent geocoded ui].
      destruct (geocoder (place_name f)) as [[la lo]|].
      * unfold mret, M_ret. cbv beta iota. unfold emit at 1. cbn [snd].
        finish_run.
      * unfold emit, mret, M_ret. cbv beta iota.
        intros Heq. simplify_eq. cbn [calls geocoded]. split; [done|lia].
Qed.

(** X18. One pass of [main] sends the place name to the geocoder exactly
    once when the button is pressed, manual coordinates are not used and
    the place name is not empty, and never otherwise; the run itself sends
    nothing to the geocoder. *)
Theorem main_geocodes_at_most_once
    (net : nat → request → reply) (geocoder : string → option (Qc * Qc))
    (fuel : nat) (f : form) (w : world) (res : exn + unit) (w' : world) :
  main net geocoder fuel f w = Some (res, w') →
  geocoded w'
  = geocoded w
    ++ (if run_button f && negb (use_manual_coords f)
           && bool_decide (place_name f ≠ EmptyString)
        then [place_name f] else []).
Proof. intros Hmain. by apply main_footprint in Hmain as [Hgeo _]. Qed.

(** With manual coordinates the geocoder is not asked; without them it is
    asked once for the place of the form. *)
Lemma main_geocodes_at_most_once_witness :
  (∃ res w', main net_steady no_geocoder 5 form_abc world0 = Some (res, w')
           ∧ geocoded w' = [])
  ∧ (∃ res w', main net_steady no_geocoder 5 form_place world0
               = Some (res, w')
             ∧ geocoded w' = ["Chennai, India"%string]).
Proof.
  split.
  - destruct (main net_steady no_geocoder 5 form_abc world0)
      as [[res w']|] eqn:Hmain; [|vm_compute in Hmain; discriminate].
    exists res, w'. split; [done|].
    by rewrite (main_geocodes_at_most_once _ _ _ _ _ _ _ Hmain).
  - destruct (main net_steady no_geocoder 5 form_place world0)
      as [[res w']|] eqn:Hmain; [|vm_compute in Hmain; discriminate].
    exists res, w'. split; [done|].
    by rewrite (main_geocodes_at_most_once _ _ _ _ _ _ _ Hmain).
Defined.

(** X19. One pass of [main] makes at most 111 requests to NASA POWER:
    three for each of the 37 blocks of thirty days in the default horizon
    of three years. *)
Theorem main_request_budget
    (net : nat → request → reply) (geocoder : string → option (Qc * Qc))
    (fuel : nat) (f : form) (w : world) (res : exn + unit) (w' : world) :
  main net geocoder fuel f w = Some (res, w') →
  Z.of_nat (calls w') - Z.of_nat (calls w) ≤ 111.
Proof. intros Hmain. by apply main_footprint in Hmain as [_ Hcalls]. Qed.

(** The run of the form with targets [abc] makes three requests. *)
Lemma main_request_budget_witness :
  ∃ res w', main net_steady no_geocoder 5 form_abc world0 = Some (res, w')
          ∧ calls w' = 3%nat ∧ Z.of_nat (calls w') - 0 ≤ 111.
Proof.
  destruct (main net_steady no_geocoder 5 form_abc world0)
    as [[res w']|] eqn:Hmain; [|vm_compute in Hmain; discriminate].
  exists res, w'. split; [done|].
  pose proof (main_request_budget _ _ _ _ _ _ _ Hmain) as Hbudget.
  vm_compute in Hmain. injection Hmain as <- <-.
  split; [reflexivity|exact Hbudget].
Defined.

(** X20. When the API key is not set, or is empty, and manual coordinates
    are not used, one pass of [main] returns normally without any request
    to NASA POWER, whatever the OpenCage client would answer. *)
Theorem main_without_api_key_sends_nothing
    (net : nat → request → reply) (api_key : option string)
    (service : string → string → option (list Geocoding.result))
    (fuel : nat) (f : form) (w : world) :
  api_key = None ∨ api_key = Some EmptyString →
  use_manual_coords f = false →
  ∃ w', main net (Geocoding.as_geocoder api_key service) fuel f w
        = Some (inr (), w')
      ∧ sent w' = sent w ∧ calls w' = calls w.
Proof.
  intros Hkey Hmanual. apply main_no_location. right. split; [done|].
  right. unfold Geocoding.as_geocoder, Geocoding.geocode_place.
  by destruct Hkey as [->| ->].
Qed.

(** No key in the environment: the place of the form is not looked up
    and nothing is sent. *)
Lemma main_without_api_key_sends_nothing_witness :
  ∃ w', main net_steady (Geocoding.as_geocoder None service_chennai) 5
          form_place world0
        = Some (inr (), w')
      ∧ sent w' = [] ∧ calls w' = 0%nat.
Proof.
  apply (main_without_api_key_sends_nothing net_steady None service_chennai 5
           form_place world0); [by left|reflexivity].
Defined.

(** The requests of one pass of [main]. *)
Lemma main_requests net geocoder fuel f w res w' :
  main net geocoder fuel f w = Some (res, w') →
  ∃ new,
    sent w' = sent w ++ new
    ∧ Forall (λ req,
        Some (req_lat req, req_lon req)
        = (if use_manual_coords f then Some (manual_lat f, manual_lon f)
           else geocoder (place_name f))
        ∧ start_date_str f ≤ req_start req ≤ req_end req
        ∧ req_end req ≤ start_date_str f + default_max_days) new.
Proof.
  assert (∀ (la lo : Qc) targets w2 res0 w4,
    sent w2 = sent w →
    Some (la, lo)
    = (if use_manual_coords f then Some (manual_lat f, manual_lon f)
       else geocoder (place_name f)) →
    simulate_gdd net fuel la lo (start_date_str f) (tbase_input f) targets
      default_max_days default_block_days w2
    = Some (res0, w4) →
    ∃ new,
      sent w4 = sent w ++ new
      ∧ Forall (λ req,
          Some (req_lat req, req_lon req)
          = (if use_manual_coords f then Some (manual_lat f, manual_lon f)
             else geocoder (place_name f))
          ∧ start_date_str f ≤ req_start req ≤ req_end req
          ∧ req_end req ≤ start_date_str f + default_max_days) new) as Hsim.
  { intros la lo targets w2 res0 w4 Hs Hll Hrun.
    apply simulate_gdd_requests in Hrun as (new & (Hs4 & _) & Hall & _);
      [|unfold default_block_days; lia].
    exists new. rewrite Hs4, Hs. split; [done|].
    eapply list.Forall_impl; [exact Hall|].
    intros req (<- & <- & Hstart & Hend & _). by rewrite Hll. }
  unfold main.
  destruct (read_targets_footprint f w) as (targets & msgs & ->).
  destruct (run_button f);
    [|intros; simplify_eq; exists []; cbn [sent]; rewrite app_nil_r;
      split; [done|constructor]].
  unfold read_location. destruct (use_manual_coords f) eqn:Hmanual.
  - unfold mret, M_ret. cbv beta iota. unfold emit at 1. cbn [snd].
    destruct (simulate_gdd _ _ _ _ _ _ _ _ _ _) as [[res0 w4]|] eqn:Hrun;
      [|discriminate].
    apply (Hsim (manual_lat f) (manual_lon f)) in Hrun
      as (new & Hs4 & Hall); [|done|done].
    repeat case_match; intros Heq; unfold emit in Heq; simplify_eq;
      exists new; by cbn [sent].
  - case_decide as Hname.
    + unfold mbind, M_bind, emit, mret, M_ret. cbv beta iota.
      intros Heq. simplify_eq. exists []. cbn [sent]. rewrite app_nil_r.
      split; [done|constructor].
    + unfold mbind, M_bind, geocode_place, emit at 1. cbv beta iota.
      cbn [calls sent geocoded ui].
      destruct (geocoder (place_name f)) as [[la lo]|] eqn:Hgeo.
      * unfold mret, M_ret. cbv beta iota. unfold emit at 1. cbn [snd].
        destruct (simulate_gdd _ _ _ _ _ _ _ _ _ _) as [[res0 w4]|] eqn:Hrun;
          [|discriminate].
        apply (Hsim la lo) in Hrun as (new & Hs4 & Hall); [|done|done].
        repeat case_match; intros Heq; unfold emit in Heq; simplify_eq;
          exists new; by cbn [sent].
      * unfold emit, mret, M_ret. cbv beta iota.
        intros Heq. simplify_eq. exists []. cbn [sent]. rewrite app_nil_r.
        split; [done|constructor].
Qed.

(** X21. Every request of one pass of [main] carries the manual
    coordinates of the form when those are used and otherwise the
    coordinates that the geocoder gave for the place name, and asks for
    dates from the start date of the form up to three years after it. *)
Theorem main_requests_carry_location
    (net : nat → request → reply) (geocoder : string → option (Qc * Qc))
    (fuel : nat) (f : form) (w : world) (res : exn + unit) (w' : world) :
  main net geocoder fuel f w = Some (res, w') →
  ∃ new,
    sent w' = sent w ++ new
    ∧ Forall (λ req,
        Some (req_lat req, req_lon req)
        = (if use_manual_coords f then Some (manual_lat f, manual_lon f)
           else geocoder (place_name f))
        ∧ start_date_str f ≤ req_start req ≤ req_end req
        ∧ req_end req ≤ start_date_str f + 1095) new.
Proof. apply main_requests. Qed.

(** The three requests of the form with targets [abc] carry its manual
    coordinates, 13 and 80. *)
Lemma main_requests_carry_location_witness :
  ∃ res w', main net_steady no_geocoder 5 form_abc world0 = Some (res, w')
          ∧ length (sent w') = 3%nat
          ∧ Forall (λ req, Some (req_lat req, req_lon req)
                           = Some (Qc_of_Z 13, Qc_of_Z 80)) (sent w').
Proof.
  destruct (main net_steady no_geocoder 5 form_abc world0)
    as [[res w']|] eqn:Hmain; [|vm_compute in Hmain; discriminate].
  exists res, w'. split; [done|].
  destruct (main_requests_carry_location _ _ _ _ _ _ _ Hmain)
    as (new & Hsent & Hall).
  vm_compute in Hmain. injection Hmain as <- <-.
  split; [reflexivity|]. rewrite Hsent. simpl.
  eapply list.Forall_impl; [exact Hall|]. by intros req [Hll _].
Defined.

(** X22. With an API key set, when the first result of the OpenCage client
    for the place name holds both coordinates, every request of one pass
    of [main] without manual coordinates carries the coordinates of that
    first result; later results play no part. *)
Theorem main_requests_use_first_result
    (net : nat → request → reply) (key : string)
    (service : string → string → option (list Geocoding.result))
    (fuel : nat) (f : form) (w : world) (res : exn + unit) (w' : world)
    (best : Geocoding.result) (others : list Geocoding.result)
    (g : Geocoding.geometry) (la lo : Qc) :
  key ≠ EmptyString →
  use_manual_coords f = false →
  service key (place_name f) = Some (best :: others) →
  Geocoding.result_geometry best = Some g →
  Geocoding.lat g = Some la → Geocoding.lng g = Some lo →
  main net (Geocoding.as_geocoder (Some key) service) fuel f w
  = Some (res, w') →
  ∃ new, sent w' = sent w ++ new
       ∧ Forall (λ req, req_lat req = la ∧ req_lon req = lo) new.
Proof.
  intros Hkey Hmanual Hservice Hgeometry Hlat Hlng Hmain.
  apply main_requests in Hmain as (new & Hsent & Hall).
  exists new. split; [done|].
  eapply list.Forall_impl; [exact Hall|]. simpl.
  intros req [Hll _]. rewrite Hmanual in Hll.
  unfold Geocoding.as_geocoder, Geocoding.geocode_place in Hll.
  rewrite decide_False, Hservice, Hgeometry, Hlat, Hlng in Hll by done.
  by simplify_eq.
Qed.

(** The place of the form is found at 13 and 80, and the three requests of
    the run go out for these coordinates. *)
Lemma main_requests_use_first_result_witness :
  ∃ res w',
    main net_steady (Geocoding.as_geocoder (Some "k"%string) service_chennai)
      5 form_place world0
    = Some (res, w')
    ∧ length (sent w') = 3%nat
    ∧ Forall (λ req, req_lat req = Qc_of_Z 13 ∧ req_lon req = Qc_of_Z 80)
        (sent w').
Proof.
  destruct (main net_steady
              (Geocoding.as_geocoder (Some "k"%string) service_chennai)
              5 form_place world0)
    as [[res w']|] eqn:Hmain; [|vm_compute in Hmain; discriminate].
  exists res, w'. split; [done|].
  edestruct (main_requests_use_first_result net_steady "k" service_chennai 5
               form_place world0 res w')
    as (new & Hsent & Hall);
    [done|reflexivity|reflexivity|reflexivity|reflexivity|reflexivity
    |exact Hmain|].
  vm_compute in Hmain. injection Hmain as <- <-.
  split; [reflexivity|]. rewrite Hsent. exact Hall.
Defined.

(** * The engine on floats *)

(** ** Finite values *)

(** On a service whose replies are the finite replies of [net], the engine
    of [Fl] does what the engine on rationals does. *)

Section FiniteRuns.

Variable net : nat → request → reply.
Variable netf : nat → request → Fl.reply.
Hypothesis netf_finite : ∀ n req, netf n req = fin_reply (net n req).

Lemma fin_retry_loop n : ∀ attempt max_retries req w,
  Fl.retry_loop netf n attempt max_retries req w
  = (match fst (retry_loop net n attempt max_retries req w) with
     | inl e => inl e
     | inr body => inr (fin_body body)
     end,
     snd (retry_loop net n attempt max_retries req w)).
Proof.
  induction n as [|n IH]; intros attempt max_retries req w; [done|].
  cbn [Fl.retry_loop retry_loop].
  unfold mbind, M_bind, Fl.requests_get, requests_get.
  rewrite netf_finite.
  destruct (net (calls w) req) as [status body|]; cbn [fin_reply].
  - destruct (raise_for_status status); [|done].
    destruct (_ && _); [|done]. cbn. apply IH.
  - destruct (bool_decide _); [|done]. cbn. apply IH.
Qed.

Lemma fin_sorted_keys (m : gmap Z Qc) :
  Fl.sorted_keys (Fl.Fin <$> m) = sorted_keys m.
Proof. unfold Fl.sorted_keys, sorted_keys. by rewrite dom_fmap_L. Qed.

Lemma fin_build_rows (tmax_dict tmin_dict : gmap Z Qc) (keys : list Z) :
  Fl.build_rows (Fl.Fin <$> tmax_dict) (Fl.Fin <$> tmin_dict) keys
  = match build_rows tmax_dict tmin_dict keys with
    | inl e => inl e
    | inr rows => inr (fin_observation <$> rows)
    end.
Proof.
  induction keys as [|d keys IH]; [done|].
  cbn [Fl.build_rows build_rows]. rewrite !lookup_fmap, IH.
  destruct (tmax_dict !! d), (tmin_dict !! d); try done.
  by destruct (build_rows tmax_dict tmin_dict keys).
Qed.

Lemma fin_parse_body (body : response_body) :
  Fl.parse_body (fin_body body)
  = match parse_body body with
    | inl e => inl e
    | inr rows => inr (fin_observation <$> rows)
    end.
Proof.
  unfold Fl.parse_body, parse_body, fin_body. cbn [Fl.parameter].
  destruct (parameter body) as [param_data|]; [|done].
  cbn. destruct (T2M_MAX param_data) as [tmax_dict|]; [|done].
  cbn. destruct (T2M_MIN param_data) as [tmin_dict|]; [|done].
  cbn. rewrite fin_sorted_keys. apply fin_build_rows.
Qed.

Lemma fin_get_power lat lon start_date end_date max_retries w :
  Fl.get_power_daily_tmax_tmin netf lat lon start_date end_date max_retries w
  = (match fst (get_power_daily_tmax_tmin net lat lon start_date end_date
                  max_retries w) with
     | inl e => inl e
     | inr rows => inr (fin_observation <$> rows)
     end,
     snd (get_power_daily_tmax_tmin net lat lon start_date end_date
            max_retries w)).
Proof.
  unfold Fl.get_power_daily_tmax_tmin, get_power_daily_tmax_tmin, mbind, M_bind.
  rewrite fin_retry_loop.
  destruct (retry_loop net max_retries 1 max_retries
              (Request lat lon start_date end_date) w) as [[e|body] w1];
    [done|].
  cbn [fst snd]. rewrite fin_parse_body.
  by destruct (parse_body body).
Qed.

Lemma fin_daily_gdd (tmax tmin tbase : Qc) :
  Fl.daily_gdd (Fl.Fin tmax) (Fl.Fin tmin) (Fl.Fin tbase)
  = Fl.Fin (daily_gdd tmax tmin tbase).
Proof.
  unfold Fl.daily_gdd, daily_gdd, Fl.py_max, py_max. cbn.
  by case_bool_decide; case_decide.
Qed.

Lemma fin_mark_stage (cum : Qc) (date_d : date) (sd : gmap Z (option date))
    (thr : Z) :
  Fl.mark_stage (Fl.Fin cum) date_d sd thr = mark_stage cum date_d sd thr.
Proof.
  unfold Fl.mark_stage, mark_stage. destruct (sd !! thr) as [[d|]|]; try done.
  cbn. by case_bool_decide; case_decide.
Qed.

Lemma fin_mark_stages (targets : list Z) (cum : Qc) (date_d : date) :
  ∀ sd : gmap Z (option date),
  Fl.mark_stages targets (Fl.Fin cum) date_d sd
  = mark_stages targets cum date_d sd.
Proof.
  unfold Fl.mark_stages, mark_stages.
  induction targets as [|thr targets IH]; intros sd; [done|].
  cbn [foldl]. by rewrite fin_mark_stage, IH.
Qed.

Lemma fin_process_row tbase targets st row :
  Fl.process_row (Fl.Fin tbase) targets (fin_state st) (fin_observation row)
  = fin_state (process_row tbase targets st row).
Proof.
  unfold Fl.process_row, process_row, fin_state. cbn.
  rewrite fin_daily_gdd. cbn. rewrite fin_mark_stages.
  by rewrite fmap_app.
Qed.

Lemma fin_process_block tbase targets highest_target rows : ∀ st,
  Fl.process_block (Fl.Fin tbase) targets highest_target
    (fin_observation <$> rows) (fin_state st)
  = fin_state (process_block tbase targets highest_target rows st).
Proof.
  induction rows as [|row rows IH]; intros st; [done|].
  rewrite fmap_cons. cbn [Fl.process_block process_block].
  cbn [fin_state Fl.cum_gdd Fl.leb Fl.of_int].
  case_bool_decide; case_decide; try done.
  fold (fin_state st). by rewrite fin_process_row, IH.
Qed.

Lemma fin_loop_guard highest_target end_date_limit st :
  Fl.loop_guard highest_target end_date_limit (fin_state st)
  = loop_guard highest_target end_date_limit st.
Proof. done. Qed.

Lemma fin_loop_body lat lon tbase targets highest_target end_date_limit
    block_days st w :
  Fl.loop_body netf lat lon (Fl.Fin tbase) targets highest_target
    end_date_limit block_days (fin_state st) w
  = match loop_body net lat lon tbase targets highest_target end_date_limit
            block_days st w with
    | Continue st' w' => Fl.Continue (fin_state st') w'
    | Break st' w' => Fl.Break (fin_state st') w'
    end.
Proof.
  unfold Fl.loop_body, loop_body. cbn [fin_state Fl.current_start].
  rewrite fin_get_power.
  destruct (get_power_daily_tmax_tmin _ _ _ _ _ _ _) as [[e|rows] w2];
    cbn [fst snd]; [done|].
  fold (fin_state st). by rewrite fin_process_block.
Qed.

Lemma fin_simulate_loop lat lon tbase targets highest_target end_date_limit
    block_days fuel : ∀ st w,
  Fl.simulate_loop netf fuel lat lon (Fl.Fin tbase) targets highest_target
    end_date_limit block_days (fin_state st) w
  = prod_map fin_state id
      <$> simulate_loop net fuel lat lon tbase targets highest_target
            end_date_limit block_days st w.
Proof.
  induction fuel as [|fuel IH]; intros st w;
    cbn [Fl.simulate_loop simulate_loop]; rewrite fin_loop_guard.
  - by destruct (loop_guard _ _ _).
  - destruct (loop_guard _ _ _); [|done].
    rewrite fin_loop_body.
    destruct (loop_body _ _ _ _ _ _ _ _ _ _) as [st1 w1|st1 w1]; [|done].
    apply IH.
Qed.

(** A run of the float engine on finite replies, with a finite base
    temperature, is the run of the engine on rationals. *)
Lemma fin_simulate_gdd fuel lat lon start_date tbase targets max_days
    block_days w :
  Fl.simulate_gdd netf fuel lat lon start_date (Fl.Fin tbase) targets
    max_days block_days w
  = match simulate_gdd net fuel lat lon start_date tbase targets max_days
            block_days w with
    | Some (inr (history, stages), w') =>
      Some (inr (fin_record <$> history, stages), w')
    | Some (inl e, w') => Some (inl e, w')
    | None => None
    end.
Proof.
  unfold Fl.simulate_gdd, simulate_gdd.
  destruct (max_targets targets) as [highest_target|]; [|done].
  change (Fl.SimState (Fl.Fin (Qc_of_Z 0)) (init_stage_dates targets) []
            start_date)
    with (fin_state (SimState (Qc_of_Z 0) (init_stage_dates targets) []
                       start_date)).
  rewrite fin_simulate_loop.
  by destruct (simulate_loop _ _ _ _ _ _ _ _ _ _ _) as [[st w1]|].
Qed.

End FiniteRuns.

(** A dictionary of finite values is the embedding of its finite parts. *)
Lemma finite_dict (m : gmap Z Fl.num) :
  map_Forall (λ _ v, ∃ q, v = Fl.Fin q) m →
  Fl.Fin <$> (finite_part <$> m) = m.
Proof.
  intros Hfin. apply map_eq. intros d. rewrite !lookup_fmap.
  destruct (m !! d) as [v|] eqn:Hd; [|done].
  destruct (Hfin d v Hd) as [q ->]. done.
Qed.

(** A service of finite values gives the finite replies of a service on
    rationals. *)
Lemma finite_service_replies (netf : nat → request → Fl.reply) :
  Fl.finite_service netf →
  ∀ n req, netf n req = fin_reply (finite_reply (netf n req)).
Proof.
  intros Hfin n req.
  destruct (netf n req) as [status [[param_data|]]|] eqn:Hreply; [|done..].
  destruct (Hfin n req status _ param_data Hreply eq_refl) as [Hmax Hmin].
  destruct param_data as [tmax tmin]. cbn. unfold fin_body, fin_block. cbn.
  do 3 f_equal. f_equal.
  - destruct tmax as [tmax_dict|]; [|done]. cbn. f_equal.
    symmetry. by apply finite_dict, Hmax.
  - destruct tmin as [tmin_dict|]; [|done]. cbn. f_equal.
    symmetry. by apply finite_dict, Hmin.
Qed.

Lemma finite_reply_within_request (netf : nat → request → Fl.reply) :
  Fl.within_request netf →
  within_request (λ n req, finite_reply (netf n req)).
Proof.
  intros Hwithin n req status body param_data tmax_dict d Hreply Hparam Hmax Hd.
  destruct (netf n req) as [status' [[[tmax tmin]|]]|] eqn:Hf;
    cbn in Hreply; simplify_eq; cbn in Hparam; simplify_eq.
  destruct tmax as [tmax_dict'|]; cbn in Hmax; [|discriminate].
  injection Hmax as <-. rewrite dom_fmap_L in Hd.
  eapply Hwithin; [exact Hf|reflexivity|reflexivity|exact Hd].
Qed.

Lemma fin_net_finite (net : nat → request → reply) :
  Fl.finite_service (fin_net net).
Proof.
  intros n req status body param_data Hreply Hparam.
  unfold fin_net in Hreply.
  destruct (net n req) as [status' [[[tmax tmin]|]]|]; cbn in Hreply;
    simplify_eq; cbn in Hparam; simplify_eq.
  split; cbn; intros m Hm.
  - destruct tmax as [tmax_dict|]; cbn in Hm; [|discriminate].
    injection Hm as <-. intros d v Hv. rewrite lookup_fmap in Hv.
    destruct (tmax_dict !! d); cbn in Hv; simplify_eq. eauto.
  - destruct tmin as [tmin_dict|]; cbn in Hm; [|discriminate].
    injection Hm as <-. intros d v Hv. rewrite lookup_fmap in Hv.
    destruct (tmin_dict !! d); cbn in Hv; simplify_eq. eauto.
Qed.

Lemma fin_net_within_request (net : nat → request → reply) :
  within_request net → Fl.within_request (fin_net net).
Proof.
  intros Hwithin n req status body param_data tmax_dict d Hreply Hparam Hmax Hd.
  unfold fin_net in Hreply.
  destruct (net n req) as [status' [[[tmax tmin]|]]|] eqn:Hf;
    cbn in Hreply; simplify_eq; cbn in Hparam; simplify_eq.
  destruct tmax as [tmax_dict'|]; cbn in Hmax; [|discriminate].
  injection Hmax as <-. rewrite dom_fmap_L in Hd.
  eapply Hwithin; [exact Hf|reflexivity|reflexivity|exact Hd].
Qed.

Lemma fin_sorted (l : list Qc) :
  StronglySorted Qcle l → StronglySorted Fl.le (Fl.Fin <$> l).
Proof.
  induction 1 as [|x l Hl IH Hx]; [constructor|].
  rewrite fmap_cons. constructor; [done|].
  apply list.Forall_fmap. eapply list.Forall_impl; [exact Hx|].
  intros y Hxy. unfold Fl.le. cbn. by apply bool_decide_eq_true.
Qed.

(** What a run on a service of finite values returns. *)
Lemma finite_run (netf : nat → request → Fl.reply) fuel lat lon start_date
    tbase targets max_days block_days w history stages w' :
  Fl.finite_service netf →
  Fl.simulate_gdd netf fuel lat lon start_date (Fl.Fin tbase) targets max_days
    block_days w
  = Some (inr (history, stages), w') →
  ∃ h,
    history = fin_record <$> h
    ∧ simulate_gdd (λ n req, finite_reply (netf n req)) fuel lat lon start_date
        tbase targets max_days block_days w
      = Some (inr (h, stages), w').
Proof.
  intros Hfin Hrun.
  rewrite (fin_simulate_gdd (λ n req, finite_reply (netf n req)) netf
             (finite_service_replies netf Hfin)) in Hrun.
  destruct (simulate_gdd _ _ _ _ _ _ _ _ _ _) as [[[e|[h s]] w1]|];
    simplify_eq. eauto.
Qed.

(** ** The order of the history *)

(** C3, as the code has it.  When every temperature that the service gives
    and the base temperature are finite numbers, the cumulative GDD of the
    history of a run never decreases; when moreover the service keeps
    every reply inside the requested range, the dates are strictly
    ascending and so without duplicates.  With blocks of at least one day
    and some target the run returns. *)
Theorem history_totals_and_dates_ascend (netf : nat → request → Fl.reply)
    (fuel : nat) (lat lon : Qc) (start_date : date) (tbase : Qc)
    (targets : list Z) (max_days block_days : Z) (w : world) :
  Fl.finite_service netf →
  (∀ history stages w',
     Fl.simulate_gdd netf fuel lat lon start_date (Fl.Fin tbase) targets
       max_days block_days w
     = Some (inr (history, stages), w') →
     StronglySorted Fl.le (Fl.GDD_cum <$> history)
     ∧ (Fl.within_request netf →
        StronglySorted Z.lt (Fl.rec_date <$> history)
        ∧ NoDup (Fl.rec_date <$> history)))
  ∧ (1 ≤ block_days → targets ≠ [] → (Z.to_nat (max_days + 1) ≤ fuel)%nat →
     ∃ history stages w',
       Fl.simulate_gdd netf fuel lat lon start_date (Fl.Fin tbase) targets
         max_days block_days w
       = Some (inr (history, stages), w')).
Proof.
  intros Hfin. split.
  - intros history stages w' Hrun.
    destruct (finite_run _ _ _ _ _ _ _ _ _ _ _ _ _ Hfin Hrun) as (h & -> & Hq).
    assert (Fl.GDD_cum <$> (fin_record <$> h) = Fl.Fin <$> (GDD_cum <$> h))
      as -> by (by rewrite <-!list_fmap_compose).
    assert (Fl.rec_date <$> (fin_record <$> h) = rec_date <$> h)
      as -> by (by rewrite <-list_fmap_compose).
    split.
    + apply fin_sorted. by apply simulate_gdd_result_ok in Hq as [_ Hsorted].
    + intros Hwithin.
      destruct (rational_history_ascends _ fuel lat lon start_date tbase
                  targets max_days block_days w
                  (finite_reply_within_request netf Hwithin)) as [Hall _].
      by destruct (Hall _ _ _ Hq) as (_ & Hdates & Hnodup).
  - intros Hbd Htargets Hfuel.
    rewrite (fin_simulate_gdd (λ n req, finite_reply (netf n req)) netf
               (finite_service_replies netf Hfin)).
    destruct (simulate_gdd_returns (λ n req, finite_reply (netf n req)) fuel
                lat lon start_date tbase targets max_days block_days w Hbd
                Htargets Hfuel) as (h & s & w' & ->).
    eauto.
Qed.

(** A steady service over ten days in blocks of three: the dates run from
    day 1 to day 10 and both orders hold. *)
Lemma history_totals_and_dates_ascend_witness :
  ∃ history stages w',
    Fl.simulate_gdd (fin_net net_steady) 10 (Qc_of_Z 13) (Qc_of_Z 80) 1
      (Fl.Fin (Qc_of_Z 10)) [100; 300] 9 3 world0
    = Some (inr (history, stages), w')
    ∧ Fl.rec_date <$> history = [1; 2; 3; 4; 5; 6; 7; 8; 9; 10]
    ∧ StronglySorted Z.lt (Fl.rec_date <$> history)
    ∧ StronglySorted Fl.le (Fl.GDD_cum <$> history).
Proof.
  destruct (history_totals_and_dates_ascend (fin_net net_steady) 10
              (Qc_of_Z 13) (Qc_of_Z 80) 1 (Qc_of_Z 10) [100; 300] 9 3 world0
              (fin_net_finite net_steady)) as [Hall _].
  eexists _, _, _. split; [vm_compute; reflexivity|].
  split; [vm_compute; reflexivity|].
  edestruct Hall as (Htotals & Hdates); [vm_compute; reflexivity|].
  split; [|exact Htotals].
  apply Hdates, fin_net_within_request, net_steady_within_request.
Defined.

Lemma net_nan_within_request : Fl.within_request net_nan.
Proof.
  intros n req status body param_data tmax_dict d Hreply Hparam Hmax Hd.
  unfold net_nan in Hreply. case_bool_decide as Hrange; simplify_eq;
    cbn in Hparam; simplify_eq; cbn in Hmax; simplify_eq.
  - rewrite !dom_insert_L, dom_singleton_L in Hd. set_unfold in Hd. lia.
  - rewrite dom_empty_L in Hd. set_solver.
Qed.

(** C3 as stated fails on a reply that holds a NaN.  The service answers
    inside the requested range, with three days in ascending order in one
    block, and the second maximum is NaN: the totals of the history are
    15, NaN and NaN, and [15 <= NaN] is false. *)
Lemma history_totals_break_on_nan :
  Fl.within_request net_nan
  ∧ ∃ history stages w' total,
      Fl.simulate_gdd net_nan 5 (Qc_of_Z 13) (Qc_of_Z 80) 739252
        (Fl.Fin (Qc_of_Z 10)) [100] 9 30 world0
      = Some (inr (history, stages), w')
      ∧ Fl.rec_date <$> history = [739252; 739253; 739254]
      ∧ Fl.GDD_cum <$> history = [Fl.Fin total; Fl.NaN; Fl.NaN]
      ∧ total = Qc_of_Z 15
      ∧ ¬ Sorted Fl.le (Fl.GDD_cum <$> history).
Proof.
  split; [apply net_nan_within_request|].
  eexists _, _, _, _. split; [vm_compute; reflexivity|].
  split; [reflexivity|]. split; [reflexivity|].
  split; [by apply Qc_is_canon|].
  intros Hsorted. apply Sorted_inv in Hsorted as [_ Hhd].
  apply HdRel_inv in Hhd. discriminate Hhd.
Qed.

(** ** A dated target *)

(** X13. When every temperature that the service gives and the base
    temperature are finite numbers, a target has a date in the result of
    a run exactly when the total of the last record has reached it. *)
Theorem target_is_set_iff_reached (netf : nat → request → Fl.reply)
    (fuel : nat) (lat lon : Qc) (start_date : date) (tbase : Qc)
    (targets : list Z) (max_days block_days : Z) (w : world)
    (history : list Fl.gdd_record) (stages : gmap Z (option date))
    (w' : world) (thr : Z) :
  Fl.finite_service netf →
  Fl.simulate_gdd netf fuel lat lon start_date (Fl.Fin tbase) targets max_days
    block_days w
  = Some (inr (history, stages), w') →
  thr ∈ targets →
  (∃ d, stages !! thr = Some (Some d))
  ↔ (∃ r, list.last history = Some r
          ∧ Fl.le (Fl.of_int thr) (Fl.GDD_cum r)).
Proof.
  intros Hfin Hrun Hthr.
  destruct (finite_run _ _ _ _ _ _ _ _ _ _ _ _ _ Hfin Hrun) as (h & -> & Hq).
  rewrite (rational_target_is_set_iff_reached _ _ _ _ _ _ _ _ _ _ _ _ _ thr
             Hq Hthr).
  rewrite fmap_last. split.
  - intros (r & -> & Hle). exists (fin_record r). split; [done|].
    unfold Fl.le. cbn. by apply bool_decide_eq_true.
  - intros (r & Hlast & Hle).
    destruct (list.last h) as [r0|]; cbn in Hlast; simplify_eq.
    exists r0. split; [done|].
    unfold Fl.le in Hle. cbn in Hle. by apply bool_decide_eq_true in Hle.
Qed.

(** Ten warm days end at a total of 150: the target 100 has a date and the
    target 300 has none. *)
Lemma target_is_set_iff_reached_witness :
  ∃ history stages w',
    Fl.simulate_gdd (fin_net net_steady) 10 (Qc_of_Z 13) (Qc_of_Z 80) 1
      (Fl.Fin (Qc_of_Z 10)) [100; 300] 9 30 world0
    = Some (inr (history, stages), w')
    ∧ (∃ d, stages !! 100 = Some (Some d))
    ∧ ¬ ∃ d, stages !! 300 = Some (Some d).
Proof.
  eexists _, _, _. split; [vm_compute; reflexivity|]. split.
  - eapply (target_is_set_iff_reached (fin_net net_steady) 10 (Qc_of_Z 13)
              (Qc_of_Z 80) 1 (Qc_of_Z 10) [100; 300] 9 30 world0);
      [apply fin_net_finite|vm_compute; reflexivity|by left|].
    eexists. split; [reflexivity|]. vm_compute. reflexivity.
  - intros Hset.
    eapply (target_is_set_iff_reached (fin_net net_steady) 10 (Qc_of_Z 13)
              (Qc_of_Z 80) 1 (Qc_of_Z 10) [100; 300] 9 30 world0) in Hset;
      [|apply fin_net_finite|vm_compute; reflexivity|by right; left].
    destruct Hset as (r & Hlast & Hle).
    vm_compute in Hlast. injection Hlast as <-.
    vm_compute in Hle. discriminate Hle.
Defined.
